(** * Block-sparse matrix multiplication: dispatcher and 32x32x8 kernel

    A shallow embedding of [src/native/sparse_matmul_gpu.cu]
    ([sparse_matmul] and [sparse_matmul_sdd_32x32x8_kernel]) and of the
    host-side dispatcher [batched_sparse_matmul_op], followed by the
    properties of the specification stated against them. *)

From Stdlib Require Import ZArith List String Ascii Bool Lia.
From Stdlib Require Import Floats.SpecFloat.
Import ListNotations.
Open Scope Z_scope.

(** ** Machine integers *)

(** [uint] is a 32-bit unsigned integer: every value stored in a [uint]
    variable is reduced modulo 2^32. *)
Definition uint_modulus : Z := 2 ^ 32.

Definition to_uint (z : Z) : Z := z mod uint_modulus.

(** ** The tensor library's shape operations

    The tensor library is an external collaborator; only the shape
    behaviour of the operations the dispatcher calls is described:
    [size], [sizes().slice], [flatten], [new_empty], [reshape]. *)
Module Torch.

Definition sizes := list Z.

Definition dim (s : sizes) : Z := Z.of_nat (List.length s).

Definition numel (s : sizes) : Z := fold_right Z.mul 1 s.

(** [maybe_wrap_dim d rank]: a dimension index in [-rank, rank), negative
    indices counted from the end. *)
Definition maybe_wrap_dim (d rank : Z) : option Z :=
  if (- rank <=? d) && (d <? rank)
  then Some (if d <? 0 then d + rank else d)
  else None.

(** [t.size(d)] *)
Definition size (s : sizes) (d : Z) : option Z :=
  match maybe_wrap_dim d (dim s) with
  | Some i => nth_error s (Z.to_nat i)
  | None => None
  end.

(** [t.sizes().slice(n, m)]: [m] extents starting at position [n]; the
    arguments are unsigned, so a negative [m] is out of range. *)
Definition slice (s : sizes) (n m : Z) : option sizes :=
  if (0 <=? n) && (0 <=? m) && (n + m <=? dim s)
  then Some (firstn (Z.to_nat m) (skipn (Z.to_nat n) s))
  else None.

(** [t.flatten(start_dim, end_dim)]: a zero-dimensional tensor is indexed
    as if it had one dimension. *)
Definition flatten (s : sizes) (start_dim end_dim : Z) : option sizes :=
  let r := if dim s <=? 0 then 1 else dim s in
  match maybe_wrap_dim start_dim r, maybe_wrap_dim end_dim r with
  | Some i, Some j =>
      if j <? i then None
      else if dim s =? 0 then Some [1]
      else Some (firstn (Z.to_nat i) s
                 ++ [numel (firstn (Z.to_nat (j - i + 1)) (skipn (Z.to_nat i) s))]
                 ++ skipn (Z.to_nat (j + 1)) s)
  | _, _ => None
  end.

(** [t.reshape(shape)] for a shape without inferred extents. *)
Definition reshape (s shape : sizes) : option sizes :=
  if numel s =? numel shape then Some shape else None.

End Torch.

(** ** Effects of a dispatcher call *)

Inductive scalar_type := Float | Half | OtherType.

(** [std::tuple] of the block-list tensor and the table tensor. *)
Record layout_tensors := {
  layout_blocks : list Z;   (* std::get<0> *)
  layout_table : list Z     (* std::get<1> *)
}.

Inductive kernel := sparse_matmul_sdd_32x32x8_kernel.

Inductive host_op :=
| batched_sparse_matmul_op_32x32_sdd
| batched_sparse_matmul_op_32x32_dsd
| batched_sparse_matmul_op_32x32_dds.

Record kernel_args := {
  arg_layout : layout_tensors;
  arg_num_blocks : Z;
  arg_size_m : Z;
  arg_size_n : Z;
  arg_size_k : Z;
  arg_trans_a : bool;
  arg_trans_b : bool
}.

Record host_op_args := {
  op_blocks : list Z;
  op_table : option (list Z);
  op_total_blocks : Z;
  op_total_batches : Z;
  op_total_m : Z;
  op_total_n : Z;
  op_total_k : Z;
  op_trans_a : bool;
  op_trans_b : bool
}.

Inductive event :=
| Alloc (shape : Torch.sizes)                               (* new_empty *)
| Launch (k : kernel) (blocks : Z * Z * Z) (threads : Z)
         (args : kernel_args)                               (* kernel<<<...>>> *)
| CallOp (op : host_op) (args : host_op_args).

Inductive exn :=
| out_of_range     (* std::out_of_range, thrown by std::string::at *)
| IndexError       (* dimension index out of range, thrown by size / flatten *)
| SliceError       (* invalid ArrayRef slice *)
| ReshapeError     (* element counts differ in reshape *)
| TypeError        (* data_ptr<T>() on a tensor of another element type *)
| SizeError.       (* new_empty with a negative extent *)

Inductive outcome (A : Type) :=
| Returns (x : A)
| Throws (e : exn)
| Undefined.       (* behaviour the language leaves undefined *)

Arguments Returns {A} x.
Arguments Throws {A} e.
Arguments Undefined {A}.

(** A computation appends to the log of events and ends in an outcome. *)
Definition M (A : Type) : Type := list event -> outcome A * list event.

Definition ret {A} (x : A) : M A := fun log => (Returns x, log).

Definition bind {A B} (c : M A) (f : A -> M B) : M B :=
  fun log =>
    match c log with
    | (Returns x, log') => f x log'
    | (Throws e, log') => (Throws e, log')
    | (Undefined, log') => (Undefined, log')
    end.

Definition throw {A} (e : exn) : M A := fun log => (Throws e, log).

Definition undefined {A} : M A := fun log => (Undefined, log).

Definition emit (e : event) : M unit := fun log => (Returns tt, log ++ [e]).

Definition or_throw {A} (e : exn) (o : option A) : M A :=
  match o with
  | Some x => ret x
  | None => throw e
  end.

Definition run {A} (c : M A) : outcome A * list event := c [].

Notation "x <- c ;; k" := (bind c (fun x => k))
  (at level 61, c at next level, right associativity).
Notation "c ;;; k" := (bind c (fun _ => k))
  (at level 61, right associativity).

(** [mode.at(i)] *)
Definition string_at (s : string) (i : nat) : M ascii :=
  or_throw out_of_range (String.get i s).

Definition is_d (c : ascii) : bool := Ascii.eqb c "d"%char.

Definition size (s : Torch.sizes) (d : Z) : M Z :=
  or_throw IndexError (Torch.size s d).

Definition flatten (s : Torch.sizes) (start_dim end_dim : Z) : M Torch.sizes :=
  or_throw IndexError (Torch.flatten s start_dim end_dim).

Definition new_empty (shape : Torch.sizes) : M Torch.sizes :=
  emit (Alloc shape) ;;; ret shape.

Definition reshape (s shape : Torch.sizes) : M Torch.sizes :=
  or_throw ReshapeError (Torch.reshape s shape).

(** [t.data_ptr<float>()] *)
Definition data_ptr_float (t : scalar_type) : M unit :=
  match t with
  | Float => ret tt
  | _ => throw TypeError
  end.

(** ** [sparse_matmul] (src/native/sparse_matmul_gpu.cu)

    The calls of this part have two operands of one element type and
    layout tensors that are one-dimensional, with a 16-bit block list and
    a 32-bit table, given by their entries.  Calls with arbitrary tensor
    arguments are treated in module [General] further down. *)

Record call := {
  a : Torch.sizes;
  b : Torch.sizes;
  dtype : scalar_type;          (* a.scalar_type(); the operands of a call
                                   share one element type *)
  mode : string;
  row_layout : layout_tensors;
  col_layout : layout_tensors;
  trans_a : bool;
  trans_b : bool
}.

(** [tile<float, 32, 8>::THREADS]: the tile declaration is not part of the
    translated sources; the kernel's header comment gives 256 threads per
    block for single precision. *)
Definition THREADS : Z := 256.

Definition select_layout (c : call) : layout_tensors :=
  if (String.eqb (mode c) "sdd"
      || (String.eqb (mode c) "dsd" && negb (trans_a c))
      || (String.eqb (mode c) "dds" && trans_b c))%bool
  then row_layout c else col_layout c.

Definition launch_blocks (md : string) (num_blocks num_batches size_m size_n : Z)
  : Z * Z * Z :=
  if String.eqb md "sdd" then (num_blocks, num_batches, 1)
  else (num_batches, to_uint (size_m + 32 - 1) / 32, to_uint (size_n + 32 - 1) / 32).

(** [DISPATCH_KERNEL_WITH_TYPE]: the body runs for [Float] only; the
    [Half] branch is commented out and other types match no branch. *)
Definition dispatch_kernel_with_type (t : scalar_type) (body : M unit) : M unit :=
  match t with
  | Float => body
  | Half => ret tt
  | OtherType => ret tt
  end.

(** [auto kernel = mode == "sdd" ? ... : mode == "dsd" ? ... : ...]
    (lines 145-147): the three alternatives name the same kernel. *)
Definition select_kernel (md : string) : kernel :=
  if String.eqb md "sdd" then sparse_matmul_sdd_32x32x8_kernel
  else if String.eqb md "dsd" then sparse_matmul_sdd_32x32x8_kernel
  else sparse_matmul_sdd_32x32x8_kernel.

Definition sparse_matmul (c : call) : M Torch.sizes :=
  let layout := select_layout c in
  let num_blocks := to_uint (Z.of_nat (List.length (layout_blocks layout)) / 2) in
  let sparse_width := to_uint ((Z.of_nat (List.length (layout_table layout)) - 1) * 32) in
  m1 <- string_at (mode c) 1 ;;
  size_m <- (if is_d m1
             then x <- size (a c) (if trans_a c then -1 else -2) ;; ret (to_uint x)
             else ret sparse_width) ;;
  m2 <- string_at (mode c) 2 ;;
  size_n <- (if is_d m2
             then x <- size (b c) (if trans_b c then -2 else -1) ;; ret (to_uint x)
             else ret sparse_width) ;;
  m2 <- string_at (mode c) 2 ;;
  size_k <- (if is_d m2
             then x <- size (b c) (if trans_b c then -1 else -2) ;; ret (to_uint x)
             else x <- size (a c) (if trans_a c then -2 else -1) ;; ret (to_uint x)) ;;
  m1 <- string_at (mode c) 1 ;;
  let dense := if is_d m1 then a c else b c in
  shape <- or_throw SliceError (Torch.slice dense 0 (Torch.dim dense - 2)) ;;
  m0 <- string_at (mode c) 0 ;;
  let shape := if is_d m0 then shape ++ [size_m; size_n]
               else shape ++ [num_blocks; 32; 32] in
  m1 <- string_at (mode c) 1 ;;
  a' <- flatten (a c) 0 (if is_d m1 then -3 else -4) ;;
  m2 <- string_at (mode c) 2 ;;
  b' <- flatten (b c) 0 (if is_d m2 then -3 else -4) ;;
  nb <- size a' 0 ;;
  let num_batches := to_uint nb in
  m0 <- string_at (mode c) 0 ;;
  c' <- (if is_d m0 then new_empty [num_batches; size_m; size_n]
         else new_empty [num_batches; num_blocks; 32; 32]) ;;
  let blocks := launch_blocks (mode c) num_blocks num_batches size_m size_n in
  dispatch_kernel_with_type (dtype c)
    (let k := select_kernel (mode c) in
     emit (Launch k blocks THREADS
             {| arg_layout := layout; arg_num_blocks := num_blocks;
                arg_size_m := size_m; arg_size_n := size_n; arg_size_k := size_k;
                arg_trans_a := trans_a c; arg_trans_b := trans_b c |})) ;;;
  reshape c' shape.

(** ** [batched_sparse_matmul_op] (host-side dispatcher) *)

(** Modelled from the spec: [TILE_32x32_WIDTH] is declared in a header that
    is not among the sources; the tiles are fixed at 32x32. *)
Definition TILE_32x32_WIDTH : Z := 32.

(** [v.pop_back()]: undefined on an empty vector. *)
Definition pop_back (v : list Z) : M (list Z) :=
  match v with
  | [] => undefined
  | _ => ret (removelast v)
  end.

Definition push_back (v : list Z) (x : Z) : list Z := v ++ [x].

Definition tensor_len (t : list Z) : Z := Z.of_nat (List.length t).

Definition batched_sparse_matmul_op (c : call) : M Torch.sizes :=
  let row_blocks := layout_blocks (row_layout c) in
  let row_table := layout_table (row_layout c) in
  let col_blocks := layout_blocks (col_layout c) in
  let col_table := layout_table (col_layout c) in
  if String.eqb (mode c) "sdd" then
    let output_shape := a c in
    output_shape <- pop_back output_shape ;;
    output_shape <- pop_back output_shape ;;
    let output_shape := push_back output_shape (tensor_len row_blocks / 2) in
    let output_shape := push_back output_shape TILE_32x32_WIDTH in
    let output_shape := push_back output_shape TILE_32x32_WIDTH in
    a' <- flatten (a c) 0 (-3) ;;
    b' <- flatten (b c) 0 (-3) ;;
    total_batches <- size a' 0 ;;
    let total_blocks := tensor_len row_blocks / 2 in
    total_m <- size a' (if trans_a c then -1 else -2) ;;
    total_n <- size b' (if trans_b c then -2 else -1) ;;
    total_k <- size b' (if trans_b c then -1 else -2) ;;
    c' <- new_empty [total_batches; total_blocks; TILE_32x32_WIDTH; TILE_32x32_WIDTH] ;;
    data_ptr_float (dtype c) ;;;
    emit (CallOp batched_sparse_matmul_op_32x32_sdd
            {| op_blocks := row_blocks; op_table := None;
               op_total_blocks := total_blocks; op_total_batches := total_batches;
               op_total_m := total_m; op_total_n := total_n; op_total_k := total_k;
               op_trans_a := trans_a c; op_trans_b := trans_b c |}) ;;;
    reshape c' output_shape
  else if String.eqb (mode c) "dsd" then
    let sparse_blocks := if trans_a c then col_blocks else row_blocks in
    let sparse_table := if trans_a c then col_table else row_table in
    let total_m := (tensor_len sparse_table - 1) * TILE_32x32_WIDTH in
    total_n <- size (b c) (if trans_b c then -2 else -1) ;;
    total_k <- size (b c) (if trans_b c then -1 else -2) ;;
    let output_shape := b c in
    output_shape <- pop_back output_shape ;;
    output_shape <- pop_back output_shape ;;
    let output_shape := push_back output_shape total_m in
    let output_shape := push_back output_shape total_n in
    a' <- flatten (a c) 0 (-4) ;;
    b' <- flatten (b c) 0 (-3) ;;
    total_batches <- size a' 0 ;;
    let total_blocks := tensor_len sparse_blocks / 2 in
    c' <- new_empty [total_batches; total_m; total_n] ;;
    data_ptr_float (dtype c) ;;;
    emit (CallOp batched_sparse_matmul_op_32x32_dsd
            {| op_blocks := sparse_blocks; op_table := Some sparse_table;
               op_total_blocks := total_blocks; op_total_batches := total_batches;
               op_total_m := total_m; op_total_n := total_n; op_total_k := total_k;
               op_trans_a := trans_a c; op_trans_b := trans_b c |}) ;;;
    reshape c' output_shape
  else if String.eqb (mode c) "dds" then
    let sparse_blocks := if trans_b c then row_blocks else col_blocks in
    let sparse_table := if trans_b c then row_table else col_table in
    total_m <- size (a c) (if trans_a c then -1 else -2) ;;
    let total_n := (tensor_len sparse_table - 1) * TILE_32x32_WIDTH in
    total_k <- size (a c) (if trans_a c then -2 else -1) ;;
    let output_shape := a c in
    output_shape <- pop_back output_shape ;;
    output_shape <- pop_back output_shape ;;
    let output_shape := push_back output_shape total_m in
    let output_shape := push_back output_shape total_n in
    a' <- flatten (a c) 0 (-3) ;;
    b' <- flatten (b c) 0 (-4) ;;
    total_batches <- size a' 0 ;;
    let total_blocks := tensor_len sparse_blocks / 2 in
    c' <- new_empty [total_batches; total_m; total_n] ;;
    data_ptr_float (dtype c) ;;;
    emit (CallOp batched_sparse_matmul_op_32x32_dds
            {| op_blocks := sparse_blocks; op_table := Some sparse_table;
               op_total_blocks := total_blocks; op_total_batches := total_batches;
               op_total_m := total_m; op_total_n := total_n; op_total_k := total_k;
               op_trans_a := trans_a c; op_trans_b := trans_b c |}) ;;;
    reshape c' output_shape
  else
    (* control reaches the end of the function without a return statement *)
    undefined.

(** ** Sparse layout and tile transfer

    [layout_utils.cuh] and [tiling_utils.cuh] are not among the sources; the
    layout lookup and the tile loader follow the specification. *)

Record sparse_block := { row : Z; col : Z; idx : Z }.

(** Modelled from the spec: [sparse_layout::get(i)] returns the i-th
    block's (row, col, idx) in list order; the block list holds one
    (row, col) pair per tile and [idx] is the block's linear position in
    the list.  An index past the end of the list reads outside the layout. *)
Definition layout_get (l : layout_tensors) (i : Z) : option sparse_block :=
  if i <? 0 then None
  else
    match nth_error (layout_blocks l) (Z.to_nat (2 * i)),
          nth_error (layout_blocks l) (Z.to_nat (2 * i + 1)) with
    | Some r, Some c => Some {| row := r; col := c; idx := i |}
    | _, _ => None
    end.

(** Modelled from the spec: the parameters of
    [prefetch(source_pointer, row_origin, col_origin, leading_dimension)].
    A call site builds this record positionally from its second, third
    and fourth argument. *)
Record prefetch_args := {
  row_origin : Z;
  col_origin : Z;
  leading_dimension : Z
}.

Definition zrange (n : nat) : list Z := map Z.of_nat (seq 0 n).

Definition obind {A B} (o : option A) (f : A -> option B) : option B :=
  match o with
  | Some x => f x
  | None => None
  end.

Notation "x <-? c ;; k" := (obind c (fun x => k))
  (at level 61, c at next level, right associativity).

Fixpoint sequence {A} (l : list (option A)) : option (list A) :=
  match l with
  | [] => Some []
  | o :: l' => x <-? o ;; xs <-? sequence l' ;; Some (x :: xs)
  end.

Fixpoint map2 {A B C} (f : A -> B -> C) (l1 : list A) (l2 : list B) : list C :=
  match l1, l2 with
  | x :: l1', y :: l2' => f x y :: map2 f l1' l2'
  | _, _ => []
  end.

Section Kernel.

(** The element type with its addition and multiplication; nothing is
    assumed of them (no associativity, no commutativity). *)
Context {T : Type}.
Variable fzero : T.
Variables fadd fmul : T -> T -> T.

(** A read of global memory at a signed element offset. *)
Definition load (p : list T) (i : Z) : option T :=
  if i <? 0 then None else nth_error p (Z.to_nat i).

(** A staged 32x8 slab: row in [0,32), K-position in [0,8). *)
Definition slab := Z -> Z -> option T.

(** Modelled from the spec: [tile<float, 32, 8>::loader], declared in
    tiling_utils.cuh.  The loaders of a work-group are taken together:
    [staged] is the slab held by the staging registers of all its threads,
    and [loader_trans] is the flag the loader is constructed with. *)
Record loader := { loader_trans : bool; staged : slab }.

Definition new_loader (t : bool) : loader :=
  {| loader_trans := t; staged := fun _ _ => None |}.

(** Modelled from the spec: offset of slab element (r, i) from the source
    pointer, by raw origin and stride.  The slab lies 32 rows by 8 columns
    in memory, or 8 rows by 32 columns for a loader constructed with [true]
    (the kernel constructs A's loader with [trans_a] and B's with
    [!trans_b], B being K x N when not transposed). *)
Definition slab_address (t : bool) (p : prefetch_args) (r i : Z) : Z :=
  if t then (row_origin p + i) * leading_dimension p + (col_origin p + r)
  else (row_origin p + r) * leading_dimension p + (col_origin p + i).

Definition slab_in_bounds (t : bool) (src : list T) (offset : Z)
    (p : prefetch_args) : bool :=
  forallb (fun r =>
    forallb (fun i =>
      let q := offset + slab_address t p r i in
      (0 <=? q) && (q <? Z.of_nat (List.length src)))
      (zrange 8))
    (zrange 32).

(** Modelled from the spec: [prefetch] stages the addressed slab without
    bounds checking; a slab that is not inside the source buffer is
    outside its contract ([None]). *)
Definition prefetch (l : loader) (src : list T) (offset : Z)
    (p : prefetch_args) : option loader :=
  if slab_in_bounds (loader_trans l) src offset p
  then Some {| loader_trans := loader_trans l;
               staged := fun r i =>
                 load src (offset + slab_address (loader_trans l) p r i) |}
  else None.

(** Modelled from the spec: [tile<float, 32, 8>::storage], two halves each
    holding one slab; [get(buffer_index, r, i)] reads element (r, i). *)
Definition storage := Z -> slab.

Definition empty_storage : storage := fun _ _ _ => None.

(** Modelled from the spec: [commit(shared_storage, buffer_index)]
    publishes the staged slab into the named half. *)
Definition commit (l : loader) (s : storage) (buffer_index : Z) : storage :=
  fun h => if h =? buffer_index then staged l else s h.

Definition storage_get (s : storage) (buffer_index r i : Z) : option T :=
  s buffer_index r i.

(** *** [sparse_matmul_sdd_32x32x8_kernel] *)

Definition warpSize : Z := 32.

(** Arguments of the priming prefetches (lines 64-65). *)
Definition prime_args_a (trans_a : bool) (m size_m size_k : Z) : prefetch_args :=
  Build_prefetch_args (if trans_a then 0 else m)
                      (if trans_a then m else 0)
                      (if trans_a then size_m else size_k).

Definition prime_args_b (trans_b : bool) (n size_n size_k : Z) : prefetch_args :=
  Build_prefetch_args (if trans_b then n else 0)
                      (if trans_b then 0 else n)
                      (if trans_b then size_k else size_n).

(** Arguments of the prefetches inside the K loop (lines 76-77). *)
Definition loop_args_a (trans_a : bool) (m size_m size_k k : Z) : prefetch_args :=
  Build_prefetch_args (if trans_a then size_m else size_k)
                      (if trans_a then to_uint (k + 8) else m)
                      (if trans_a then m else to_uint (k + 8)).

Definition loop_args_b (trans_b : bool) (n size_n size_k k : Z) : prefetch_args :=
  Build_prefetch_args (if trans_b then size_k else size_n)
                      (if trans_b then n else to_uint (k + 8))
                      (if trans_b then to_uint (k + 8) else n).

(** One pass of the loop over [i] (lines 83-94). *)
Definition accumulate (storage_a storage_b : storage) (k lane_idx warp_idx : Z)
    (accumulator : list T) (i : Z) : option (list T) :=
  local_b <-? sequence (map (fun j =>
                storage_get storage_b (k / 8 mod 2) (warp_idx * 4 + j) i)
                (zrange 4)) ;;
  local_a <-? storage_get storage_a (k / 8 mod 2) lane_idx i ;;
  Some (map2 (fun acc bj => fadd acc (fmul local_a bj)) accumulator local_b).

Fixpoint accumulate_all (storage_a storage_b : storage) (k lane_idx warp_idx : Z)
    (accumulator : list T) (positions : list Z) : option (list T) :=
  match positions with
  | [] => Some accumulator
  | i :: rest =>
      acc <-? accumulate storage_a storage_b k lane_idx warp_idx accumulator i ;;
      accumulate_all storage_a storage_b k lane_idx warp_idx acc rest
  end.

Record thread_state := {
  loader_a : loader;
  loader_b : loader;
  storage_a : storage;
  storage_b : storage;
  accumulator : list T
}.

(** The values of the loop variable [k]: 0, 8, 16, ... below [size_k]. *)
Definition k_steps (size_k : Z) : list Z :=
  map (fun s => 8 * s) (zrange (Z.to_nat ((size_k + 7) / 8))).

Section Body.

Variables matrix_a matrix_b : list T.
Variables size_m size_n size_k : Z.
Variables trans_a trans_b : bool.
Variables m n offset_a offset_b lane_idx warp_idx : Z.

(** The body of the K loop (lines 69-94) at loop variable [k]. *)
Definition k_body (st : thread_state) (k : Z) : option thread_state :=
  let sa := commit (loader_a st) (storage_a st) (k / 8 mod 2) in
  let sb := commit (loader_b st) (storage_b st) (k / 8 mod 2) in
  (* __syncthreads() *)
  loaders <-? (if to_uint (k + 8) <? size_k
               then la <-? prefetch (loader_a st) matrix_a offset_a
                              (loop_args_a trans_a m size_m size_k k) ;;
                    lb <-? prefetch (loader_b st) matrix_b offset_b
                              (loop_args_b trans_b n size_n size_k k) ;;
                    Some (la, lb)
               else Some (loader_a st, loader_b st)) ;;
  acc <-? accumulate_all sa sb k lane_idx warp_idx (accumulator st) (zrange 8) ;;
  Some {| loader_a := fst loaders; loader_b := snd loaders;
          storage_a := sa; storage_b := sb; accumulator := acc |}.

Fixpoint k_loop (st : thread_state) (ks : list Z) : option thread_state :=
  match ks with
  | [] => Some st
  | k :: ks' => st' <-? k_body st k ;; k_loop st' ks'
  end.

End Body.

(** Element offsets into [matrix_c] written by one thread (lines 98-99). *)
Definition write_offsets (offset_c lane_idx warp_idx : Z) : list Z :=
  map (fun i => to_uint (offset_c + lane_idx * 32 + (warp_idx * 4 + i))) (zrange 4).

Definition offset_c_of (num_blocks : Z) (blockIdx : Z * Z * Z) (block : sparse_block) : Z :=
  let '(_, blockIdx_y, _) := blockIdx in
  to_uint ((blockIdx_y * num_blocks + idx block) * 32 * 32).

(** One thread of the kernel: the stores it performs into [matrix_c], as
    (element offset, value) pairs in program order.  [None] stands for a
    run that leaves the defined behaviour (a read outside the layout or a
    slab outside its buffer) or that never leaves the K loop: for
    [size_k] above 2^32 - 8 the increment of [k] wraps around. *)
Definition kernel_thread (matrix_a matrix_b : list T) (layout : layout_tensors)
    (num_blocks size_m size_n size_k : Z) (trans_a trans_b : bool)
    (blockIdx : Z * Z * Z) (threadIdx_x : Z) : option (list (Z * T)) :=
  let '(blockIdx_x, blockIdx_y, _) := blockIdx in
  let accumulator0 := [fzero; fzero; fzero; fzero] in
  let lane_idx := threadIdx_x mod warpSize in
  let warp_idx := threadIdx_x / warpSize in
  block <-? layout_get layout blockIdx_x ;;
  let m := to_uint (row block * 32) in
  let n := to_uint (col block * 32) in
  let offset_a := to_uint (blockIdx_y * size_m * size_k) in
  let offset_b := to_uint (blockIdx_y * size_k * size_n) in
  let offset_c := offset_c_of num_blocks blockIdx block in
  let loader_a0 := new_loader trans_a in
  let loader_b0 := new_loader (negb trans_b) in
  la <-? prefetch loader_a0 matrix_a offset_a (prime_args_a trans_a m size_m size_k) ;;
  lb <-? prefetch loader_b0 matrix_b offset_b (prime_args_b trans_b n size_n size_k) ;;
  if uint_modulus - 8 <? size_k then None
  else
    st <-? k_loop matrix_a matrix_b size_m size_n size_k trans_a trans_b
             m n offset_a offset_b lane_idx warp_idx
             {| loader_a := la; loader_b := lb;
                storage_a := empty_storage; storage_b := empty_storage;
                accumulator := accumulator0 |}
             (k_steps size_k) ;;
    Some (combine (write_offsets offset_c lane_idx warp_idx) (accumulator st)).

(** The offsets one thread stores to; they do not depend on the data. *)
Definition thread_write_offsets (layout : layout_tensors) (num_blocks : Z)
    (blockIdx : Z * Z * Z) (threadIdx_x : Z) : option (list Z) :=
  let '(blockIdx_x, _, _) := blockIdx in
  block <-? layout_get layout blockIdx_x ;;
  Some (write_offsets (offset_c_of num_blocks blockIdx block)
          (threadIdx_x mod warpSize) (threadIdx_x / warpSize)).

End Kernel.

(** ** Vocabulary of the statements *)

Definition recognized (md : string) : bool :=
  (String.eqb md "sdd" || String.eqb md "dsd" || String.eqb md "dds")%bool.

Definition fits_uint (z : Z) : Prop := 0 <= z < uint_modulus.

(** The kernel arguments and launch grid derived by [sparse_matmul] from
    the three letters of the selector and the operand extents. *)
Definition derived_launch (c : call) (m1 m2 : ascii) (nb a2 a1 b2 b1 : Z) : event :=
  let layout := select_layout c in
  let num_blocks := to_uint (Z.of_nat (List.length (layout_blocks layout)) / 2) in
  let sparse_width := to_uint ((Z.of_nat (List.length (layout_table layout)) - 1) * 32) in
  let size_m := if is_d m1 then to_uint (if trans_a c then a1 else a2) else sparse_width in
  let size_n := if is_d m2 then to_uint (if trans_b c then b2 else b1) else sparse_width in
  let size_k := if is_d m2 then to_uint (if trans_b c then b1 else b2)
                else to_uint (if trans_a c then a2 else a1) in
  Launch (select_kernel (mode c))
    (launch_blocks (mode c) num_blocks nb size_m size_n) THREADS
    {| arg_layout := layout; arg_num_blocks := num_blocks;
       arg_size_m := size_m; arg_size_n := size_n; arg_size_k := size_k;
       arg_trans_a := trans_a c; arg_trans_b := trans_b c |}.

Definition derived_trailing (c : call) (m0 m1 m2 : ascii) (a2 a1 b2 b1 : Z)
  : Torch.sizes :=
  let layout := select_layout c in
  let num_blocks := to_uint (Z.of_nat (List.length (layout_blocks layout)) / 2) in
  let sparse_width := to_uint ((Z.of_nat (List.length (layout_table layout)) - 1) * 32) in
  let size_m := if is_d m1 then to_uint (if trans_a c then a1 else a2) else sparse_width in
  let size_n := if is_d m2 then to_uint (if trans_b c then b2 else b1) else sparse_width in
  if is_d m0 then [size_m; size_n] else [num_blocks; 32; 32].

(** *** Sample calls *)

Definition single_block : layout_tensors :=
  {| layout_blocks := [0; 0]; layout_table := [0; 1] |}.

(** A two-character selector with a one-dimensional [a]. *)
Definition call_xd_vector : call :=
  {| a := [5]; b := [1; 32; 32]; dtype := Float; mode := "xd";
     row_layout := single_block; col_layout := single_block;
     trans_a := false; trans_b := false |}.

Definition call_of_mode (md : string) (sa sb : Torch.sizes) : call :=
  {| a := sa; b := sb; dtype := Float; mode := md;
     row_layout := single_block; col_layout := single_block;
     trans_a := false; trans_b := false |}.

(** *** The roles of the selector's letters

    [letter_roles ia ib ic]: in every call that allocates, launches and
    returns, the letter at position [ia] decides whether [size_m] is read
    from [a]'s axes (dense [a]) or from the layout table (sparse [a]), the
    letter at [ib] does the same for [size_n] and [b], and the letter at
    [ic] decides whether the output buffer is the dense
    batch x size_m x size_n or the block-sparse batch x blocks x 32 x 32. *)
Definition letter_roles (ia ib ic : nat) : Prop :=
  forall (c : call) (la lb lc : ascii) (s shape : Torch.sizes)
         (k : kernel) (blocks : Z * Z * Z) (threads : Z) (args : kernel_args),
    String.get ia (mode c) = Some la ->
    String.get ib (mode c) = Some lb ->
    String.get ic (mode c) = Some lc ->
    run (sparse_matmul c) = (Returns s, [Alloc shape; Launch k blocks threads args]) ->
    let sparse_width :=
      to_uint ((Z.of_nat (List.length (layout_table (select_layout c))) - 1) * 32) in
    Some (arg_size_m args) =
      (if is_d la
       then option_map to_uint (Torch.size (a c) (if trans_a c then -1 else -2))
       else Some sparse_width)
    /\ Some (arg_size_n args) =
       (if is_d lb
        then option_map to_uint (Torch.size (b c) (if trans_b c then -2 else -1))
        else Some sparse_width)
    /\ exists nb,
         shape = nb :: (if is_d lc then [arg_size_m args; arg_size_n args]
                        else [arg_num_blocks args; 32; 32]).

(** ** A launch as a whole *)

(** [kernel<<<blocks, threads>>>]: the kernel runs once for every block
    index of the grid and every thread index of a block. *)
Definition grid_blocks (g : Z * Z * Z) : list (Z * Z * Z) :=
  let '(gx, gy, gz) := g in
  flat_map (fun z =>
    flat_map (fun y =>
      map (fun x => (x, y, z)) (zrange (Z.to_nat gx)))
      (zrange (Z.to_nat gy)))
    (zrange (Z.to_nat gz)).

(** All element offsets of [matrix_c] stored to during a launch, one entry
    per store. *)
Definition launch_write_offsets (layout : layout_tensors) (num_blocks : Z)
    (g : Z * Z * Z) (threads : Z) : option (list Z) :=
  option_map (@List.concat Z)
    (sequence
       (flat_map (fun blockIdx =>
          map (fun t => thread_write_offsets layout num_blocks blockIdx t)
              (zrange (Z.to_nat threads)))
          (grid_blocks g))).

(** ** The reference product

    The product the specification compares against: element (r, c) of
    A (rows x size_k, row-major, starting at [offset_a]) times
    B (size_k x size_n, row-major, starting at [offset_b]), summed in
    ascending K order into a running total that starts at zero. *)
Definition reference_element {T : Type} (fzero : T) (fadd fmul : T -> T -> T)
    (A B : list T) (offset_a offset_b size_k size_n r c : Z) : option T :=
  fold_left (fun acc k =>
               s <-? acc ;;
               x <-? load A (offset_a + (r * size_k + k)) ;;
               y <-? load B (offset_b + (k * size_n + c)) ;;
               Some (fadd s (fmul x y)))
            (zrange (Z.to_nat size_k)) (Some fzero).

(** ** Single precision

    IEEE 754 binary32 (24-bit significand, maximal exponent 128) with
    round-to-nearest-even, as given by the standard library's [SpecFloat]. *)
Definition f32 : Type := spec_float.
Definition f32_zero : f32 := S754_zero false.
Definition f32_one : f32 := S754_finite false 8388608 (-23).
Definition f32_add : f32 -> f32 -> f32 := SFadd 24 128.
Definition f32_mul : f32 -> f32 -> f32 := SFmul 24 128.

Definition kernel_thread_f32 := @kernel_thread f32 f32_zero f32_add f32_mul.
Definition reference_element_f32 := @reference_element f32 f32_zero f32_add f32_mul.

(** *** Sample data *)

(** A matrix of [n] elements that is 1 at flat position [p], 0 elsewhere. *)
Definition unit_at (n : nat) (p : Z) : list f32 :=
  map (fun i => if i =? p then f32_one else f32_zero) (zrange n).

Definition all_ones (n : nat) : list f32 := map (fun _ => f32_one) (zrange n).

(** The 32x32 blocks of a dense [rows] x [cols] matrix, in row-major block
    order, each block row-major: the storage of a fully dense block-sparse
    operand. *)
Definition to_blocks {T} (d : T) (dense : list T) (rows cols : Z) : list T :=
  map (fun q =>
         let blk := q / 1024 in
         let r := q mod 1024 / 32 in
         let c := q mod 32 in
         let block_row := blk / (cols / 32) in
         let block_col := blk mod (cols / 32) in
         nth (Z.to_nat ((block_row * 32 + r) * cols + (block_col * 32 + c))) dense d)
      (zrange (Z.to_nat (rows * cols))).

(** Row- and column-ordered layouts of a fully dense 1 x 2 grid of tiles. *)
Definition dense_1x2_rows : layout_tensors :=
  {| layout_blocks := [0; 0; 0; 1]; layout_table := [0; 2] |}.
Definition dense_1x2_cols : layout_tensors :=
  {| layout_blocks := [0; 0; 0; 1]; layout_table := [0; 1; 2] |}.

(** DSD on a fully dense layout: A is 32 x 64 (two blocks), B is 64 x 32. *)
Definition call_dsd_dense : call :=
  {| a := [1; 2; 32; 32]; b := [1; 64; 32]; dtype := Float; mode := "dsd";
     row_layout := dense_1x2_rows; col_layout := dense_1x2_cols;
     trans_a := false; trans_b := false |}.

(** DSD whose dense output is two tiles wide: A is one 32 x 32 block,
    B is 32 x 64. *)
Definition call_dsd_wide : call :=
  {| a := [1; 1; 32; 32]; b := [1; 32; 64]; dtype := Float; mode := "dsd";
     row_layout := single_block; col_layout := single_block;
     trans_a := false; trans_b := false |}.

(** ** Coverage of the output buffer

    [stores layout num_blocks blockIdx t j p]: the [j]-th store of thread
    [t] of work-group [blockIdx] goes to element offset [p] of [matrix_c]. *)
Definition in_grid (g blockIdx : Z * Z * Z) : Prop :=
  let '(gx, gy, gz) := g in
  let '(x, y, z) := blockIdx in
  0 <= x < gx /\ 0 <= y < gy /\ 0 <= z < gz.

Definition stores (layout : layout_tensors) (num_blocks : Z)
    (blockIdx : Z * Z * Z) (t : Z) (j : nat) (p : Z) : Prop :=
  exists ws, thread_write_offsets layout num_blocks blockIdx t = Some ws
             /\ nth_error ws j = Some p.

(** A launch covers a buffer of [n] elements exactly: every store lands
    inside the buffer and every element is the target of exactly one store
    of one thread of one work-group. *)
Definition exact_cover (layout : layout_tensors) (num_blocks : Z)
    (g : Z * Z * Z) (threads n : Z) : Prop :=
  (forall blockIdx t j p,
      in_grid g blockIdx -> 0 <= t < threads ->
      stores layout num_blocks blockIdx t j p -> 0 <= p < n)
  /\ (forall p, 0 <= p < n ->
        exists blockIdx t j,
          in_grid g blockIdx /\ 0 <= t < threads
          /\ stores layout num_blocks blockIdx t j p
          /\ forall blockIdx' t' j',
               in_grid g blockIdx' -> 0 <= t' < threads ->
               stores layout num_blocks blockIdx' t' j' p ->
               blockIdx' = blockIdx /\ t' = t /\ j' = j).

(** ** Further vocabulary *)

(** Eight products, taken at positions 0..7 and added one after the other
    to a total that starts at zero; [xa i] and [xb i] are the element
    offsets read at position [i]. *)
Definition eight_term_sum {T : Type} (fzero : T) (fadd fmul : T -> T -> T)
    (A B : list T) (xa xb : Z -> Z) : option T :=
  fold_left (fun acc i =>
               s <-? acc ;;
               x <-? load A (xa i) ;;
               y <-? load B (xb i) ;;
               Some (fadd s (fmul x y)))
            (zrange 8) (Some fzero).

(** Offset of element (r, k) of op(A) and of element (k, c) of op(B) inside
    one batch: A is stored size_m x size_k, or size_k x size_m when
    transposed; B is stored size_k x size_n, or size_n x size_k when
    transposed. *)
Definition element_a (trans_a : bool) (size_m size_k r k : Z) : Z :=
  if trans_a then k * size_m + r else r * size_k + k.

Definition element_b (trans_b : bool) (size_k size_n k c : Z) : Z :=
  if trans_b then c * size_k + k else k * size_n + c.

(** What a K loop leaves in the registers of a thread: its accumulator and
    the slabs staged by the two loaders. *)
Definition registers {T : Type} (st : @thread_state T)
  : list T * @loader T * @loader T :=
  (accumulator st, loader_a st, loader_b st).

(** The same call on tensors of another element type. *)
Definition set_dtype (c : call) (t : scalar_type) : call :=
  {| a := a c; b := b c; dtype := t; mode := mode c;
     row_layout := row_layout c; col_layout := col_layout c;
     trans_a := trans_a c; trans_b := trans_b c |}.

(** The host operation that belongs to a mode. *)
Definition host_op_of_mode (md : string) : option host_op :=
  if String.eqb md "sdd" then Some batched_sparse_matmul_op_32x32_sdd
  else if String.eqb md "dsd" then Some batched_sparse_matmul_op_32x32_dsd
  else if String.eqb md "dds" then Some batched_sparse_matmul_op_32x32_dds
  else None.

(** The kernel launch of [sparse_matmul] and the host operation of
    [batched_sparse_matmul_op] are handed the same problem: layout, block
    count, extents and transposition flags. *)
Definition same_problem (ka : kernel_args) (oa : host_op_args) : Prop :=
  op_blocks oa = layout_blocks (arg_layout ka)
  /\ (forall t, op_table oa = Some t -> t = layout_table (arg_layout ka))
  /\ op_total_blocks oa = arg_num_blocks ka
  /\ op_total_m oa = arg_size_m ka
  /\ op_total_n oa = arg_size_n ka
  /\ op_total_k oa = arg_size_k ka
  /\ op_trans_a oa = arg_trans_a ka
  /\ op_trans_b oa = arg_trans_b ka.

(** *** More sample inputs *)

Definition block_0_0 : sparse_block := {| row := 0; col := 0; idx := 0 |}.

(** A layout whose block list and table are both empty tensors. *)
Definition empty_layout : layout_tensors :=
  {| layout_blocks := []; layout_table := [] |}.

Definition call_dsd_empty_table : call :=
  {| a := [1; 1; 32; 32]; b := [1; 32; 32]; dtype := Float; mode := "dsd";
     row_layout := empty_layout; col_layout := empty_layout;
     trans_a := false; trans_b := false |}.

(** Two thread states with the same registers and different contents of
    shared storage. *)
Definition ones_loader (t : bool) : @loader f32 :=
  {| loader_trans := t; staged := fun _ _ => Some f32_one |}.

Definition state_clean : @thread_state f32 :=
  {| loader_a := ones_loader false; loader_b := ones_loader true;
     storage_a := empty_storage; storage_b := empty_storage;
     accumulator := [f32_zero; f32_zero; f32_zero; f32_zero] |}.

Definition state_stale : @thread_state f32 :=
  {| loader_a := ones_loader false; loader_b := ones_loader true;
     storage_a := fun _ _ _ => Some f32_zero; storage_b := fun _ _ _ => Some f32_zero;
     accumulator := [f32_zero; f32_zero; f32_zero; f32_zero] |}.

(** * The dispatchers on arbitrary tensor arguments

    [sparse_matmul] and [batched_sparse_matmul_op] above describe the
    dispatchers on calls whose two operands share one element type and
    whose layout tensors are one-dimensional, with 16-bit block lists and
    32-bit tables.  The definitions of this module drop these assumptions:
    every tensor argument carries its own extents and element type, and
    the reads and pointer accesses of the source that depend on them are
    written out.  [plain] embeds the calls above; the two descriptions are
    proved to agree on them ([plain_sparse_matmul],
    [plain_batched_sparse_matmul_op]). *)
Module General.

(** Element types of a layout tensor: [data_ptr<short>()] wants 16-bit
    and [data_ptr<int>()] 32-bit integers. *)
Inductive index_type := Short | Int | OtherIndexType.

(** What the dispatchers read of an operand: [sizes()] and
    [scalar_type()]. *)
Record operand := {
  extents : Torch.sizes;
  element_type : scalar_type
}.

Record index_tensor := {
  index_extents : Torch.sizes;
  index_element_type : index_type;
  entries : list Z
}.

(** [layout_tensors]: the [std::tuple] of a block-list tensor and a table
    tensor. *)
Record tensor_pair := {
  block_list : index_tensor;    (* std::get<0> *)
  block_table : index_tensor    (* std::get<1> *)
}.

Record call := {
  a : operand;
  b : operand;
  mode : string;
  row_layout : tensor_pair;
  col_layout : tensor_pair;
  trans_a : bool;
  trans_b : bool
}.

(** [t.new_empty(shape)]: a negative extent is rejected. *)
Definition new_empty (shape : Torch.sizes) : M Torch.sizes :=
  if forallb (fun e => 0 <=? e) shape
  then emit (Alloc shape) ;;; ret shape
  else throw SizeError.

(** [t.data_ptr<short>()] and [t.data_ptr<int>()] *)
Definition data_ptr_short (t : index_type) : M unit :=
  match t with
  | Short => ret tt
  | _ => throw TypeError
  end.

Definition data_ptr_int (t : index_type) : M unit :=
  match t with
  | Int => ret tt
  | _ => throw TypeError
  end.

(** Modelled from the spec: the kernel's [sparse_layout] argument is built
    from the tuple by a conversion declared in layout_utils.cuh, which is
    not among the sources; the layout arrays are plain integer buffers and
    the kernel sees their entries. *)
Definition to_sparse_layout (l : tensor_pair) : layout_tensors :=
  {| layout_blocks := entries (block_list l);
     layout_table := entries (block_table l) |}.

Definition select_layout (c : call) : tensor_pair :=
  if (String.eqb (mode c) "sdd"
      || (String.eqb (mode c) "dsd" && negb (trans_a c))
      || (String.eqb (mode c) "dds" && trans_b c))%bool
  then row_layout c else col_layout c.

(** [sparse_matmul] (src/native/sparse_matmul_gpu.cu, lines 103-157).
    [size(0)] is a signed 64-bit extent; it is divided (line 112) or
    decremented and scaled (line 113) before the conversion to [uint].
    Inside the dispatch macro [T] is [float]: the three [data_ptr<T>()]
    calls of line 149 are evaluated before the launch, in an order the
    language leaves open; [c] has the element type of [a]. *)
Definition sparse_matmul (c : call) : M Torch.sizes :=
  let layout := select_layout c in
  n0 <- size (index_extents (block_list layout)) 0 ;;
  let num_blocks := to_uint (Z.quot n0 2) in
  n1 <- size (index_extents (block_table layout)) 0 ;;
  let sparse_width := to_uint ((n1 - 1) * 32) in
  m1 <- string_at (mode c) 1 ;;
  size_m <- (if is_d m1
             then x <- size (extents (a c)) (if trans_a c then -1 else -2) ;;
                  ret (to_uint x)
             else ret sparse_width) ;;
  m2 <- string_at (mode c) 2 ;;
  size_n <- (if is_d m2
             then x <- size (extents (b c)) (if trans_b c then -2 else -1) ;;
                  ret (to_uint x)
             else ret sparse_width) ;;
  m2 <- string_at (mode c) 2 ;;
  size_k <- (if is_d m2
             then x <- size (extents (b c)) (if trans_b c then -1 else -2) ;;
                  ret (to_uint x)
             else x <- size (extents (a c)) (if trans_a c then -2 else -1) ;;
                  ret (to_uint x)) ;;
  m1 <- string_at (mode c) 1 ;;
  let dense := if is_d m1 then extents (a c) else extents (b c) in
  shape <- or_throw SliceError (Torch.slice dense 0 (Torch.dim dense - 2)) ;;
  m0 <- string_at (mode c) 0 ;;
  let shape := if is_d m0 then shape ++ [size_m; size_n]
               else shape ++ [num_blocks; 32; 32] in
  m1 <- string_at (mode c) 1 ;;
  a' <- flatten (extents (a c)) 0 (if is_d m1 then -3 else -4) ;;
  m2 <- string_at (mode c) 2 ;;
  b' <- flatten (extents (b c)) 0 (if is_d m2 then -3 else -4) ;;
  nb <- size a' 0 ;;
  let num_batches := to_uint nb in
  m0 <- string_at (mode c) 0 ;;
  c' <- (if is_d m0 then new_empty [num_batches; size_m; size_n]
         else new_empty [num_batches; num_blocks; 32; 32]) ;;
  let blocks := launch_blocks (mode c) num_blocks num_batches size_m size_n in
  dispatch_kernel_with_type (element_type (a c))
    (let k := select_kernel (mode c) in
     data_ptr_float (element_type (a c)) ;;;
     data_ptr_float (element_type (b c)) ;;;
     data_ptr_float (element_type (a c)) ;;;
     emit (Launch k blocks THREADS
             {| arg_layout := to_sparse_layout layout; arg_num_blocks := num_blocks;
                arg_size_m := size_m; arg_size_n := size_n; arg_size_k := size_k;
                arg_trans_a := trans_a c; arg_trans_b := trans_b c |})) ;;;
  reshape c' shape.

(** [batched_sparse_matmul_op] (src/unnamed/part_000).  All extents are
    signed 64-bit values; the pointer accesses of the host operation's
    argument list are evaluated before the operation is entered. *)
Definition batched_sparse_matmul_op (c : call) : M Torch.sizes :=
  let row_blocks := block_list (row_layout c) in
  let row_table := block_table (row_layout c) in
  let col_blocks := block_list (col_layout c) in
  let col_table := block_table (col_layout c) in
  if String.eqb (mode c) "sdd" then
    let output_shape := extents (a c) in
    output_shape <- pop_back output_shape ;;
    output_shape <- pop_back output_shape ;;
    n <- size (index_extents row_blocks) 0 ;;
    let output_shape := push_back output_shape (Z.quot n 2) in
    let output_shape := push_back output_shape TILE_32x32_WIDTH in
    let output_shape := push_back output_shape TILE_32x32_WIDTH in
    a' <- flatten (extents (a c)) 0 (-3) ;;
    b' <- flatten (extents (b c)) 0 (-3) ;;
    total_batches <- size a' 0 ;;
    n <- size (index_extents row_blocks) 0 ;;
    let total_blocks := Z.quot n 2 in
    total_m <- size a' (if trans_a c then -1 else -2) ;;
    total_n <- size b' (if trans_b c then -2 else -1) ;;
    total_k <- size b' (if trans_b c then -1 else -2) ;;
    c' <- new_empty [total_batches; total_blocks; TILE_32x32_WIDTH; TILE_32x32_WIDTH] ;;
    data_ptr_float (element_type (a c)) ;;;
    data_ptr_float (element_type (b c)) ;;;
    data_ptr_float (element_type (a c)) ;;;
    data_ptr_short (index_element_type row_blocks) ;;;
    emit (CallOp batched_sparse_matmul_op_32x32_sdd
            {| op_blocks := entries row_blocks; op_table := None;
               op_total_blocks := total_blocks; op_total_batches := total_batches;
               op_total_m := total_m; op_total_n := total_n; op_total_k := total_k;
               op_trans_a := trans_a c; op_trans_b := trans_b c |}) ;;;
    reshape c' output_shape
  else if String.eqb (mode c) "dsd" then
    let sparse_blocks := if trans_a c then col_blocks else row_blocks in
    let sparse_table := if trans_a c then col_table else row_table in
    n <- size (index_extents sparse_table) 0 ;;
    let total_m := (n - 1) * TILE_32x32_WIDTH in
    total_n <- size (extents (b c)) (if trans_b c then -2 else -1) ;;
    total_k <- size (extents (b c)) (if trans_b c then -1 else -2) ;;
    let output_shape := extents (b c) in
    output_shape <- pop_back output_shape ;;
    output_shape <- pop_back output_shape ;;
    let output_shape := push_back output_shape total_m in
    let output_shape := push_back output_shape total_n in
    a' <- flatten (extents (a c)) 0 (-4) ;;
    b' <- flatten (extents (b c)) 0 (-3) ;;
    total_batches <- size a' 0 ;;
    n <- size (index_extents sparse_blocks) 0 ;;
    let total_blocks := Z.quot n 2 in
    c' <- new_empty [total_batches; total_m; total_n] ;;
    data_ptr_float (element_type (a c)) ;;;
    data_ptr_float (element_type (b c)) ;;;
    data_ptr_float (element_type (a c)) ;;;
    data_ptr_short (index_element_type sparse_blocks) ;;;
    data_ptr_int (index_element_type sparse_table) ;;;
    emit (CallOp batched_sparse_matmul_op_32x32_dsd
            {| op_blocks := entries sparse_blocks;
               op_table := Some (entries sparse_table);
               op_total_blocks := total_blocks; op_total_batches := total_batches;
               op_total_m := total_m; op_total_n := total_n; op_total_k := total_k;
               op_trans_a := trans_a c; op_trans_b := trans_b c |}) ;;;
    reshape c' output_shape
  else if String.eqb (mode c) "dds" then
    let sparse_blocks := if trans_b c then row_blocks else col_blocks in
    let sparse_table := if trans_b c then row_table else col_table in
    total_m <- size (extents (a c)) (if trans_a c then -1 else -2) ;;
    n <- size (index_extents sparse_table) 0 ;;
    let total_n := (n - 1) * TILE_32x32_WIDTH in
    total_k <- size (extents (a c)) (if trans_a c then -2 else -1) ;;
    let output_shape := extents (a c) in
    output_shape <- pop_back output_shape ;;
    output_shape <- pop_back output_shape ;;
    let output_shape := push_back output_shape total_m in
    let output_shape := push_back output_shape total_n in
    a' <- flatten (extents (a c)) 0 (-3) ;;
    b' <- flatten (extents (b c)) 0 (-4) ;;
    total_batches <- size a' 0 ;;
    n <- size (index_extents sparse_blocks) 0 ;;
    let total_blocks := Z.quot n 2 in
    c' <- new_empty [total_batches; total_m; total_n] ;;
    data_ptr_float (element_type (a c)) ;;;
    data_ptr_float (element_type (b c)) ;;;
    data_ptr_float (element_type (a c)) ;;;
    data_ptr_short (index_element_type sparse_blocks) ;;;
    data_ptr_int (index_element_type sparse_table) ;;;
    emit (CallOp batched_sparse_matmul_op_32x32_dds
            {| op_blocks := entries sparse_blocks;
               op_table := Some (entries sparse_table);
               op_total_blocks := total_blocks; op_total_batches := total_batches;
               op_total_m := total_m; op_total_n := total_n; op_total_k := total_k;
               op_trans_a := trans_a c; op_trans_b := trans_b c |}) ;;;
    reshape c' output_shape
  else
    (* control reaches the end of the function without a return statement *)
    undefined.

(** *** Vocabulary *)

Definition rank (s : Torch.sizes) : nat := List.length s.

(** Every read that [sparse_matmul] makes before it allocates succeeds:
    the two tensors of the selected layout have a first dimension, the
    selector has three characters, and each operand has the three
    dimensions of a dense operand (its letter is [d]) or the four of a
    block-sparse one. *)
Definition reads_succeed (c : call) : Prop :=
  (1 <= rank (index_extents (block_list (select_layout c))))%nat
  /\ (1 <= rank (index_extents (block_table (select_layout c))))%nat
  /\ exists m0 m1 m2,
       String.get 0 (mode c) = Some m0
       /\ String.get 1 (mode c) = Some m1
       /\ String.get 2 (mode c) = Some m2
       /\ ((if is_d m1 then 3 else 4) <= rank (extents (a c)))%nat
       /\ ((if is_d m2 then 3 else 4) <= rank (extents (b c)))%nat.

(** A tensor read fails before the character read that a selector of
    fewer than three characters cannot serve: a tensor of the selected
    layout has no dimensions (lines 112-113), or the selector is two
    characters long with second letter [d] and [a] lacks the dimension
    read on line 116. *)
Definition read_fails_first (c : call) : Prop :=
  rank (index_extents (block_list (select_layout c))) = 0%nat
  \/ rank (index_extents (block_table (select_layout c))) = 0%nat
  \/ (exists c0, mode c = String c0 (String "d"%char EmptyString))
     /\ (rank (extents (a c)) < (if trans_a c then 1 else 2))%nat.

(** The layout tensors whose pointers the host operation of the mode is
    handed: the block list, and in DSD and DDS mode the table. *)
Definition host_layout (c : call) : tensor_pair :=
  if String.eqb (mode c) "sdd" then row_layout c
  else if String.eqb (mode c) "dsd"
       then (if trans_a c then col_layout c else row_layout c)
       else (if trans_b c then row_layout c else col_layout c).

(** The element types the pointer accesses of the host dispatcher expect. *)
Definition host_types_expected (c : call) : Prop :=
  element_type (a c) = Float
  /\ element_type (b c) = Float
  /\ index_element_type (block_list (host_layout c)) = Short
  /\ (mode c <> "sdd"%string ->
      index_element_type (block_table (host_layout c)) = Int).

End General.

(** A one-dimensional integer tensor holding [l]. *)
Definition vector (t : General.index_type) (l : list Z) : General.index_tensor :=
  {| General.index_extents := [Z.of_nat (List.length l)];
     General.index_element_type := t;
     General.entries := l |}.

Definition plain_layout (l : layout_tensors) : General.tensor_pair :=
  {| General.block_list := vector General.Short (layout_blocks l);
     General.block_table := vector General.Int (layout_table l) |}.

(** The calls of the first part among the general ones: both operands of
    the call's element type, one-dimensional layout tensors of the
    expected integer types. *)
Definition plain (c : call) : General.call :=
  {| General.a := {| General.extents := a c; General.element_type := dtype c |};
     General.b := {| General.extents := b c; General.element_type := dtype c |};
     General.mode := mode c;
     General.row_layout := plain_layout (row_layout c);
     General.col_layout := plain_layout (col_layout c);
     General.trans_a := trans_a c;
     General.trans_b := trans_b c |}.

(** *** Sample calls with a tensor out of the ordinary *)

(** The same call with a [b] of another element type. *)
Definition with_b_type (c : General.call) (t : scalar_type) : General.call :=
  {| General.a := General.a c;
     General.b := {| General.extents := General.extents (General.b c);
                     General.element_type := t |};
     General.mode := General.mode c;
     General.row_layout := General.row_layout c;
     General.col_layout := General.col_layout c;
     General.trans_a := General.trans_a c;
     General.trans_b := General.trans_b c |}.

(** A zero-dimensional integer tensor. *)
Definition scalar_tensor (t : General.index_type) (x : Z) : General.index_tensor :=
  {| General.index_extents := [];
     General.index_element_type := t;
     General.entries := [x] |}.

(** The same call with layouts whose block lists are zero-dimensional. *)
Definition with_scalar_block_lists (c : General.call) : General.call :=
  {| General.a := General.a c;
     General.b := General.b c;
     General.mode := General.mode c;
     General.row_layout :=
       {| General.block_list := scalar_tensor General.Short 0;
          General.block_table := General.block_table (General.row_layout c) |};
     General.col_layout :=
       {| General.block_list := scalar_tensor General.Short 0;
          General.block_table := General.block_table (General.col_layout c) |};
     General.trans_a := General.trans_a c;
     General.trans_b := General.trans_b c |}.

(** ** The stores of a launch

    [kernel_stores A B args blockIdx t j p]: thread [t] of work-group
    [blockIdx], run on the operand buffers [A] and [B] with the launch
    arguments [args], completes, and its [j]-th store goes to element
    offset [p] of [matrix_c]. *)
Section LaunchStores.

Context {T : Type}.
Variable fzero : T.
Variables fadd fmul : T -> T -> T.

Definition kernel_run (A B : list T) (args : kernel_args)
    (blockIdx : Z * Z * Z) (t : Z) : option (list (Z * T)) :=
  kernel_thread fzero fadd fmul A B (arg_layout args) (arg_num_blocks args)
    (arg_size_m args) (arg_size_n args) (arg_size_k args)
    (arg_trans_a args) (arg_trans_b args) blockIdx t.

Definition kernel_stores (A B : list T) (args : kernel_args)
    (blockIdx : Z * Z * Z) (t : Z) (j : nat) (p : Z) : Prop :=
  exists ws v, kernel_run A B args blockIdx t = Some ws
               /\ nth_error ws j = Some (p, v).

(** Every thread of the launch completes. *)
Definition launch_completes (A B : list T) (args : kernel_args)
    (g : Z * Z * Z) (threads : Z) : Prop :=
  forall blockIdx t,
    in_grid g blockIdx -> 0 <= t < threads ->
    kernel_run A B args blockIdx t <> None.

(** The blocks of the grid are in the layout and the two slabs of their
    priming prefetch (lines 64-65) lie inside the operand buffers. *)
Definition slabs_inside (A B : list T) (args : kernel_args) (g : Z * Z * Z) : Prop :=
  forall x y z,
    in_grid g (x, y, z) ->
    exists blk,
      layout_get (arg_layout args) x = Some blk
      /\ slab_in_bounds (arg_trans_a args) A
           (to_uint (y * arg_size_m args * arg_size_k args))
           (prime_args_a (arg_trans_a args) (to_uint (row blk * 32))
              (arg_size_m args) (arg_size_k args)) = true
      /\ slab_in_bounds (negb (arg_trans_b args)) B
           (to_uint (y * arg_size_k args * arg_size_n args))
           (prime_args_b (arg_trans_b args) (to_uint (col blk * 32))
              (arg_size_n args) (arg_size_k args)) = true.

(** The stores of the launch partition a buffer of [n] elements: every
    store lands inside the buffer and every element is stored to by
    exactly one store of one thread of one work-group. *)
Definition launch_partitions (A B : list T) (args : kernel_args)
    (g : Z * Z * Z) (threads n : Z) : Prop :=
  (forall blockIdx t j p,
      in_grid g blockIdx -> 0 <= t < threads ->
      kernel_stores A B args blockIdx t j p -> 0 <= p < n)
  /\ (forall p, 0 <= p < n ->
        exists blockIdx t j,
          in_grid g blockIdx /\ 0 <= t < threads
          /\ kernel_stores A B args blockIdx t j p
          /\ forall blockIdx' t' j',
               in_grid g blockIdx' -> 0 <= t' < threads ->
               kernel_stores A B args blockIdx' t' j' p ->
               blockIdx' = blockIdx /\ t' = t /\ j' = j).

End LaunchStores.

(** * Properties *)

(** ** Shape operations *)

Module TorchFacts.
Import Torch.

Lemma dim_app (s t : sizes) : dim (s ++ t) = dim s + dim t.
Proof. unfold dim. rewrite length_app. lia. Qed.

Lemma dim_nonneg (s : sizes) : 0 <= dim s.
Proof. unfold dim. lia. Qed.

Lemma numel_app (s t : sizes) : numel (s ++ t) = numel s * numel t.
Proof.
  unfold numel. induction s as [|x s IH]; simpl.
  - destruct (fold_right Z.mul 1 t); reflexivity.
  - rewrite IH. ring.
Qed.

Lemma numel_cons (x : Z) (s : sizes) : numel (x :: s) = x * numel s.
Proof. reflexivity. Qed.

(** Reading an extent counted from the end of [pre ++ post]. *)
Lemma size_from_end (pre post : sizes) (d : Z) (k : nat) :
  d = - Z.of_nat (List.length post) + Z.of_nat k ->
  (k < List.length post)%nat ->
  size (pre ++ post) d = nth_error post k.
Proof.
  intros -> Hk. unfold size, maybe_wrap_dim. rewrite dim_app. unfold dim.
  replace (- (Z.of_nat (List.length pre) + Z.of_nat (List.length post)) <=?
           - Z.of_nat (List.length post) + Z.of_nat k) with true
    by (symmetry; apply Z.leb_le; lia).
  replace (- Z.of_nat (List.length post) + Z.of_nat k <?
           Z.of_nat (List.length pre) + Z.of_nat (List.length post)) with true
    by (symmetry; apply Z.ltb_lt; lia).
  replace (- Z.of_nat (List.length post) + Z.of_nat k <? 0) with true
    by (symmetry; apply Z.ltb_lt; lia).
  cbn [andb].
  replace (Z.to_nat (- Z.of_nat (List.length post) + Z.of_nat k +
                     (Z.of_nat (List.length pre) + Z.of_nat (List.length post))))
    with (List.length pre + k)%nat by lia.
  rewrite nth_error_app2 by lia. f_equal. lia.
Qed.

Lemma size_0 (x : Z) (s : sizes) : size (x :: s) 0 = Some x.
Proof.
  unfold size, maybe_wrap_dim, dim. cbn [List.length].
  replace (- Z.of_nat (S (List.length s)) <=? 0) with true
    by (symmetry; apply Z.leb_le; lia).
  replace (0 <? Z.of_nat (S (List.length s))) with true
    by (symmetry; apply Z.ltb_lt; lia).
  reflexivity.
Qed.

(** A dimension index below [-rank] is rejected. *)
Lemma size_short (s : sizes) (d : Z) : d < - dim s -> size s d = None.
Proof.
  intros H. unfold size, maybe_wrap_dim.
  replace (- dim s <=? d) with false by (symmetry; apply Z.leb_gt; lia).
  reflexivity.
Qed.

(** The recorded leading-dimension shape: all but the trailing two. *)
Lemma slice_batch (pre : sizes) (r c : Z) :
  slice (pre ++ [r; c]) 0 (dim (pre ++ [r; c]) - 2) = Some pre.
Proof.
  unfold slice. rewrite dim_app. unfold dim. cbn [List.length].
  replace (0 <=? 0) with true by reflexivity.
  replace (0 <=? Z.of_nat (List.length pre) + Z.of_nat 2 - 2) with true
    by (symmetry; apply Z.leb_le; lia).
  replace (0 + (Z.of_nat (List.length pre) + Z.of_nat 2 - 2) <=?
           Z.of_nat (List.length pre) + Z.of_nat 2) with true
    by (symmetry; apply Z.leb_le; lia).
  cbn [andb Z.to_nat skipn].
  replace (Z.to_nat (Z.of_nat (List.length pre) + Z.of_nat 2 - 2))
    with (List.length pre + 0)%nat by lia.
  rewrite firstn_app_2. cbn [firstn]. now rewrite app_nil_r.
Qed.

Lemma slice_short (s : sizes) : dim s < 2 -> slice s 0 (dim s - 2) = None.
Proof.
  intros H. unfold slice.
  replace (0 <=? dim s - 2) with false by (symmetry; apply Z.leb_gt; lia).
  rewrite andb_false_r. reflexivity.
Qed.

(** Merging the leading dimensions [pre] of [pre ++ post] into one. *)
Lemma flatten_batch (pre post : sizes) (e : Z) :
  pre <> [] ->
  e = - Z.of_nat (List.length post) - 1 ->
  flatten (pre ++ post) 0 e = Some (numel pre :: post).
Proof.
  intros Hpre ->. unfold flatten.
  assert (Hlen : (0 < List.length pre)%nat)
    by (destruct pre; [congruence | cbn; lia]).
  rewrite dim_app. unfold dim.
  set (p := Z.of_nat (List.length pre)) in *.
  set (q := Z.of_nat (List.length post)) in *.
  assert (Hp : 0 < p) by (unfold p; lia).
  assert (Hq : 0 <= q) by (unfold q; lia).
  replace (p + q <=? 0) with false by (symmetry; apply Z.leb_gt; lia).
  unfold maybe_wrap_dim.
  replace (- (p + q) <=? 0) with true by (symmetry; apply Z.leb_le; lia).
  replace (0 <? p + q) with true by (symmetry; apply Z.ltb_lt; lia).
  replace (- (p + q) <=? - q - 1) with true by (symmetry; apply Z.leb_le; lia).
  replace (- q - 1 <? p + q) with true by (symmetry; apply Z.ltb_lt; lia).
  replace (- q - 1 <? 0) with true by (symmetry; apply Z.ltb_lt; lia).
  cbn [andb]. replace (0 <? 0) with false by reflexivity.
  replace (- q - 1 + (p + q) <? 0) with false by (symmetry; apply Z.ltb_ge; lia).
  replace (p + q =? 0) with false by (symmetry; apply Z.eqb_neq; lia).
  cbn [Z.to_nat firstn skipn app].
  replace (Z.to_nat (- q - 1 + (p + q) - 0 + 1)) with (List.length pre + 0)%nat
    by (unfold p; lia).
  replace (Z.to_nat (- q - 1 + (p + q) + 1)) with (List.length pre + 0)%nat
    by (unfold p; lia).
  rewrite firstn_app_2, skipn_app.
  rewrite Nat.add_0_r, skipn_all, Nat.sub_diag. cbn [firstn skipn app].
  now rewrite app_nil_r.
Qed.

(** A tensor with fewer than [-e] dimensions cannot be flattened up to
    dimension [e]. *)
Lemma flatten_short (s : sizes) (e : Z) :
  e < -1 -> dim s < - e -> flatten s 0 e = None.
Proof.
  intros He Hs. unfold flatten.
  pose proof (dim_nonneg s) as Hd.
  destruct (dim s <=? 0) eqn:E; unfold maybe_wrap_dim.
  - cbn [Z.opp].
    replace (-1 <=? e) with false by (symmetry; apply Z.leb_gt; lia).
    reflexivity.
  - apply Z.leb_gt in E.
    replace (- dim s <=? e) with false by (symmetry; apply Z.leb_gt; lia).
    cbn [andb].
    destruct ((- dim s <=? 0) && (0 <? dim s)); reflexivity.
Qed.

Lemma reshape_same_numel (s shape : sizes) :
  numel s = numel shape -> reshape s shape = Some shape.
Proof. intros H. unfold reshape. rewrite H, Z.eqb_refl. reflexivity. Qed.

Lemma reshape_other_numel (s shape : sizes) :
  numel s <> numel shape -> reshape s shape = None.
Proof.
  intros H. unfold reshape.
  destruct (numel s =? numel shape) eqn:E; [|reflexivity].
  apply Z.eqb_eq in E. contradiction.
Qed.

End TorchFacts.

(** ** The dispatcher [sparse_matmul] *)

Ltac unfold_monad :=
  cbv beta iota delta [run bind ret throw undefined or_throw string_at size
                       flatten reshape new_empty emit dispatch_kernel_with_type
                       data_ptr_float pop_back push_back].

Lemma size_last (pre : Torch.sizes) (r c : Z) :
  Torch.size (pre ++ [r; c]) (-1) = Some c.
Proof.
  rewrite (TorchFacts.size_from_end pre [r; c] (-1) 1); [reflexivity | reflexivity | cbn; lia].
Qed.

Lemma size_before_last (pre : Torch.sizes) (r c : Z) :
  Torch.size (pre ++ [r; c]) (-2) = Some r.
Proof.
  rewrite (TorchFacts.size_from_end pre [r; c] (-2) 0); [reflexivity | reflexivity | cbn; lia].
Qed.

(** Symbolic run of [sparse_matmul] on operands with enough dimensions:
    [a] is [pa ++ xa ++ [a2; a1]] with at least one leading dimension [pa]
    and one more dimension [xa] exactly when the second letter is not [d];
    likewise [b] with the third letter. *)
Lemma sparse_matmul_run (c : call) (m0 m1 m2 : ascii)
    (pa xa pb xb : Torch.sizes) (a2 a1 b2 b1 : Z) :
  String.get 0 (mode c) = Some m0 ->
  String.get 1 (mode c) = Some m1 ->
  String.get 2 (mode c) = Some m2 ->
  a c = (pa ++ xa) ++ [a2; a1] -> pa <> [] ->
  List.length xa = (if is_d m1 then 0 else 1)%nat ->
  b c = (pb ++ xb) ++ [b2; b1] -> pb <> [] ->
  List.length xb = (if is_d m2 then 0 else 1)%nat ->
  let nb := to_uint (Torch.numel pa) in
  let trailing := derived_trailing c m0 m1 m2 a2 a1 b2 b1 in
  let batch := if is_d m1 then pa ++ xa else pb ++ xb in
  run (sparse_matmul c) =
    (match Torch.reshape (nb :: trailing) (batch ++ trailing) with
     | Some s => Returns s
     | None => Throws ReshapeError
     end,
     Alloc (nb :: trailing)
     :: match dtype c with
        | Float => [derived_launch c m1 m2 nb a2 a1 b2 b1]
        | _ => []
        end).
Proof.
  intros H0 H1 H2 Ha Hpa Hxa Hb Hpb Hxb nb trailing batch.
  assert (Fa : forall e, e = - Z.of_nat (List.length (xa ++ [a2; a1])) - 1 ->
               Torch.flatten (a c) 0 e = Some (Torch.numel pa :: xa ++ [a2; a1])).
  { intros e He. rewrite Ha, <- app_assoc. now apply TorchFacts.flatten_batch. }
  assert (Fb : forall e, e = - Z.of_nat (List.length (xb ++ [b2; b1])) - 1 ->
               Torch.flatten (b c) 0 e = Some (Torch.numel pb :: xb ++ [b2; b1])).
  { intros e He. rewrite Hb, <- app_assoc. now apply TorchFacts.flatten_batch. }
  assert (Sa : Torch.slice (a c) 0 (Torch.dim (a c) - 2) = Some (pa ++ xa))
    by (rewrite Ha; apply TorchFacts.slice_batch).
  assert (Sb : Torch.slice (b c) 0 (Torch.dim (b c) - 2) = Some (pb ++ xb))
    by (rewrite Hb; apply TorchFacts.slice_batch).
  assert (A1 : Torch.size (a c) (-1) = Some a1) by (rewrite Ha; apply size_last).
  assert (A2 : Torch.size (a c) (-2) = Some a2) by (rewrite Ha; apply size_before_last).
  assert (B1 : Torch.size (b c) (-1) = Some b1) by (rewrite Hb; apply size_last).
  assert (B2 : Torch.size (b c) (-2) = Some b2) by (rewrite Hb; apply size_before_last).
  subst nb trailing batch. unfold derived_trailing, derived_launch.
  unfold sparse_matmul. unfold_monad. rewrite H0, H1, H2.
  rewrite length_app in Fa, Fb. cbn [List.length] in Fa, Fb.
  destruct (is_d m1), (is_d m2);
    first [rewrite (Fa (-3)) by (rewrite Hxa; reflexivity)
          | rewrite (Fa (-4)) by (rewrite Hxa; reflexivity)];
    first [rewrite (Fb (-3)) by (rewrite Hxb; reflexivity)
          | rewrite (Fb (-4)) by (rewrite Hxb; reflexivity)];
    rewrite ?Sa, ?Sb;
    destruct (trans_a c), (trans_b c); rewrite ?A1, ?A2, ?B1, ?B2;
    rewrite TorchFacts.size_0;
    destruct (is_d m0), (dtype c); cbn [app];
    match goal with
    | |- context [Torch.reshape ?s ?t] => destruct (Torch.reshape s t)
    end; reflexivity.
Qed.

(** Case analysis on the innermost scrutinee first. *)
Ltac destruct_matches :=
  repeat (match goal with
          | |- context [match ?x with _ => _ end] =>
              lazymatch x with
              | context [match _ with _ => _ end] => fail
              | _ => destruct x eqn:?
              end
          end; cbv beta iota).

(** C10, as stated, fails: with the two-character selector [xd] and a
    one-dimensional [a], reading the extent of [a] on line 116 raises the
    tensor library's index error before [mode.at(2)] is reached. *)
Lemma C10_short_mode_counterexample :
  ~ (forall c : call,
       (String.length (mode c) < 3)%nat ->
       run (sparse_matmul c) = (Throws out_of_range, [])).
Proof.
  intros H.
  assert (Hlen : (String.length (mode call_xd_vector) < 3)%nat) by (cbn; lia).
  specialize (H call_xd_vector Hlen). vm_compute in H. discriminate H.
Qed.

Lemma select_kernel_any (md : string) :
  select_kernel md = sparse_matmul_sdd_32x32x8_kernel.
Proof. unfold select_kernel. now destruct (String.eqb md "sdd"), (String.eqb md "dsd"). Qed.

(** C4, as stated, fails: the selector [ddd] is none of the three modes,
    yet [sparse_matmul] allocates, launches and returns a buffer. *)
Lemma C4_invalid_mode_counterexample :
  ~ (forall c : call,
       recognized (mode c) = false ->
       exists e, run (sparse_matmul c) = (Throws e, [])).
Proof.
  intros H.
  destruct (H (call_of_mode "ddd" [1; 32; 32] [1; 32; 32]) eq_refl) as [e He].
  vm_compute in He. discriminate He.
Qed.

(** C6, as stated, fails: in the call below the first letter is [s] and
    the third is [d], yet [size_m] is read from the axes of [a] (64, not
    the layout's 32) and the output buffer is the block-sparse one. *)
Lemma C6_letter_roles_counterexample : ~ letter_roles 0 1 2.
Proof.
  intros H.
  specialize (H (call_of_mode "sdd" [1; 64; 8] [1; 8; 96])
                "s"%char "d"%char "d"%char).
  edestruct H as (Hm & _); [reflexivity | reflexivity | reflexivity | vm_compute; reflexivity |].
  vm_compute in Hm. discriminate Hm.
Qed.

(** C6 (amended): the dispatcher reads position 1 of the selector for
    operand A, position 2 for operand B and position 0 for the output. *)
Theorem C6_letter_roles : letter_roles 1 2 0.
Proof.
  intros c la lb lc s shape k blocks threads args Ga Gb Gc.
  unfold sparse_matmul. unfold_monad. rewrite Ga, Gb, Gc.
  destruct_matches; cbn [app]; intros H; inversion H; subst; cbn [arg_size_m arg_size_n arg_num_blocks];
    (split; [|split]); eauto;
    cbv beta iota; try reflexivity;
    repeat match goal with
           | E : or_throw _ _ _ = _ |- _ => unfold or_throw, ret, throw in E
           | E : match ?x with _ => _ end = _ |- _ => destruct x eqn:?; inversion E; subst; clear E
           end; try reflexivity.
Qed.

Lemma C6_letter_roles_witness :
  Some 64 = option_map to_uint (Torch.size [1; 64; 8] (-2))
  /\ Some 96 = option_map to_uint (Torch.size [1; 8; 96] (-1))
  /\ exists nb, [1; 1; 32; 32] = nb :: [1; 32; 32].
Proof.
  exact (C6_letter_roles (call_of_mode "sdd" [1; 64; 8] [1; 8; 96])
           "d"%char "d"%char "s"%char _ _ _ _ _ _
           eq_refl eq_refl eq_refl eq_refl).
Defined.

(** *** Operand shapes are not cross-checked *)

Ltac destruct_step :=
  match goal with
  | |- context [match ?x with _ => _ end] =>
      lazymatch x with
      | context [match _ with _ => _ end] => fail
      | _ => destruct x eqn:?
      end
  end; cbv beta iota.

(** An operand of rank below three stops the call before any allocation. *)
Lemma sparse_matmul_low_rank (c : call) :
  (List.length (a c) < 3)%nat \/ (List.length (b c) < 3)%nat ->
  exists e, run (sparse_matmul c) = (Throws e, []).
Proof.
  intros H. unfold sparse_matmul. unfold_monad.
  destruct H as [H | H].
  - assert (F3 : Torch.flatten (a c) 0 (-3) = None)
      by (apply TorchFacts.flatten_short; unfold Torch.dim; lia).
    assert (F4 : Torch.flatten (a c) 0 (-4) = None)
      by (apply TorchFacts.flatten_short; unfold Torch.dim; lia).
    repeat first [rewrite F3 | rewrite F4 | destruct_step]; eauto.
  - assert (F3 : Torch.flatten (b c) 0 (-3) = None)
      by (apply TorchFacts.flatten_short; unfold Torch.dim; lia).
    assert (F4 : Torch.flatten (b c) 0 (-4) = None)
      by (apply TorchFacts.flatten_short; unfold Torch.dim; lia).
    repeat first [rewrite F3 | rewrite F4 | destruct_step]; eauto.
Qed.

Lemma to_uint_small (z : Z) : fits_uint z -> to_uint z = z.
Proof. unfold fits_uint, to_uint. intros H. now apply Z.mod_small. Qed.

Ltac eval_letters H :=
  change (is_d "d"%char) with true in H;
  change (is_d "s"%char) with false in H;
  cbv beta iota zeta in H.

Section ValidCalls.

Variable c : call.
Variables pa pb : Torch.sizes.
Variables a2 a1 b2 b1 : Z.
Hypothesis Hpa : pa <> [].
Hypothesis Hpb : pb <> [].
Hypothesis Hbatch : fits_uint (Torch.numel pa).

Let blocks_of (l : layout_tensors) : Z :=
  to_uint (Z.of_nat (List.length (layout_blocks l)) / 2).
Let width_of (l : layout_tensors) : Z :=
  to_uint ((Z.of_nat (List.length (layout_table l)) - 1) * 32).

(** SDD: dense [a] and [b] of rank three or more. *)
Lemma sparse_matmul_sdd :
  mode c = "sdd"%string ->
  a c = pa ++ [a2; a1] ->
  b c = pb ++ [b2; b1] ->
  let num_blocks := blocks_of (row_layout c) in
  run (sparse_matmul c) =
    (Returns (pa ++ [num_blocks; 32; 32]),
     Alloc (Torch.numel pa :: [num_blocks; 32; 32])
     :: match dtype c with
        | Float =>
            [Launch sparse_matmul_sdd_32x32x8_kernel
               (num_blocks, Torch.numel pa, 1) THREADS
               {| arg_layout := row_layout c; arg_num_blocks := num_blocks;
                  arg_size_m := to_uint (if trans_a c then a1 else a2);
                  arg_size_n := to_uint (if trans_b c then b2 else b1);
                  arg_size_k := to_uint (if trans_b c then b1 else b2);
                  arg_trans_a := trans_a c; arg_trans_b := trans_b c |}]
        | _ => []
        end).
Proof.
  intros Hm Ha Hb num_blocks.
  assert (Ha' : a c = (pa ++ []) ++ [a2; a1]) by now rewrite app_nil_r.
  assert (Hb' : b c = (pb ++ []) ++ [b2; b1]) by now rewrite app_nil_r.
  assert (G0 : String.get 0 (mode c) = Some "s"%char) by now rewrite Hm.
  assert (G1 : String.get 1 (mode c) = Some "d"%char) by now rewrite Hm.
  assert (G2 : String.get 2 (mode c) = Some "d"%char) by now rewrite Hm.
  pose proof (sparse_matmul_run c _ _ _ pa [] pb [] a2 a1 b2 b1
                G0 G1 G2 Ha' Hpa eq_refl Hb' Hpb eq_refl) as R.
  unfold derived_trailing, derived_launch in R. eval_letters R.
  rewrite R, select_kernel_any. unfold select_layout, launch_blocks.
  rewrite Hm. cbn [String.eqb Ascii.eqb Bool.eqb orb andb].
  rewrite (to_uint_small _ Hbatch), app_nil_r.
  fold (blocks_of (row_layout c)). fold num_blocks.
  rewrite TorchFacts.reshape_same_numel; [reflexivity|].
  rewrite TorchFacts.numel_cons, TorchFacts.numel_app. reflexivity.
Qed.

(** DSD: block-sparse [a] of rank four or more, dense [b]; the two
    flattened batch sizes agree. *)
Lemma sparse_matmul_dsd (a3 : Z) :
  mode c = "dsd"%string ->
  a c = pa ++ [a3; a2; a1] ->
  b c = pb ++ [b2; b1] ->
  Torch.numel pa = Torch.numel pb ->
  let layout := if trans_a c then col_layout c else row_layout c in
  let size_m := width_of layout in
  let size_n := to_uint (if trans_b c then b2 else b1) in
  run (sparse_matmul c) =
    (Returns (pb ++ [size_m; size_n]),
     Alloc (Torch.numel pa :: [size_m; size_n])
     :: match dtype c with
        | Float =>
            [Launch sparse_matmul_sdd_32x32x8_kernel
               (Torch.numel pa, to_uint (size_m + 32 - 1) / 32,
                to_uint (size_n + 32 - 1) / 32) THREADS
               {| arg_layout := layout; arg_num_blocks := blocks_of layout;
                  arg_size_m := size_m;
                  arg_size_n := size_n;
                  arg_size_k := to_uint (if trans_b c then b1 else b2);
                  arg_trans_a := trans_a c; arg_trans_b := trans_b c |}]
        | _ => []
        end).
Proof.
  intros Hm Ha Hb Hnum layout size_m size_n.
  assert (Ha' : a c = (pa ++ [a3]) ++ [a2; a1]) by now rewrite <- app_assoc.
  assert (Hb' : b c = (pb ++ []) ++ [b2; b1]) by now rewrite app_nil_r.
  assert (G0 : String.get 0 (mode c) = Some "d"%char) by now rewrite Hm.
  assert (G1 : String.get 1 (mode c) = Some "s"%char) by now rewrite Hm.
  assert (G2 : String.get 2 (mode c) = Some "d"%char) by now rewrite Hm.
  pose proof (sparse_matmul_run c _ _ _ pa [a3] pb [] a2 a1 b2 b1
                G0 G1 G2 Ha' Hpa eq_refl Hb' Hpb eq_refl) as R.
  unfold derived_trailing, derived_launch in R. eval_letters R.
  rewrite R, select_kernel_any.
  replace (select_layout c) with layout
    by (unfold layout, select_layout; rewrite Hm; now destruct (trans_a c)).
  unfold launch_blocks.
  rewrite Hm. cbn [String.eqb Ascii.eqb Bool.eqb orb andb].
  rewrite (to_uint_small _ Hbatch), app_nil_r.
  fold (width_of layout). fold (blocks_of layout). fold size_m. fold size_n.
  rewrite TorchFacts.reshape_same_numel; [reflexivity|].
  rewrite TorchFacts.numel_cons, TorchFacts.numel_app, Hnum. reflexivity.
Qed.

(** DDS: dense [a], block-sparse [b] of rank four or more. *)
Lemma sparse_matmul_dds (b3 : Z) :
  mode c = "dds"%string ->
  a c = pa ++ [a2; a1] ->
  b c = pb ++ [b3; b2; b1] ->
  let layout := if trans_b c then row_layout c else col_layout c in
  let size_m := to_uint (if trans_a c then a1 else a2) in
  let size_n := width_of layout in
  run (sparse_matmul c) =
    (Returns (pa ++ [size_m; size_n]),
     Alloc (Torch.numel pa :: [size_m; size_n])
     :: match dtype c with
        | Float =>
            [Launch sparse_matmul_sdd_32x32x8_kernel
               (Torch.numel pa, to_uint (size_m + 32 - 1) / 32,
                to_uint (size_n + 32 - 1) / 32) THREADS
               {| arg_layout := layout; arg_num_blocks := blocks_of layout;
                  arg_size_m := size_m;
                  arg_size_n := size_n;
                  arg_size_k := to_uint (if trans_a c then a2 else a1);
                  arg_trans_a := trans_a c; arg_trans_b := trans_b c |}]
        | _ => []
        end).
Proof.
  intros Hm Ha Hb layout size_m size_n.
  assert (Ha' : a c = (pa ++ []) ++ [a2; a1]) by now rewrite app_nil_r.
  assert (Hb' : b c = (pb ++ [b3]) ++ [b2; b1]) by now rewrite <- app_assoc.
  assert (G0 : String.get 0 (mode c) = Some "d"%char) by now rewrite Hm.
  assert (G1 : String.get 1 (mode c) = Some "d"%char) by now rewrite Hm.
  assert (G2 : String.get 2 (mode c) = Some "s"%char) by now rewrite Hm.
  pose proof (sparse_matmul_run c _ _ _ pa [] pb [b3] a2 a1 b2 b1
                G0 G1 G2 Ha' Hpa eq_refl Hb' Hpb eq_refl) as R.
  unfold derived_trailing, derived_launch in R. eval_letters R.
  rewrite R, select_kernel_any.
  replace (select_layout c) with layout
    by (unfold layout, select_layout; rewrite Hm; now destruct (trans_b c)).
  unfold launch_blocks.
  rewrite Hm. cbn [String.eqb Ascii.eqb Bool.eqb orb andb].
  rewrite (to_uint_small _ Hbatch), app_nil_r.
  fold (width_of layout). fold (blocks_of layout).
  fold size_m. fold size_n.
  rewrite TorchFacts.reshape_same_numel; [reflexivity|].
  rewrite TorchFacts.numel_cons, TorchFacts.numel_app. reflexivity.
Qed.

End ValidCalls.

(** DSD with disagreeing flattened batch sizes: the difference surfaces
    only in the final reshape, after the allocation and the launch. *)
Lemma sparse_matmul_dsd_batch_mismatch (c : call) (pa pb : Torch.sizes)
    (a3 a2 a1 b2 b1 : Z) :
  pa <> [] -> pb <> [] -> fits_uint (Torch.numel pa) ->
  mode c = "dsd"%string ->
  a c = pa ++ [a3; a2; a1] ->
  b c = pb ++ [b2; b1] ->
  let layout := if trans_a c then col_layout c else row_layout c in
  let size_m := to_uint ((Z.of_nat (List.length (layout_table layout)) - 1) * 32) in
  let size_n := to_uint (if trans_b c then b2 else b1) in
  Torch.numel pa <> Torch.numel pb -> size_m <> 0 -> size_n <> 0 ->
  dtype c = Float ->
  exists shape blocks args,
    run (sparse_matmul c) =
      (Throws ReshapeError,
       [Alloc shape; Launch sparse_matmul_sdd_32x32x8_kernel blocks THREADS args]).
Proof.
  intros Hpa Hpb Hbatch Hm Ha Hb layout size_m size_n Hnum Hsm Hsn Hty.
  assert (Ha' : a c = (pa ++ [a3]) ++ [a2; a1]) by now rewrite <- app_assoc.
  assert (Hb' : b c = (pb ++ []) ++ [b2; b1]) by now rewrite app_nil_r.
  assert (G0 : String.get 0 (mode c) = Some "d"%char) by now rewrite Hm.
  assert (G1 : String.get 1 (mode c) = Some "s"%char) by now rewrite Hm.
  assert (G2 : String.get 2 (mode c) = Some "d"%char) by now rewrite Hm.
  pose proof (sparse_matmul_run c _ _ _ pa [a3] pb [] a2 a1 b2 b1
                G0 G1 G2 Ha' Hpa eq_refl Hb' Hpb eq_refl) as R.
  unfold derived_trailing, derived_launch in R. eval_letters R.
  rewrite R, select_kernel_any, Hty.
  replace (select_layout c) with layout
    by (unfold layout, select_layout; rewrite Hm; now destruct (trans_a c)).
  fold size_m. fold size_n.
  rewrite (to_uint_small _ Hbatch), app_nil_r.
  rewrite TorchFacts.reshape_other_numel.
  - eexists _, _, _. reflexivity.
  - rewrite TorchFacts.numel_cons, TorchFacts.numel_app.
    intros E. apply Hnum.
    assert (Ht : Torch.numel [size_m; size_n] <> 0)
      by (unfold Torch.numel; cbn [fold_right]; nia).
    nia.
Qed.

(** C7, as stated, fails: the reduction dimensions of the operands below
    disagree (64 against 16), and the call still allocates, launches the
    kernel and returns. *)
Lemma C7_shape_mismatch_counterexample :
  ~ (forall c : call,
       mode c = "sdd"%string ->
       Torch.size (a c) (if trans_a c then -2 else -1)
         <> Torch.size (b c) (if trans_b c then -1 else -2) ->
       exists e, run (sparse_matmul c) = (Throws e, [])).
Proof.
  intros H.
  destruct (H (call_of_mode "sdd" [1; 32; 64] [1; 16; 32]) eq_refl) as [e He].
  - vm_compute. discriminate.
  - vm_compute in He. discriminate He.
Qed.

(** C7 (amended): only operand ranks are caught before the launch, by the
    tensor library's own checks: an operand of rank below three makes the
    call throw before any allocation.  Extents are not compared: an SDD
    call on dense operands of rank three or more allocates, launches with
    [size_k] read from [b] alone and returns, whatever the reduction extent
    and batch dimensions of [a] against those of [b]; in DSD mode a
    difference between the flattened batch sizes is reported by the final
    reshape, after the launch. *)
Theorem C7_shape_checks (c : call) :
  ((List.length (a c) < 3)%nat \/ (List.length (b c) < 3)%nat ->
   exists e, run (sparse_matmul c) = (Throws e, []))
  /\ (forall (pa pb : Torch.sizes) (a2 a1 b2 b1 : Z),
        pa <> [] -> pb <> [] -> fits_uint (Torch.numel pa) ->
        mode c = "sdd"%string -> dtype c = Float ->
        a c = pa ++ [a2; a1] -> b c = pb ++ [b2; b1] ->
        exists s shape blocks args,
          run (sparse_matmul c) =
            (Returns s,
             [Alloc shape; Launch sparse_matmul_sdd_32x32x8_kernel blocks THREADS args])
          /\ arg_size_k args = to_uint (if trans_b c then b1 else b2))
  /\ (forall (pa pb : Torch.sizes) (a3 a2 a1 b2 b1 : Z),
        pa <> [] -> pb <> [] -> fits_uint (Torch.numel pa) ->
        mode c = "dsd"%string -> dtype c = Float ->
        a c = pa ++ [a3; a2; a1] -> b c = pb ++ [b2; b1] ->
        Torch.numel pa <> Torch.numel pb ->
        to_uint ((Z.of_nat (List.length (layout_table
                   (if trans_a c then col_layout c else row_layout c))) - 1) * 32) <> 0 ->
        to_uint (if trans_b c then b2 else b1) <> 0 ->
        exists shape blocks args,
          run (sparse_matmul c) =
            (Throws ReshapeError,
             [Alloc shape; Launch sparse_matmul_sdd_32x32x8_kernel blocks THREADS args])).
Proof.
  split; [apply sparse_matmul_low_rank|]. split.
  - intros pa pb a2 a1 b2 b1 Hpa Hpb Hbatch Hm Hty Ha Hb.
    rewrite (sparse_matmul_sdd c pa pb a2 a1 b2 b1 Hpa Hpb Hbatch Hm Ha Hb), Hty.
    eexists _, _, _, _. split; reflexivity.
  - intros pa pb a3 a2 a1 b2 b1 Hpa Hpb Hbatch Hm Hty Ha Hb Hnum Hsm Hsn.
    now apply (sparse_matmul_dsd_batch_mismatch c pa pb a3 a2 a1 b2 b1).
Qed.

Lemma C7_shape_checks_witness :
  (exists e, run (sparse_matmul (call_of_mode "sdd" [32; 64] [1; 64; 32])) = (Throws e, []))
  /\ (exists s shape blocks args,
        run (sparse_matmul (call_of_mode "sdd" [1; 32; 64] [1; 16; 32])) =
          (Returns s,
           [Alloc shape; Launch sparse_matmul_sdd_32x32x8_kernel blocks THREADS args])
        /\ arg_size_k args = to_uint 16)
  /\ (exists shape blocks args,
        run (sparse_matmul (call_of_mode "dsd" [2; 1; 32; 32] [3; 32; 32])) =
          (Throws ReshapeError,
           [Alloc shape; Launch sparse_matmul_sdd_32x32x8_kernel blocks THREADS args])).
Proof.
  split; [|split].
  - apply (C7_shape_checks (call_of_mode "sdd" [32; 64] [1; 64; 32])).
    left. cbn. lia.
  - apply (C7_shape_checks (call_of_mode "sdd" [1; 32; 64] [1; 16; 32]))
      with (pa := [1]) (pb := [1]) (a2 := 32) (a1 := 64) (b2 := 16) (b1 := 32);
      try reflexivity; try discriminate.
    unfold fits_uint, uint_modulus. cbn. lia.
  - apply (C7_shape_checks (call_of_mode "dsd" [2; 1; 32; 32] [3; 32; 32]))
      with (pa := [2]) (pb := [3]) (a3 := 1) (a2 := 32) (a1 := 32) (b2 := 32) (b1 := 32);
      try reflexivity; try discriminate.
    unfold fits_uint, uint_modulus. cbn. lia.
Defined.

(** ** The host-side dispatcher [batched_sparse_matmul_op] *)

Lemma pop_back_twice (pre : Torch.sizes) (r q : Z) (k : list Z -> M Torch.sizes) log :
  bind (pop_back (pre ++ [r; q])) (fun s => bind (pop_back s) k) log = k pre log.
Proof.
  unfold bind, pop_back.
  replace (pre ++ [r; q]) with ((pre ++ [r]) ++ [q]) by now rewrite <- app_assoc.
  rewrite removelast_last.
  destruct ((pre ++ [r]) ++ [q]) eqn:E1; [now destruct pre|].
  cbv beta iota delta [ret]. rewrite removelast_last.
  destruct (pre ++ [r]) eqn:E2; [now destruct pre|].
  reflexivity.
Qed.

Lemma size3_last (x r q : Z) : Torch.size [x; r; q] (-1) = Some q.
Proof. reflexivity. Qed.

Lemma size3_before_last (x r q : Z) : Torch.size [x; r; q] (-2) = Some r.
Proof. reflexivity. Qed.

Section HostDispatcher.

Variable c : call.
Variables pa pb : Torch.sizes.
Variables a2 a1 b2 b1 : Z.
Hypothesis Hpa : pa <> [].
Hypothesis Hpb : pb <> [].
Hypothesis Hty : dtype c = Float.




End HostDispatcher.

(** ** Returned shapes *)





(** * The dispatchers on arbitrary tensor arguments: properties *)

Ltac unfold_general :=
  cbv beta iota delta [run bind ret throw undefined or_throw string_at size
                       flatten reshape new_empty General.new_empty emit
                       dispatch_kernel_with_type data_ptr_float
                       General.data_ptr_short General.data_ptr_int
                       pop_back push_back].

(** *** When the shape operations fail *)

Lemma size_none_rank (s : Torch.sizes) (d : Z) :
  Torch.size s d = None -> -2 <= d <= 0 ->
  (General.rank s < Z.to_nat (- d) + (if (d =? 0)%Z then 1 else 0))%nat.
Proof.
  unfold Torch.size, Torch.maybe_wrap_dim, Torch.dim, General.rank.
  intros H Hd.
  destruct ((- Z.of_nat (List.length s) <=? d) && (d <? Z.of_nat (List.length s))) eqn:E.
  - apply andb_true_iff in E. destruct E as [E1 E2].
    apply Z.leb_le in E1. apply Z.ltb_lt in E2.
    apply nth_error_None in H. destruct (d <? 0) eqn:E3.
    + apply Z.ltb_lt in E3. lia.
    + apply Z.ltb_ge in E3. lia.
  - apply andb_false_iff in E. destruct E as [E | E].
    + apply Z.leb_gt in E. destruct (d =? 0) eqn:E0; [apply Z.eqb_eq in E0|]; lia.
    + apply Z.ltb_ge in E. destruct (d =? 0) eqn:E0; [|apply Z.eqb_neq in E0]; lia.
Qed.

Lemma size_some_rank (s : Torch.sizes) (d z : Z) :
  Torch.size s d = Some z -> (1 <= General.rank s)%nat.
Proof.
  destruct s as [|x s]; [|cbn; lia].
  unfold Torch.size, Torch.maybe_wrap_dim, Torch.dim. cbn [List.length Z.of_nat Z.opp].
  destruct (0 <=? d) eqn:E1, (d <? 0) eqn:E2; cbn [andb]; try discriminate.
  apply Z.leb_le in E1. apply Z.ltb_lt in E2. lia.
Qed.

Lemma size_rank_0 (s : Torch.sizes) (d : Z) :
  General.rank s = 0%nat -> Torch.size s d = None.
Proof.
  intros H. destruct (Torch.size s d) eqn:E; [|reflexivity].
  apply size_some_rank in E. lia.
Qed.

Lemma flatten_some_rank (s r : Torch.sizes) (e : Z) :
  Torch.flatten s 0 e = Some r -> e < -1 -> (Z.to_nat (- e) <= General.rank s)%nat.
Proof.
  intros H He. unfold General.rank.
  destruct (le_lt_dec (Z.to_nat (- e)) (List.length s)) as [L | L]; [exact L|].
  rewrite TorchFacts.flatten_short in H; [discriminate | lia | unfold Torch.dim; lia].
Qed.

Lemma flatten_none_rank (s : Torch.sizes) (e : Z) :
  Torch.flatten s 0 e = None -> e < -1 -> (General.rank s < Z.to_nat (- e))%nat.
Proof.
  intros H He. unfold General.rank.
  destruct (le_lt_dec (Z.to_nat (- e)) (List.length s)) as [L | L]; [|exact L].
  exfalso.
  set (q := (Z.to_nat (- e) - 1)%nat).
  set (p := (List.length s - q)%nat).
  rewrite <- (firstn_skipn p s) in H.
  rewrite TorchFacts.flatten_batch in H; [discriminate | |].
  - intros E. apply (f_equal (@List.length Z)) in E.
    rewrite length_firstn in E. cbn in E. lia.
  - rewrite length_skipn. lia.
Qed.

Lemma flatten_some_size_0 (s r : Torch.sizes) (i j : Z) :
  Torch.flatten s i j = Some r -> exists x, Torch.size r 0 = Some x.
Proof.
  unfold Torch.flatten.
  destruct (Torch.maybe_wrap_dim i _) as [i'|]; [|discriminate].
  destruct (Torch.maybe_wrap_dim j _) as [j'|]; [|discriminate].
  destruct (j' <? i'); [discriminate|].
  destruct (Torch.dim s =? 0).
  - intros H. injection H as <-. eexists. apply TorchFacts.size_0.
  - intros H. injection H as <-.
    destruct (firstn (Z.to_nat i') s) as [|x l]; cbn [app]; eexists; apply TorchFacts.size_0.
Qed.

Lemma slice_some_rank (s r : Torch.sizes) :
  Torch.slice s 0 (Torch.dim s - 2) = Some r -> (2 <= General.rank s)%nat.
Proof.
  intros H. unfold General.rank.
  destruct (le_lt_dec 2 (List.length s)) as [L | L]; [exact L|].
  rewrite TorchFacts.slice_short in H; [discriminate | unfold Torch.dim; lia].
Qed.

Lemma slice_none_rank (s : Torch.sizes) :
  Torch.slice s 0 (Torch.dim s - 2) = None -> (General.rank s < 2)%nat.
Proof.
  unfold Torch.slice, Torch.dim, General.rank. intros H.
  destruct (le_lt_dec 2 (List.length s)) as [L | L]; [|exact L]. exfalso.
  replace (0 <=? Z.of_nat (List.length s) - 2) with true in H
    by (symmetry; apply Z.leb_le; lia).
  replace (0 + (Z.of_nat (List.length s) - 2) <=? Z.of_nat (List.length s)) with true in H
    by (symmetry; apply Z.leb_le; lia).
  discriminate H.
Qed.

Lemma to_uint_nonneg (z : Z) : (0 <=? to_uint z) = true.
Proof.
  apply Z.leb_le. unfold to_uint, uint_modulus.
  pose proof (Z.mod_pos_bound z (2 ^ 32) ltac:(lia)). lia.
Qed.

(** *** The two descriptions agree on plain calls *)

Lemma select_layout_plain (c : call) :
  General.select_layout (plain c) = plain_layout (select_layout c).
Proof.
  unfold General.select_layout, select_layout, plain.
  cbn [General.mode General.trans_a General.trans_b General.row_layout General.col_layout].
  destruct (_ || _ || _)%bool; reflexivity.
Qed.

Ltac forallb_contradiction :=
  match goal with
  | H : forallb _ _ = false |- _ =>
      exfalso; cbn [forallb] in H; rewrite ?to_uint_nonneg in H;
      cbn in H; discriminate H
  end.

(** On a plain call the general description of [sparse_matmul] does what
    the first one does: the layout reads succeed, the extents handed to
    [new_empty] are unsigned, and [b] has the element type of [a]. *)
Theorem plain_sparse_matmul (c : call) :
  run (General.sparse_matmul (plain c)) = run (sparse_matmul c).
Proof.
  unfold General.sparse_matmul, sparse_matmul. rewrite select_layout_plain.
  generalize (select_layout c). intros layout.
  unfold plain, plain_layout, vector, General.to_sparse_layout.
  cbn [General.a General.b General.extents General.element_type General.mode
       General.trans_a General.trans_b General.block_list General.block_table
       General.index_extents General.entries].
  unfold_general. rewrite !TorchFacts.size_0. cbv beta iota.
  rewrite Z.quot_div_nonneg by lia.
  destruct layout as [blocks table]. cbn [layout_blocks layout_table].
  destruct_matches; try reflexivity; forallb_contradiction.
Qed.

Lemma size_nonneg (s : Torch.sizes) (d z : Z) :
  Forall (fun e => 0 <= e) s -> Torch.size s d = Some z -> 0 <= z.
Proof.
  unfold Torch.size. intros Hs H.
  destruct (Torch.maybe_wrap_dim d (Torch.dim s)) as [i|]; [|discriminate].
  apply nth_error_In in H. rewrite Forall_forall in Hs. now apply Hs.
Qed.

Lemma numel_nonneg (s : Torch.sizes) :
  Forall (fun e => 0 <= e) s -> 0 <= Torch.numel s.
Proof.
  unfold Torch.numel. induction 1 as [|x s Hx Hs IH]; cbn; [lia|].
  now apply Z.mul_nonneg_nonneg.
Qed.

Lemma flatten_nonneg (s r : Torch.sizes) (i j : Z) :
  Forall (fun e => 0 <= e) s -> Torch.flatten s i j = Some r ->
  Forall (fun e => 0 <= e) r.
Proof.
  unfold Torch.flatten. intros Hs.
  destruct (Torch.maybe_wrap_dim i _) as [i'|]; [|discriminate].
  destruct (Torch.maybe_wrap_dim j _) as [j'|]; [|discriminate].
  destruct (j' <? i'); [discriminate|].
  assert (F : forall (l : Torch.sizes) n,
             Forall (fun e => 0 <= e) l -> Forall (fun e => 0 <= e) (firstn n l)).
  { intros l n Hl. rewrite <- (firstn_skipn n l) in Hl.
    apply Forall_app in Hl. tauto. }
  assert (K : forall n, Forall (fun e => 0 <= e) (skipn n s)).
  { intros n. pose proof Hs as Hl. rewrite <- (firstn_skipn n s) in Hl.
    apply Forall_app in Hl. tauto. }
  destruct (Torch.dim s =? 0); intros H; injection H as <-.
  - constructor; [lia | constructor].
  - apply Forall_app. split; [now apply F|]. cbn [app].
    constructor; [|apply K]. apply numel_nonneg. apply F, K.
Qed.

(** On a plain call with non-empty tables the general description of the
    host-side dispatcher does what the first one does. *)
Theorem plain_batched_sparse_matmul_op (c : call) :
  Forall (fun e => 0 <= e) (a c) -> Forall (fun e => 0 <= e) (b c) ->
  layout_table (row_layout c) <> [] -> layout_table (col_layout c) <> [] ->
  run (General.batched_sparse_matmul_op (plain c)) = run (batched_sparse_matmul_op c).
Proof.
  intros Ha Hb Hrow Hcol.
  assert (L : forall l : list Z, l <> [] -> 0 <= (Z.of_nat (List.length l) - 1) * 32)
    by (intros [|x l] H; [congruence | cbn [List.length]; lia]).
  assert (D : forall l : list Z, 0 <= Z.of_nat (List.length l) / 2)
    by (intros l; apply Z.div_pos; lia).
  pose proof (L _ Hrow) as Lrow. pose proof (L _ Hcol) as Lcol.
  pose proof (D (layout_blocks (row_layout c))) as Drow.
  pose proof (D (layout_blocks (col_layout c))) as Dcol.
  unfold General.batched_sparse_matmul_op, batched_sparse_matmul_op, tensor_len.
  unfold plain, plain_layout, vector, TILE_32x32_WIDTH in *.
  cbn [General.a General.b General.extents General.element_type General.mode
       General.trans_a General.trans_b General.row_layout General.col_layout
       General.block_list General.block_table].
  destruct (String.eqb (mode c) "sdd"); [|destruct (String.eqb (mode c) "dsd");
    [|destruct (String.eqb (mode c) "dds"); [|reflexivity]]];
    destruct (trans_a c), (trans_b c);
    cbn [General.index_extents General.index_element_type General.entries];
    unfold_general; rewrite ?TorchFacts.size_0; cbv beta iota;
    rewrite ?Z.quot_div_nonneg by lia;
    destruct_matches; try reflexivity; exfalso;
    repeat match goal with
           | H : Torch.flatten _ _ _ = Some _ |- _ =>
               apply flatten_nonneg in H; [|assumption]
           | H : Torch.size _ _ = Some _ |- _ =>
               apply size_nonneg in H; [|assumption]
           end;
    match goal with
    | H : forallb ?f ?l = false |- _ =>
        assert (HT : forallb f l = true)
          by (cbn [forallb]; rewrite !andb_true_iff; repeat split;
              try apply Z.leb_le; lia);
        congruence
    end.
Qed.

Lemma reshape_some (s shape r : Torch.sizes) :
  Torch.reshape s shape = Some r -> r = shape /\ Torch.numel r = Torch.numel s.
Proof.
  unfold Torch.reshape. destruct (Torch.numel s =? Torch.numel shape) eqn:E; [|discriminate].
  intros H. injection H as <-. apply Z.eqb_eq in E. auto.
Qed.

(** *** What a call of [sparse_matmul] does *)

Ltac same_letters :=
  repeat match goal with
         | H1 : String.get ?i ?s = Some ?x, H2 : String.get ?i ?s = Some ?y |- _ =>
             rewrite H1 in H2; injection H2 as H2; subst y
         end.

(** A failed read contradicts [reads_succeed]. *)
Ltac reads_contradiction R :=
  destruct R as (R1 & R2 & m0 & m1 & m2 & G0 & G1 & G2 & Ra & Rb);
  same_letters;
  try congruence;
  repeat match goal with
         | H : Torch.size _ ?d = None |- _ =>
             apply size_none_rank in H; [cbn in H | lia]
         | H : Torch.flatten _ 0 ?e = None |- _ =>
             apply flatten_none_rank in H; [cbn in H | lia]
         | H : Torch.slice _ 0 _ = None |- _ =>
             apply slice_none_rank in H
         end;
  unfold General.rank in *;
  repeat match goal with
         | H : context [if is_d ?x then _ else _] |- _ => destruct (is_d x)
         end;
  first [congruence | lia].

Ltac impossible_branch :=
  exfalso;
  first
    [ forallb_contradiction
    | match goal with
      | H : Torch.flatten _ _ _ = Some ?r, H' : Torch.size ?r 0 = None |- _ =>
          apply flatten_some_size_0 in H; destruct H as [? H]; congruence
      end ].

Ltac reads_ok :=
  unfold General.reads_succeed;
  split; [eapply size_some_rank; eassumption|];
  split; [eapply size_some_rank; eassumption|];
  eexists _, _, _;
  split; [eassumption|]; split; [eassumption|]; split; [eassumption|];
  repeat match goal with
         | H : is_d ?x = _ |- context [is_d ?x] => rewrite H
         end;
  split;
  match goal with
  | H : Torch.flatten ?s 0 ?e = Some _ |- (_ <= General.rank ?s)%nat =>
      exact (flatten_some_rank _ _ e H ltac:(lia))
  end.

Lemma sparse_matmul_cases (c : General.call) :
  (~ General.reads_succeed c
   /\ exists e, run (General.sparse_matmul c) = (Throws e, [])
                /\ (e = out_of_range \/ e = IndexError \/ e = SliceError))
  \/ (General.reads_succeed c
      /\ exists shape,
           (run (General.sparse_matmul c) = (Throws TypeError, [Alloc shape])
            /\ General.element_type (General.a c) = Float
            /\ General.element_type (General.b c) <> Float)
           \/ (exists out launches,
                 run (General.sparse_matmul c) = (out, Alloc shape :: launches)
                 /\ ((General.element_type (General.a c) = Float
                      /\ General.element_type (General.b c) = Float
                      /\ exists g args,
                           launches
                           = [Launch sparse_matmul_sdd_32x32x8_kernel g THREADS args])
                     \/ (General.element_type (General.a c) <> Float
                         /\ launches = []))
                 /\ (out = Throws ReshapeError
                     \/ exists s, out = Returns s
                                  /\ Torch.numel s = Torch.numel shape))).
Proof.
  unfold General.sparse_matmul. unfold_general. rewrite select_kernel_any.
  destruct_matches; cbn [app];
    first
      [ solve [impossible_branch]
      | solve [left; split;
               [intros R; reads_contradiction R
               | eexists; split; [reflexivity | auto]]]
      | right; split; [solve [reads_ok]|]; eexists;
        first
          [ solve [left; split; [reflexivity|]; split; [reflexivity | discriminate]]
          | right; eexists _, _; split; [reflexivity|]; split;
            [ first [ solve [left; split; [reflexivity|]; split; [reflexivity | eauto]]
                    | solve [right; split; [discriminate | reflexivity]] ]
            | match goal with
              | H : Torch.reshape _ _ = Some _ |- _ =>
                  apply reshape_some in H; destruct H as [-> H]; right; eauto
              | _ => left; reflexivity
              end ] ] ].
Qed.

Lemma select_layout_unrecognized (c : General.call) :
  recognized (General.mode c) = false ->
  General.select_layout c = General.col_layout c.
Proof.
  unfold recognized, General.select_layout. intros H.
  destruct (String.eqb (General.mode c) "sdd"); [discriminate|].
  destruct (String.eqb (General.mode c) "dsd"); [discriminate|].
  destruct (String.eqb (General.mode c) "dds"); [discriminate|].
  reflexivity.
Qed.

Lemma general_batched_op_unrecognized (c : General.call) :
  recognized (General.mode c) = false ->
  run (General.batched_sparse_matmul_op c) = (Undefined, []).
Proof.
  unfold recognized, General.batched_sparse_matmul_op. intros H.
  destruct (String.eqb (General.mode c) "sdd"); [discriminate|].
  destruct (String.eqb (General.mode c) "dsd"); [discriminate|].
  destruct (String.eqb (General.mode c) "dds"); [discriminate|].
  reflexivity.
Qed.

(** With fewer than three characters in the selector the call ends before
    anything is allocated, in the index error of a tensor read that comes
    first or else in [std::out_of_range]. *)
Lemma sparse_matmul_short_selector (c : General.call) :
  (String.length (General.mode c) < 3)%nat ->
  (General.read_fails_first c ->
   run (General.sparse_matmul c) = (Throws IndexError, []))
  /\ (~ General.read_fails_first c ->
      run (General.sparse_matmul c) = (Throws out_of_range, [])).
Proof.
  intros Hlen. unfold General.read_fails_first, General.sparse_matmul.
  generalize (General.select_layout c). intros layout. unfold_general.
  destruct (Torch.size (General.index_extents (General.block_list layout)) 0)
    as [z0|] eqn:E0.
  2: { split; [reflexivity|]. intros F. exfalso. apply F. left.
       apply size_none_rank in E0; [cbn in E0; lia | lia]. }
  apply size_some_rank in E0.
  destruct (Torch.size (General.index_extents (General.block_table layout)) 0)
    as [z1|] eqn:E1.
  2: { split; [reflexivity|]. intros F. exfalso. apply F. right. left.
       apply size_none_rank in E1; [cbn in E1; lia | lia]. }
  apply size_some_rank in E1.
  destruct (General.mode c) as [|c0 [|c1 [|c2 rest]]] eqn:Hm; cbn in Hlen; try lia;
    cbn [String.get].
  - split; [|reflexivity].
    intros [F | [F | ((x & F) & _)]]; [lia | lia | discriminate F].
  - split; [|reflexivity].
    intros [F | [F | ((x & F) & _)]]; [lia | lia | discriminate F].
  - cbn. destruct (is_d c1) eqn:Hd.
    + apply Ascii.eqb_eq in Hd. subst c1.
      destruct (Torch.size (General.extents (General.a c))
                  (if General.trans_a c then -1 else -2)) as [x|] eqn:Es.
      * split; [|reflexivity].
        intros [F | [F | (_ & F)]]; [lia | lia |]. exfalso.
        destruct (General.trans_a c).
        -- apply size_some_rank in Es. lia.
        -- destruct (General.extents (General.a c)) as [|x1 [|x2 s]];
             cbn in F; try lia; vm_compute in Es; discriminate Es.
      * split; [reflexivity|]. intros F. exfalso. apply F. right. right.
        split; [eauto|].
        destruct (General.trans_a c);
          (apply size_none_rank in Es; [cbn in Es; lia | lia]).
    + split; [|reflexivity].
      intros [F | [F | ((x & F) & _)]]; [lia | lia |].
      injection F as _ F. subst c1. vm_compute in Hd. discriminate Hd.
Qed.

Lemma read_fails_first_dec (c : General.call) :
  General.read_fails_first c \/ ~ General.read_fails_first c.
Proof.
  unfold General.read_fails_first.
  destruct (Nat.eq_dec
              (General.rank (General.index_extents
                               (General.block_list (General.select_layout c)))) 0)
    as [E0 | E0]; [left; left; exact E0|].
  destruct (Nat.eq_dec
              (General.rank (General.index_extents
                               (General.block_table (General.select_layout c)))) 0)
    as [E1 | E1]; [left; right; left; exact E1|].
  destruct (lt_dec (General.rank (General.extents (General.a c)))
              (if General.trans_a c then 1 else 2)) as [L | L].
  - destruct (General.mode c) as [|c0 [|c1 [|c2 rest]]] eqn:Hm;
      try (right; intros [F | [F | ((x & F) & _)]];
           [contradiction | contradiction | discriminate F]).
    destruct (Ascii.eqb c1 "d") eqn:Ed.
    + apply Ascii.eqb_eq in Ed. subst c1. left. right. right. eauto.
    + right. intros [F | [F | ((x & F) & _)]]; [contradiction | contradiction |].
      injection F as _ F. subst c1. vm_compute in Ed. discriminate Ed.
  - right. intros [F | [F | (_ & F)]]; contradiction.
Qed.

(** A selector of three or more characters never raises
    [std::out_of_range]. *)
Lemma sparse_matmul_long_selector (c : General.call) :
  (3 <= String.length (General.mode c))%nat ->
  fst (run (General.sparse_matmul c)) <> Throws out_of_range.
Proof.
  intros Hlen. unfold General.sparse_matmul.
  generalize (General.select_layout c). intros layout.
  destruct (General.mode c) as [|c0 [|c1 [|c2 rest]]] eqn:Hm; cbn in Hlen; try lia.
  unfold_general. cbn [String.get].
  destruct_matches; cbn [fst]; discriminate.
Qed.

(** C4 (amended): neither dispatcher reports an invalid mode.  For a
    selector that is none of the three modes [sparse_matmul] works with
    the column layout and throws before any allocation exactly when one of
    its reads fails: the selector has fewer than three characters, a
    tensor of the layout has no dimensions, or an operand has fewer than
    three dimensions (four where its letter is not [d]); the exception is
    that of the failed read.  Otherwise it allocates the output buffer
    and, for single-precision operands, launches the kernel and returns
    the buffer unless the final reshape fails.  The host-side dispatcher
    matches none of its branches and reaches the end of the function
    without a return statement, with nothing allocated. *)
Theorem C4_unrecognized_mode (c : General.call) :
  recognized (General.mode c) = false ->
  General.select_layout c = General.col_layout c
  /\ (~ General.reads_succeed c ->
      exists e, run (General.sparse_matmul c) = (Throws e, [])
                /\ (e = out_of_range \/ e = IndexError \/ e = SliceError))
  /\ (General.reads_succeed c ->
      exists out shape rest,
        run (General.sparse_matmul c) = (out, Alloc shape :: rest)
        /\ (General.element_type (General.a c) = Float ->
            General.element_type (General.b c) = Float ->
            (exists g args,
               rest = [Launch sparse_matmul_sdd_32x32x8_kernel g THREADS args])
            /\ ((exists s, out = Returns s) \/ out = Throws ReshapeError)))
  /\ run (General.batched_sparse_matmul_op c) = (Undefined, []).
Proof.
  intros Hmode.
  split; [now apply select_layout_unrecognized|].
  split; [|split; [|now apply general_batched_op_unrecognized]].
  - intros N. destruct (sparse_matmul_cases c) as [(_ & H) | (R & _)];
      [exact H | contradiction].
  - intros R.
    destruct (sparse_matmul_cases c)
      as [(N & _) | (_ & shape & [(H & _ & Hb) | (out & launches & H & Hl & Ho)])];
      [contradiction | |].
    + exists (Throws TypeError), shape, []. split; [exact H|].
      intros _ Hb'. contradiction.
    + exists out, shape, launches. split; [exact H|]. intros Ha Hb.
      destruct Hl as [(_ & _ & Hl) | (Na & _)]; [|contradiction].
      split; [exact Hl|].
      destruct Ho as [-> | (s & -> & _)]; eauto.
Qed.

Lemma C4_unrecognized_mode_witness :
  (exists e,
     run (General.sparse_matmul (plain (call_of_mode "sss" [1; 32; 32] [1; 32; 32])))
     = (Throws e, [])
     /\ (e = out_of_range \/ e = IndexError \/ e = SliceError))
  /\ (exists out shape rest,
        run (General.sparse_matmul
               (plain (call_of_mode "xyz" [2; 1; 32; 32] [2; 1; 32; 32])))
        = (out, Alloc shape :: rest))
  /\ run (General.batched_sparse_matmul_op
            (plain (call_of_mode "xyz" [2; 1; 32; 32] [2; 1; 32; 32])))
     = (Undefined, []).
Proof.
  split; [|split].
  - destruct (C4_unrecognized_mode (plain (call_of_mode "sss" [1; 32; 32] [1; 32; 32]))
                eq_refl) as (_ & H & _).
    apply H. intros (_ & _ & m0 & m1 & m2 & _ & G1 & _ & Ra & _).
    injection G1 as <-. cbn in Ra. lia.
  - destruct (C4_unrecognized_mode
                (plain (call_of_mode "xyz" [2; 1; 32; 32] [2; 1; 32; 32])) eq_refl)
      as (_ & _ & H & _).
    destruct H as (out & shape & rest & H & _).
    + split; [cbn; lia|]. split; [cbn; lia|].
      exists "x"%char, "y"%char, "z"%char.
      repeat split; cbn; lia.
    + eauto.
  - apply (C4_unrecognized_mode
             (plain (call_of_mode "xyz" [2; 1; 32; 32] [2; 1; 32; 32])) eq_refl).
Defined.

(** C10 (amended): a call whose selector has fewer than three characters
    ends in an exception before any output buffer is allocated.  The
    exception is [std::out_of_range] from [std::string::at], unless a
    tensor read that precedes the failing character read fails, in which
    case it is the tensor library's index error: [size(0)] of a tensor of
    the selected layout that has no dimensions, or, for a two-character
    selector with second letter [d], the extent of [a] read on line 116.
    With three or more characters the character reads succeed, whatever
    the selector: [std::out_of_range] is never thrown. *)
Theorem C10_mode_length_precondition (c : General.call) :
  ((String.length (General.mode c) < 3)%nat ->
   (exists e, run (General.sparse_matmul c) = (Throws e, []))
   /\ (General.read_fails_first c ->
       run (General.sparse_matmul c) = (Throws IndexError, []))
   /\ (~ General.read_fails_first c ->
       run (General.sparse_matmul c) = (Throws out_of_range, [])))
  /\ ((3 <= String.length (General.mode c))%nat ->
      fst (run (General.sparse_matmul c)) <> Throws out_of_range).
Proof.
  split; [|apply sparse_matmul_long_selector].
  intros Hlen. destruct (sparse_matmul_short_selector c Hlen) as (H1 & H2).
  split; [|split; assumption].
  destruct (read_fails_first_dec c) as [F | F]; eauto.
Qed.

Lemma C10_mode_length_precondition_witness :
  run (General.sparse_matmul (plain (call_of_mode "sd" [1; 32; 32] [1; 32; 32])))
    = (Throws out_of_range, [])
  /\ run (General.sparse_matmul (plain call_xd_vector)) = (Throws IndexError, [])
  /\ run (General.sparse_matmul
            (with_scalar_block_lists (plain (call_of_mode "sd" [1; 32; 32] [1; 32; 32]))))
     = (Throws IndexError, [])
  /\ fst (run (General.sparse_matmul
                 (plain (call_of_mode "sdd" [1; 32; 32] [1; 32; 32]))))
     <> Throws out_of_range.
Proof.
  split; [|split; [|split]].
  - destruct (C10_mode_length_precondition
                (plain (call_of_mode "sd" [1; 32; 32] [1; 32; 32]))) as (H & _).
    destruct H as (_ & _ & H); [cbn; lia|]. apply H.
    intros [F | [F | (_ & F)]]; cbn in F; first [discriminate F | lia].
  - destruct (C10_mode_length_precondition (plain call_xd_vector)) as (H & _).
    destruct H as (_ & H & _); [cbn; lia|]. apply H.
    right. right. split; [exists "x"%char; reflexivity | cbn; lia].
  - destruct (C10_mode_length_precondition
                (with_scalar_block_lists
                   (plain (call_of_mode "sd" [1; 32; 32] [1; 32; 32])))) as (H & _).
    destruct H as (_ & H & _); [cbn; lia|]. apply H. left. reflexivity.
  - destruct (C10_mode_length_precondition
                (plain (call_of_mode "sdd" [1; 32; 32] [1; 32; 32]))) as (_ & H).
    apply H. cbn. lia.
Defined.

(** X8: what a call of [sparse_matmul] does, in order, whatever its tensor
    arguments.  Either it throws before anything is allocated, and then
    the exception comes from a character read, an extent read or
    flattening, or the slice of the leading dimensions; or it allocates
    exactly one buffer and then, [a] being single precision and [b] not,
    throws at the pointer access of line 149 without launching; or it
    allocates exactly one buffer, launches the SDD kernel exactly once
    when the operands are single precision and not at all when [a] is
    not, and then returns a shape with as many elements as the buffer or
    throws from the final reshape.  It never launches before allocating
    and never has undefined behaviour of its own. *)
Theorem X8_sparse_matmul_effects (c : General.call) :
  (exists e, run (General.sparse_matmul c) = (Throws e, [])
             /\ (e = out_of_range \/ e = IndexError \/ e = SliceError))
  \/ (exists shape,
        run (General.sparse_matmul c) = (Throws TypeError, [Alloc shape])
        /\ General.element_type (General.a c) = Float
        /\ General.element_type (General.b c) <> Float)
  \/ (exists out shape launches,
        run (General.sparse_matmul c) = (out, Alloc shape :: launches)
        /\ ((General.element_type (General.a c) = Float
             /\ General.element_type (General.b c) = Float
             /\ exists g args,
                  launches = [Launch sparse_matmul_sdd_32x32x8_kernel g THREADS args])
            \/ (General.element_type (General.a c) <> Float /\ launches = []))
        /\ (out = Throws ReshapeError
            \/ exists s, out = Returns s /\ Torch.numel s = Torch.numel shape)).
Proof.
  destruct (sparse_matmul_cases c)
    as [(_ & H) | (_ & shape & [H | (out & launches & H)])].
  - left. exact H.
  - right. left. exists shape. exact H.
  - right. right. exists out, shape, launches. exact H.
Qed.

(** A single-precision [a] with a half-precision [b]: the buffer is
    allocated, then the pointer access throws and nothing is launched. *)
Example b_of_another_type :
  run (General.sparse_matmul
         (with_b_type (plain (call_of_mode "sdd" [1; 32; 8] [1; 8; 32])) Half))
  = (Throws TypeError, [Alloc [1; 1; 32; 32]]).
Proof. vm_compute. reflexivity. Qed.

(** X14: what a call of [batched_sparse_matmul_op] does, in order,
    whatever its tensor arguments.  Either nothing is allocated and the
    call ends in undefined behaviour (no branch for the mode, or a pop
    from an empty vector), in the tensor library's index error, or in the
    rejection of a negative extent (a table without entries); or exactly
    one buffer is allocated and a pointer access throws because an operand
    is not single precision or a layout tensor is not of the expected
    integer type; or the buffer is followed by exactly one host operation,
    the one that belongs to the mode, after which the call returns a
    shape with as many elements as the buffer or throws from the final
    reshape. *)
Theorem X14_host_dispatcher_effects (c : General.call) :
  (run (General.batched_sparse_matmul_op c) = (Undefined, [])
   \/ run (General.batched_sparse_matmul_op c) = (Throws IndexError, [])
   \/ run (General.batched_sparse_matmul_op c) = (Throws SizeError, []))
  \/ (exists shape,
        run (General.batched_sparse_matmul_op c) = (Throws TypeError, [Alloc shape])
        /\ ~ General.host_types_expected c)
  \/ (exists out shape op args,
        run (General.batched_sparse_matmul_op c) = (out, [Alloc shape; CallOp op args])
        /\ General.host_types_expected c
        /\ host_op_of_mode (General.mode c) = Some op
        /\ (out = Throws ReshapeError
            \/ exists s, out = Returns s /\ Torch.numel s = Torch.numel shape)).
Proof.
  unfold General.batched_sparse_matmul_op, host_op_of_mode,
    General.host_types_expected, General.host_layout.
  destruct (String.eqb (General.mode c) "sdd") eqn:E1;
    [|destruct (String.eqb (General.mode c) "dsd") eqn:E2;
      [|destruct (String.eqb (General.mode c) "dds") eqn:E3; [|left; left; reflexivity]]];
    unfold_general;
    destruct_matches; cbn [app];
    first
      [ solve [left; left; reflexivity]
      | solve [left; right; left; reflexivity]
      | solve [left; right; right; reflexivity]
      | solve [right; left; eexists; split; [reflexivity|];
               intros (Ta & Tb & Ts & Tt);
               first [ discriminate Ta | discriminate Tb | discriminate Ts
                     | assert (Tt' := Tt ltac:(intros N; rewrite N in E1; discriminate E1));
                       discriminate Tt' ]]
      | right; right; eexists _, _, _, _; split; [reflexivity|];
        split;
        [ repeat split; try reflexivity;
          intros N; exfalso; apply N; now apply String.eqb_eq
        | split; [reflexivity|];
          match goal with
          | H : Torch.reshape _ _ = Some _ |- _ =>
              apply reshape_some in H; destruct H as [-> H]; right; eauto
          | _ => left; reflexivity
          end ] ].
Qed.

(** Single-precision operands with a table of 16-bit integers: the buffer
    is allocated, then the pointer access throws. *)
Example table_of_another_type :
  run (General.batched_sparse_matmul_op
         {| General.a := {| General.extents := [1; 1; 32; 32];
                            General.element_type := Float |};
            General.b := {| General.extents := [1; 32; 32];
                            General.element_type := Float |};
            General.mode := "dsd";
            General.row_layout :=
              {| General.block_list := vector General.Short [0; 0];
                 General.block_table := vector General.Short [0; 1] |};
            General.col_layout :=
              {| General.block_list := vector General.Short [0; 0];
                 General.block_table := vector General.Short [0; 1] |};
            General.trans_a := false; General.trans_b := false |})
  = (Throws TypeError, [Alloc [1; 32; 32]]).
Proof. vm_compute. reflexivity. Qed.

(** A table without entries: the sparse extent is -32 and the allocation
    is rejected. *)
Example table_without_entries :
  run (General.batched_sparse_matmul_op (plain call_dsd_empty_table))
  = (Throws SizeError, []).
Proof. vm_compute. reflexivity. Qed.

(** ** The kernel and its launches *)

(** *** Prefetch arguments *)

(** The priming prefetches pass (row origin, column origin, leading
    dimension). *)
Lemma prime_args_untransposed (m n size_m size_n size_k : Z) :
  prime_args_a false m size_m size_k
    = {| row_origin := m; col_origin := 0; leading_dimension := size_k |}
  /\ prime_args_b false n size_n size_k
     = {| row_origin := 0; col_origin := n; leading_dimension := size_n |}.
Proof. split; reflexivity. Qed.

(** The prefetches inside the loop pass the leading dimension first: the
    slab for K-offset k + 8 is requested with row origin [size_k], column
    origin [m] and leading dimension [k + 8]. *)
Lemma loop_args_untransposed (m n size_m size_n size_k k : Z) :
  loop_args_a false m size_m size_k k
    = {| row_origin := size_k; col_origin := m; leading_dimension := to_uint (k + 8) |}
  /\ loop_args_b false n size_n size_k k
     = {| row_origin := size_n; col_origin := to_uint (k + 8); leading_dimension := n |}.
Proof. split; reflexivity. Qed.

(** C5 at the failing input [size_k = 16], block row 1 ([m = 32]), first
    pass of the loop ([k = 0]), no transposition: the in-loop prefetch of A
    is issued with (row origin, column origin, leading dimension) =
    (16, 32, 8), where the order of the priming prefetch gives (32, 8, 16);
    the first slab element requested lies at offset 160 instead of 520. *)
Theorem C5_loop_prefetch_order :
  loop_args_a false 32 64 16 0
    = {| row_origin := 16; col_origin := 32; leading_dimension := 8 |}
  /\ loop_args_a false 32 64 16 0
     <> {| row_origin := 32; col_origin := 8; leading_dimension := 16 |}
  /\ prime_args_a false 32 64 16
     = {| row_origin := 32; col_origin := 0; leading_dimension := 16 |}
  /\ slab_address false (loop_args_a false 32 64 16 0) 0 0 = 160
  /\ slab_address false
       {| row_origin := 32; col_origin := 8; leading_dimension := 16 |} 0 0 = 520.
Proof.
  split; [reflexivity|]. split; [intros E; vm_compute in E; discriminate E|].
  repeat split; reflexivity.
Qed.

(** *** The SDD output block *)

(** C2 at the failing input: one batch, A of 32 x 16 with a single 1 at
    (0, 8), B of 16 x 32 all ones, the layout holding the block (0, 0).
    Element (0, 0) of the product is 1; thread 0 of the work-group stores
    0 there, because the slab for the second K step is fetched with the
    in-loop argument order of C5. *)
Theorem C2_sdd_block_two_steps :
  kernel_thread_f32 (unit_at 512 8) (all_ones 512) single_block 1 32 32 16
    false false (0, 0, 0) 0
    = Some [(0, f32_zero); (1, f32_zero); (2, f32_zero); (3, f32_zero)]
  /\ reference_element_f32 (unit_at 512 8) (all_ones 512) 0 0 16 32 0 0 = Some f32_one.
Proof. split; vm_compute; reflexivity. Qed.

(** With a single K step ([size_k = 8]) only the priming prefetch runs and
    the same thread stores the reference value. *)
Example sdd_block_one_step :
  kernel_thread_f32 (unit_at 256 3) (all_ones 256) single_block 1 32 32 8
    false false (0, 0, 0) 0
    = Some [(0, f32_one); (1, f32_one); (2, f32_one); (3, f32_one)]
  /\ reference_element_f32 (unit_at 256 3) (all_ones 256) 0 0 8 32 0 0 = Some f32_one.
Proof. split; vm_compute; reflexivity. Qed.

(** *** DSD on a fully dense layout *)

(** C1 at the failing input: A is the 32 x 64 matrix with a single 1 at
    (1, 0), stored as its two 32 x 32 blocks, B is the 64 x 32 matrix of
    ones.  The DSD call launches the SDD kernel on a 1 x 1 x 1 grid.  The
    kernel addresses A as a dense row-major 32 x 64 matrix: its first slab
    takes element (1, 0) from offset 64 of the block storage, which holds
    A(2, 0) = 0, while A(1, 0) = 1 lies at offset 32; a later in-loop
    prefetch leaves A's buffer, so the run of thread 1 has no defined
    result, where the dense product has 1 at (1, 0). *)
Theorem C1_dsd_runs_sdd_kernel :
  let A := unit_at 2048 64 in
  let A_blocks := to_blocks f32_zero A 32 64 in
  let B := all_ones 2048 in
  run (sparse_matmul call_dsd_dense)
    = (Returns [1; 32; 32],
       [Alloc [1; 32; 32];
        Launch sparse_matmul_sdd_32x32x8_kernel (1, 1, 1) 256
          {| arg_layout := dense_1x2_rows; arg_num_blocks := 2;
             arg_size_m := 32; arg_size_n := 32; arg_size_k := 64;
             arg_trans_a := false; arg_trans_b := false |}])
  /\ option_map (fun l => staged l 1 0)
       (prefetch (new_loader false) A_blocks 0 (prime_args_a false 0 32 64))
     = Some (load A_blocks 64)
  /\ load A_blocks 64 = Some f32_zero
  /\ load A_blocks 32 = Some f32_one
  /\ load A 64 = Some f32_one
  /\ kernel_thread_f32 A_blocks B dense_1x2_rows 2 32 32 64 false false (0, 0, 0) 1
     = None
  /\ reference_element_f32 A B 0 0 64 32 1 0 = Some f32_one.
Proof. cbv zeta. repeat split; vm_compute; reflexivity. Qed.

(** *** Coverage of the output buffer *)

(** C3 at the failing input: a DSD call whose dense output is 32 x 64.
    The buffer has 2048 elements and the grid is 1 x 1 x 2; the kernel
    ignores [blockIdx.z], so both work-groups store to offsets 0..1023:
    offset 0 is written twice and offset 1024 never, so the launch
    does not cover the buffer exactly. *)
Theorem C3_dsd_grid_coverage :
  run (sparse_matmul call_dsd_wide)
    = (Returns [1; 32; 64],
       [Alloc [1; 32; 64];
        Launch sparse_matmul_sdd_32x32x8_kernel (1, 1, 2) 256
          {| arg_layout := single_block; arg_num_blocks := 1;
             arg_size_m := 32; arg_size_n := 64; arg_size_k := 32;
             arg_trans_a := false; arg_trans_b := false |}])
  /\ Torch.numel [1; 32; 64] = 2048
  /\ exists ws,
       launch_write_offsets single_block 1 (1, 1, 2) 256 = Some ws
       /\ List.length ws = 2048%nat
       /\ count_occ Z.eq_dec ws 0 = 2%nat
       /\ count_occ Z.eq_dec ws 1024 = 0%nat
       /\ ~ exact_cover single_block 1 (1, 1, 2) THREADS 2048.
Proof.
  split; [vm_compute; reflexivity|]. split; [reflexivity|].
  eexists. split; [vm_compute; reflexivity|].
  split; [vm_compute; reflexivity|].
  split; [vm_compute; reflexivity|].
  split; [vm_compute; reflexivity|].
  intros (_ & Hcover).
  destruct (Hcover 0 ltac:(lia)) as (blk & t & j & _ & _ & _ & Huniq).
  assert (S0 : stores single_block 1 (0, 0, 0) 0 0 0)
    by (eexists; split; [vm_compute; reflexivity | reflexivity]).
  assert (S1 : stores single_block 1 (0, 0, 1) 0 0 0)
    by (eexists; split; [vm_compute; reflexivity | reflexivity]).
  assert (G0 : in_grid (1, 1, 2) (0, 0, 0)) by (cbn; lia).
  assert (G1 : in_grid (1, 1, 2) (0, 0, 1)) by (cbn; lia).
  assert (Ht : 0 <= 0 < THREADS) by (unfold THREADS; lia).
  destruct (Huniq _ _ _ G0 Ht S0) as (E0 & _).
  destruct (Huniq _ _ _ G1 Ht S1) as (E1 & _).
  rewrite <- E0 in E1. discriminate E1.
Qed.

(** In the SDD launch every store of a work-group within the grid goes to
    the tile of its block: offset
    [(y * num_blocks + x) * 1024 + lane * 32 + warp * 4 + j]. *)
Lemma stores_sdd (layout : layout_tensors) (nb nbat x y z t p : Z) (j : nat) :
  2 * nb <= Z.of_nat (List.length (layout_blocks layout)) ->
  nbat * nb * 1024 <= uint_modulus ->
  0 <= x < nb -> 0 <= y < nbat -> 0 <= t < 256 ->
  stores layout nb (x, y, z) t j p
  <-> (j < 4)%nat
      /\ p = (y * nb + x) * 1024 + (t mod 32) * 32 + (t / 32) * 4 + Z.of_nat j.
Proof.
  intros Hlen Hfit Hx Hy Ht. unfold stores, thread_write_offsets, layout_get.
  replace (x <? 0) with false by (symmetry; apply Z.ltb_ge; lia).
  destruct (nth_error (layout_blocks layout) (Z.to_nat (2 * x))) as [r|] eqn:E1;
    [|apply nth_error_None in E1; lia].
  destruct (nth_error (layout_blocks layout) (Z.to_nat (2 * x + 1))) as [q|] eqn:E2;
    [|apply nth_error_None in E2; lia].
  cbn [obind]. unfold offset_c_of, write_offsets, warpSize. cbn [idx].
  assert (Hlane : 0 <= t mod 32 < 32) by (apply Z.mod_pos_bound; lia).
  assert (Hwarp : 0 <= t / 32 < 8)
    by (split; [apply Z.div_pos; lia | apply Z.div_lt_upper_bound; lia]).
  assert (Hyn : 0 <= y * nb) by (apply Z.mul_nonneg_nonneg; lia).
  assert (Hyn' : (y + 1) * nb <= nbat * nb) by (apply Z.mul_le_mono_nonneg_r; lia).
  assert (Hq : 0 <= y * nb + x /\ (y * nb + x) * 1024 + 1024 <= uint_modulus) by lia.
  assert (Hc : to_uint ((y * nb + x) * 32 * 32) = (y * nb + x) * 1024)
    by (unfold to_uint; rewrite Z.mod_small; lia).
  rewrite Hc.
  assert (Hw : forall i, 0 <= i < 4 ->
             to_uint ((y * nb + x) * 1024 + t mod 32 * 32 + (t / 32 * 4 + i))
             = (y * nb + x) * 1024 + t mod 32 * 32 + t / 32 * 4 + i)
    by (intros i Hi; unfold to_uint; rewrite Z.mod_small; lia).
  unfold zrange. cbn [seq map].
  rewrite !Hw by lia.
  split.
  - intros (ws & Hws & Hn). injection Hws as <-.
    destruct j as [|[|[|[|j]]]]; cbn in Hn;
      [| | | | destruct j; discriminate Hn];
      injection Hn as <-; split; lia.
  - intros (Hj & ->). eexists. split; [reflexivity|].
    destruct j as [|[|[|[|j]]]]; try lia; cbn; f_equal; lia.
Qed.

(** In SDD mode the launch grid (num_blocks, num_batches) covers the
    output buffer of num_batches x num_blocks x 32 x 32 elements exactly,
    as long as the buffer's offsets fit 32 bits. *)
Theorem sdd_exact_cover (layout : layout_tensors) (nb nbat : Z) :
  0 <= nb -> 0 <= nbat ->
  2 * nb <= Z.of_nat (List.length (layout_blocks layout)) ->
  nbat * nb * 1024 <= uint_modulus ->
  exact_cover layout nb (nb, nbat, 1) THREADS (Torch.numel [nbat; nb; 32; 32]).
Proof.
  intros Hnb0 Hnbat0 Hlen Hfit. unfold exact_cover, THREADS.
  replace (Torch.numel [nbat; nb; 32; 32]) with (nbat * nb * 1024)
    by (unfold Torch.numel; cbn [fold_right]; ring).
  split.
  - intros [[x y] z] t j p (Hx & Hy & Hz) Ht Hs.
    apply (stores_sdd layout nb nbat x y z t p j Hlen Hfit Hx Hy Ht) in Hs.
    destruct Hs as (Hj & ->).
    assert (0 <= t mod 32 < 32) by (apply Z.mod_pos_bound; lia).
    assert (0 <= t / 32 < 8)
      by (split; [apply Z.div_pos; lia | apply Z.div_lt_upper_bound; lia]).
    assert (0 <= y * nb) by (apply Z.mul_nonneg_nonneg; lia).
    assert ((y + 1) * nb <= nbat * nb) by (apply Z.mul_le_mono_nonneg_r; lia).
    lia.
  - intros p Hp.
    assert (Hnb : 0 < nb)
      by (destruct (Z.eq_dec nb 0) as [E|E]; [rewrite E, Z.mul_0_r in Hp; lia | lia]).
    set (q := p / 1024). set (w := p mod 1024).
    assert (Hw : 0 <= w < 1024) by (apply Z.mod_pos_bound; lia).
    assert (Hpq : p = q * 1024 + w)
      by (unfold q, w; rewrite Z.mul_comm; apply Z.div_mod; lia).
    assert (Hq : 0 <= q < nbat * nb) by (unfold q in *; nia).
    set (y := q / nb). set (x := q mod nb).
    assert (Hx : 0 <= x < nb) by (apply Z.mod_pos_bound; lia).
    assert (Hqy : q = y * nb + x)
      by (unfold x, y; rewrite Z.mul_comm; apply Z.div_mod; lia).
    assert (Hy : 0 <= y < nbat) by nia.
    set (lane := w / 32). set (cl := w mod 32).
    assert (Hcl : 0 <= cl < 32) by (apply Z.mod_pos_bound; lia).
    assert (Hwl : w = lane * 32 + cl)
      by (unfold lane, cl; rewrite Z.mul_comm; apply Z.div_mod; lia).
    assert (Hlane : 0 <= lane < 32) by lia.
    set (warp := cl / 4). set (i := cl mod 4).
    assert (Hi : 0 <= i < 4) by (apply Z.mod_pos_bound; lia).
    assert (Hcw : cl = warp * 4 + i)
      by (unfold warp, i; rewrite Z.mul_comm; apply Z.div_mod; lia).
    assert (Hwarp : 0 <= warp < 8) by lia.
    assert (Ht : 0 <= warp * 32 + lane < 256) by lia.
    assert (Hm : (warp * 32 + lane) mod 32 = lane)
      by (rewrite Z.add_comm, Z.mod_add by lia; apply Z.mod_small; lia).
    assert (Hd : (warp * 32 + lane) / 32 = warp)
      by (rewrite Z.add_comm, Z.div_add by lia; rewrite Z.div_small; lia).
    exists (x, y, 0), (warp * 32 + lane), (Z.to_nat i).
    split; [cbn; lia|]. split; [lia|]. split.
    + apply (stores_sdd layout nb nbat x y 0 _ p _ Hlen Hfit Hx Hy Ht).
      rewrite Hm, Hd. split; lia.
    + intros [[x' y'] z'] t' j' (Hx' & Hy' & Hz') Ht' Hs.
      apply (stores_sdd layout nb nbat x' y' z' t' p j' Hlen Hfit Hx' Hy' Ht') in Hs.
      destruct Hs as (Hj' & Hp').
      assert (Hl' : 0 <= t' mod 32 < 32) by (apply Z.mod_pos_bound; lia).
      assert (Hw' : 0 <= t' / 32 < 8)
        by (split; [apply Z.div_pos; lia | apply Z.div_lt_upper_bound; lia]).
      assert (Ht'' : t' = 32 * (t' / 32) + t' mod 32) by (apply Z.div_mod; lia).
      assert (Hqq : y' * nb + x' = q) by lia.
      assert (Hyy : y' = y) by nia.
      assert (Hxx : x' = x) by nia.
      assert (Hzz : z' = 0) by lia.
      subst x' y' z'. repeat split; lia.
Qed.

(** *** One K step: the kernel computes the reference product *)

Section SingleStep.

Context {T : Type}.
Variable fzero : T.
Variables fadd fmul : T -> T -> T.

(** A slab inside its buffer can be read element by element. *)
Lemma slab_in_bounds_load (t : bool) (src : list T) (offset : Z)
    (p : prefetch_args) (r i : Z) :
  slab_in_bounds t src offset p = true ->
  0 <= r < 32 -> 0 <= i < 8 ->
  exists v, load src (offset + slab_address t p r i) = Some v.
Proof.
  unfold slab_in_bounds. intros H Hr Hi.
  rewrite forallb_forall in H.
  assert (Inr : In r (zrange 32)).
  { unfold zrange. apply in_map_iff. exists (Z.to_nat r). split; [lia|].
    apply in_seq. lia. }
  specialize (H r Inr). rewrite forallb_forall in H.
  assert (Ini : In i (zrange 8)).
  { unfold zrange. apply in_map_iff. exists (Z.to_nat i). split; [lia|].
    apply in_seq. lia. }
  specialize (H i Ini). cbv zeta in H.
  apply andb_true_iff in H. destruct H as [H1 H2].
  apply Z.leb_le in H1. apply Z.ltb_lt in H2.
  unfold load. replace (offset + slab_address t p r i <? 0) with false
    by (symmetry; apply Z.ltb_ge; lia).
  destruct (nth_error src (Z.to_nat (offset + slab_address t p r i))) eqn:E; eauto.
  apply nth_error_None in E. lia.
Qed.

(** X2: with [size_k = 8] and no transposition, every thread of a work-group
    whose block is in the layout stores, at its four offsets, the four
    reference elements of its row: the products of A's row [m + lane] with
    B's columns [n + warp * 4 + j], summed in ascending K order. *)
Theorem sdd_block_single_step (A B : list T) (layout : layout_tensors)
    (num_blocks size_m size_n bx by_ bz t : Z) (blk : sparse_block) :
  layout_get layout bx = Some blk ->
  0 <= t < 256 ->
  let m := to_uint (row blk * 32) in
  let n := to_uint (col blk * 32) in
  let offset_a := to_uint (by_ * size_m * 8) in
  let offset_b := to_uint (by_ * 8 * size_n) in
  slab_in_bounds false A offset_a (prime_args_a false m size_m 8) = true ->
  slab_in_bounds true B offset_b (prime_args_b false n size_n 8) = true ->
  kernel_thread fzero fadd fmul A B layout num_blocks size_m size_n 8
    false false (bx, by_, bz) t
  = option_map
      (combine (write_offsets (offset_c_of num_blocks (bx, by_, bz) blk)
                  (t mod 32) (t / 32)))
      (sequence
         (map (fun j =>
                 reference_element fzero fadd fmul A B offset_a offset_b 8 size_n
                   (m + t mod 32) (n + (t / 32 * 4 + j)))
              (zrange 4))).
Proof.
  intros Hget Ht m n offset_a offset_b Ha Hb.
  assert (Hlane : 0 <= t mod 32 < 32) by (apply Z.mod_pos_bound; lia).
  assert (Hwarp : 0 <= t / 32 < 8)
    by (split; [apply Z.div_pos; lia | apply Z.div_lt_upper_bound; lia]).
  (* the forty elements read by the thread *)
  assert (LA : forall i, 0 <= i < 8 ->
             exists v, load A (offset_a + ((m + t mod 32) * 8 + i)) = Some v).
  { intros i Hi.
    destruct (slab_in_bounds_load _ _ _ _ (t mod 32) i Ha Hlane Hi) as [v Hv].
    exists v. rewrite <- Hv. f_equal; unfold slab_address, prime_args_a;
      cbn [row_origin col_origin leading_dimension]; lia. }
  assert (LB : forall j i, 0 <= j < 4 -> 0 <= i < 8 ->
             exists v, load B (offset_b + (i * size_n + (n + (t / 32 * 4 + j)))) = Some v).
  { intros j i Hj Hi.
    destruct (slab_in_bounds_load _ _ _ _ (t / 32 * 4 + j) i Hb ltac:(lia) Hi) as [v Hv].
    exists v. rewrite <- Hv. f_equal; unfold slab_address, prime_args_b;
      cbn [row_origin col_origin leading_dimension]; lia. }
  unfold kernel_thread. rewrite Hget. cbn [obind]. unfold prefetch. cbn [new_loader loader_trans negb].
  fold m n offset_a offset_b. rewrite Ha, Hb. cbn [obind].
  change (uint_modulus - 8 <? 8) with false. cbv iota.
  change (k_steps 8) with [0]. unfold warpSize.
  cbn [k_loop]. unfold k_body.
  change (to_uint (0 + 8) <? 8) with false. cbv iota. cbn [obind fst snd].
  cbn [loader_a loader_b storage_a storage_b accumulator staged].
  unfold zrange. cbn [seq map Z.of_nat Pos.of_succ_nat Pos.succ].
  unfold reference_element, zrange. change (Z.to_nat 8) with 8%nat.
  cbn [seq map Z.of_nat Pos.of_succ_nat Pos.succ fold_left].
  unfold accumulate_all, accumulate, storage_get, commit.
  change (0 / 8 mod 2) with 0. change (0 =? 0) with true. cbv iota.
  unfold zrange. cbn [seq map Z.of_nat Pos.of_succ_nat Pos.succ sequence].
  unfold slab_address, prime_args_a, prime_args_b.
  cbn [row_origin col_origin leading_dimension].
  cbn [staged]. cbv beta.
  change (0 + 0) with 0. change (0 + 1) with 1. change (0 + 2) with 2.
  change (0 + 3) with 3. change (0 + 4) with 4. change (0 + 5) with 5.
  change (0 + 6) with 6. change (0 + 7) with 7.
  repeat match goal with
         | |- context [load A (offset_a + ?e)] =>
             let v := fresh "a" in
             let Hv := fresh "Hv" in
             destruct (LA (e - (m + t mod 32) * 8) ltac:(lia)) as [v Hv];
             replace (offset_a + ((m + t mod 32) * 8 + (e - (m + t mod 32) * 8)))
               with (offset_a + e) in Hv by lia;
             rewrite !Hv; clear Hv
         | |- context [load B (offset_b + (?k * size_n + (n + (t / 32 * 4 + ?j))))] =>
             let v := fresh "b" in
             let Hv := fresh "Hv" in
             destruct (LB j k ltac:(lia) ltac:(lia)) as [v Hv];
             rewrite !Hv; clear Hv
         end.
  cbn [obind map2 option_map]. reflexivity.
Qed.

End SingleStep.

(** *** The SDD launch of [sparse_matmul] *)

(** A valid SDD call allocates the output buffer and launches a grid
    whose store offsets cover it exactly: the offsets of every thread lie
    inside the buffer and every element of the buffer is the target of
    exactly one of them. *)
Corollary sdd_call_exact_cover (c : call) (pa pb : Torch.sizes) (a2 a1 b2 b1 : Z) :
  pa <> [] -> pb <> [] -> fits_uint (Torch.numel pa) ->
  mode c = "sdd"%string -> dtype c = Float ->
  a c = pa ++ [a2; a1] -> b c = pb ++ [b2; b1] ->
  Torch.numel pa
    * to_uint (Z.of_nat (List.length (layout_blocks (row_layout c))) / 2)
    * 1024 <= uint_modulus ->
  exists s shape g args,
    run (sparse_matmul c)
      = (Returns s, [Alloc shape; Launch sparse_matmul_sdd_32x32x8_kernel g THREADS args])
    /\ exact_cover (arg_layout args) (arg_num_blocks args) g THREADS (Torch.numel shape).
Proof.
  intros Hpa Hpb Hbatch Hm Hty Ha Hb Hfit.
  rewrite (sparse_matmul_sdd c pa pb a2 a1 b2 b1 Hpa Hpb Hbatch Hm Ha Hb), Hty.
  eexists _, _, _, _. split; [reflexivity|]. cbn [arg_layout arg_num_blocks].
  set (len := Z.of_nat (List.length (layout_blocks (row_layout c)))) in *.
  assert (Hlen : 0 <= len) by (unfold len; lia).
  assert (Hhalf : 0 <= len / 2) by (apply Z.div_pos; lia).
  assert (Hnb : 0 <= to_uint (len / 2) <= len / 2).
  { unfold to_uint, uint_modulus. split.
    - apply Z.mod_pos_bound. lia.
    - apply Z.mod_le; lia. }
  apply sdd_exact_cover; try lia.
  - apply Hbatch.
  - pose proof (Z.mul_div_le len 2 ltac:(lia)). lia.
Qed.

(** * Further properties of the kernel *)

Section OneStep.

Context {T : Type}.
Variable fzero : T.
Variables fadd fmul : T -> T -> T.

Lemma k_steps_one (size_k : Z) : 0 < size_k <= 8 -> k_steps size_k = [0].
Proof.
  intros H. unfold k_steps.
  replace ((size_k + 7) / 8) with 1; [reflexivity|].
  apply Z.div_unique with (r := size_k - 1); lia.
Qed.

(** One pass of the K loop, whatever the transposition flags: with
    [0 < size_k <= 8] the thread consumes the two slabs of the priming
    prefetch, all eight positions of them. *)
Lemma kernel_one_step (A B : list T) (layout : layout_tensors)
    (num_blocks size_m size_n size_k bx by_ bz t : Z) (trans_a trans_b : bool)
    (blk : sparse_block) :
  layout_get layout bx = Some blk ->
  0 <= t < 256 ->
  0 < size_k <= 8 ->
  let m := to_uint (row blk * 32) in
  let n := to_uint (col blk * 32) in
  let offset_a := to_uint (by_ * size_m * size_k) in
  let offset_b := to_uint (by_ * size_k * size_n) in
  let pa := prime_args_a trans_a m size_m size_k in
  let pb := prime_args_b trans_b n size_n size_k in
  slab_in_bounds trans_a A offset_a pa = true ->
  slab_in_bounds (negb trans_b) B offset_b pb = true ->
  kernel_thread fzero fadd fmul A B layout num_blocks size_m size_n size_k
    trans_a trans_b (bx, by_, bz) t
  = option_map
      (combine (write_offsets (offset_c_of num_blocks (bx, by_, bz) blk)
                  (t mod 32) (t / 32)))
      (sequence
         (map (fun j =>
                 eight_term_sum fzero fadd fmul A B
                   (fun i => offset_a + slab_address trans_a pa (t mod 32) i)
                   (fun i => offset_b
                             + slab_address (negb trans_b) pb (t / 32 * 4 + j) i))
              (zrange 4))).
Proof.
  intros Hget Ht Hk m n offset_a offset_b pa pb Ha Hb.
  assert (Hlane : 0 <= t mod 32 < 32) by (apply Z.mod_pos_bound; lia).
  assert (Hwarp : 0 <= t / 32 < 8)
    by (split; [apply Z.div_pos; lia | apply Z.div_lt_upper_bound; lia]).
  pose proof (fun i => slab_in_bounds_load _ _ _ _ (t mod 32) i Ha Hlane) as LA.
  pose proof (fun j (Hj : 0 <= j < 4) i =>
                slab_in_bounds_load _ _ _ _ (t / 32 * 4 + j) i Hb ltac:(lia)) as LB.
  unfold kernel_thread. rewrite Hget. cbn [obind]. unfold prefetch.
  cbn [new_loader loader_trans].
  fold m n offset_a offset_b. fold pa pb. rewrite Ha, Hb. cbn [obind].
  replace (uint_modulus - 8 <? size_k) with false
    by (symmetry; apply Z.ltb_ge; unfold uint_modulus; lia).
  rewrite (k_steps_one size_k Hk). unfold warpSize.
  cbn [k_loop]. unfold k_body.
  replace (to_uint (0 + 8) <? size_k) with false
    by (symmetry; apply Z.ltb_ge; change (to_uint (0 + 8)) with 8; lia).
  cbn [obind fst snd].
  cbn [loader_a loader_b storage_a storage_b accumulator staged].
  unfold eight_term_sum, zrange.
  cbn [seq map Z.of_nat Pos.of_succ_nat Pos.succ fold_left].
  unfold accumulate_all, accumulate, storage_get, commit.
  change (0 / 8 mod 2) with 0. change (0 =? 0) with true. cbv iota.
  unfold zrange. cbn [seq map Z.of_nat Pos.of_succ_nat Pos.succ sequence].
  cbn [staged]. cbv beta.
  repeat match goal with
         | |- context [load A (offset_a + slab_address trans_a pa (t mod 32) ?i)] =>
             let v := fresh "a" in
             let Hv := fresh "Hv" in
             destruct (LA i ltac:(lia)) as [v Hv]; rewrite !Hv; clear Hv
         | |- context [load B (offset_b
                               + slab_address (negb trans_b) pb (t / 32 * 4 + ?j) ?i)] =>
             let v := fresh "b" in
             let Hv := fresh "Hv" in
             destruct (LB j ltac:(lia) i ltac:(lia)) as [v Hv]; rewrite !Hv; clear Hv
         end.
  cbn [obind map2 option_map]. reflexivity.
Qed.

End OneStep.

Lemma fold_left_pointwise {A B : Type} (f g : A -> B -> A) (l : list B) (x : A) :
  (forall s y, f s y = g s y) -> fold_left f l x = fold_left g l x.
Proof.
  intros H. revert x. induction l as [|y l IH]; intros x; cbn; [reflexivity|].
  now rewrite H, IH.
Qed.

Lemma eight_term_sum_pointwise {T : Type} (fzero : T) (fadd fmul : T -> T -> T)
    (A B : list T) (xa xa' xb xb' : Z -> Z) :
  (forall i, xa i = xa' i) -> (forall i, xb i = xb' i) ->
  eight_term_sum fzero fadd fmul A B xa xb
  = eight_term_sum fzero fadd fmul A B xa' xb'.
Proof.
  intros Ha Hb. unfold eight_term_sum. apply fold_left_pointwise.
  intros s i. now rewrite Ha, Hb.
Qed.

Section KernelEdges.

Context {T : Type}.
Variable fzero : T.
Variables fadd fmul : T -> T -> T.

(** X3: with [size_k = 8], for every combination of the transposition
    flags, a thread stores at its four offsets the products of row
    [m + lane] of op(A) with columns [n + warp * 4 + j] of op(B), where a
    transposed A is stored size_k x size_m and a transposed B is stored
    size_n x size_k, each summed over the eight K positions in ascending
    order. *)
Theorem X3_single_step_transposed (A B : list T) (layout : layout_tensors)
    (num_blocks size_m size_n bx by_ bz t : Z) (trans_a trans_b : bool)
    (blk : sparse_block) :
  layout_get layout bx = Some blk ->
  0 <= t < 256 ->
  let m := to_uint (row blk * 32) in
  let n := to_uint (col blk * 32) in
  let offset_a := to_uint (by_ * size_m * 8) in
  let offset_b := to_uint (by_ * 8 * size_n) in
  slab_in_bounds trans_a A offset_a (prime_args_a trans_a m size_m 8) = true ->
  slab_in_bounds (negb trans_b) B offset_b (prime_args_b trans_b n size_n 8) = true ->
  kernel_thread fzero fadd fmul A B layout num_blocks size_m size_n 8
    trans_a trans_b (bx, by_, bz) t
  = option_map
      (combine (write_offsets (offset_c_of num_blocks (bx, by_, bz) blk)
                  (t mod 32) (t / 32)))
      (sequence
         (map (fun j =>
                 eight_term_sum fzero fadd fmul A B
                   (fun k => offset_a + element_a trans_a size_m 8 (m + t mod 32) k)
                   (fun k => offset_b
                             + element_b trans_b 8 size_n k (n + (t / 32 * 4 + j))))
              (zrange 4))).
Proof.
  intros Hget Ht m n offset_a offset_b Ha Hb.
  rewrite (kernel_one_step fzero fadd fmul A B layout num_blocks size_m size_n 8
             bx by_ bz t trans_a trans_b blk Hget Ht ltac:(lia) Ha Hb).
  fold m n offset_a offset_b. f_equal. f_equal. apply map_ext. intros j.
  apply eight_term_sum_pointwise; intros i;
    unfold slab_address, prime_args_a, prime_args_b, element_a, element_b;
    destruct trans_a, trans_b; cbn [negb row_origin col_origin leading_dimension]; lia.
Qed.

(** X4: a partial K step is not masked.  With [0 < size_k <= 8] and no
    transposition the single pass of the loop still consumes eight
    positions: position [i] of A is read at offset
    [(m + lane) * size_k + i] and of B at offset
    [i * size_n + n + warp * 4 + j], so for [size_k < 8] the positions from
    [size_k] on are the first elements of A's next row and rows of B past
    the K-th. *)
Theorem X4_partial_step_not_masked (A B : list T) (layout : layout_tensors)
    (num_blocks size_m size_n size_k bx by_ bz t : Z) (blk : sparse_block) :
  layout_get layout bx = Some blk ->
  0 <= t < 256 ->
  0 < size_k <= 8 ->
  let m := to_uint (row blk * 32) in
  let n := to_uint (col blk * 32) in
  let offset_a := to_uint (by_ * size_m * size_k) in
  let offset_b := to_uint (by_ * size_k * size_n) in
  slab_in_bounds false A offset_a (prime_args_a false m size_m size_k) = true ->
  slab_in_bounds true B offset_b (prime_args_b false n size_n size_k) = true ->
  kernel_thread fzero fadd fmul A B layout num_blocks size_m size_n size_k
    false false (bx, by_, bz) t
  = option_map
      (combine (write_offsets (offset_c_of num_blocks (bx, by_, bz) blk)
                  (t mod 32) (t / 32)))
      (sequence
         (map (fun j =>
                 eight_term_sum fzero fadd fmul A B
                   (fun i => offset_a + ((m + t mod 32) * size_k + i))
                   (fun i => offset_b + (i * size_n + (n + (t / 32 * 4 + j)))))
              (zrange 4))).
Proof.
  intros Hget Ht Hk m n offset_a offset_b Ha Hb.
  rewrite (kernel_one_step fzero fadd fmul A B layout num_blocks size_m size_n size_k
             bx by_ bz t false false blk Hget Ht Hk Ha Hb).
  reflexivity.
Qed.

(** X5: with [size_k = 0] no pass of the K loop runs and every thread
    stores the initial accumulator, zero, at its four offsets; the priming
    prefetch is issued all the same, so the two slabs must lie inside the
    operand buffers, and on an empty A buffer the run has no defined
    result. *)
Theorem X5_zero_reduction_length (A B : list T) (layout : layout_tensors)
    (num_blocks size_m size_n bx by_ bz t : Z) (trans_a trans_b : bool)
    (blk : sparse_block) :
  layout_get layout bx = Some blk ->
  (slab_in_bounds trans_a A 0
     (prime_args_a trans_a (to_uint (row blk * 32)) size_m 0) = true ->
   slab_in_bounds (negb trans_b) B 0
     (prime_args_b trans_b (to_uint (col blk * 32)) size_n 0) = true ->
   kernel_thread fzero fadd fmul A B layout num_blocks size_m size_n 0
     trans_a trans_b (bx, by_, bz) t
   = Some (combine (write_offsets (offset_c_of num_blocks (bx, by_, bz) blk)
                      (t mod 32) (t / 32))
                   [fzero; fzero; fzero; fzero]))
  /\ kernel_thread fzero fadd fmul [] B layout num_blocks size_m size_n 0
       trans_a trans_b (bx, by_, bz) t = None.
Proof.
  intros Hget. split.
  - intros Ha Hb. unfold kernel_thread. rewrite Hget. cbn [obind].
    unfold prefetch. cbn [new_loader loader_trans].
    replace (to_uint (by_ * size_m * 0)) with 0
      by (rewrite Z.mul_0_r; reflexivity).
    replace (to_uint (by_ * 0 * size_n)) with 0
      by (rewrite Z.mul_0_r, Z.mul_0_l; reflexivity).
    rewrite Ha, Hb. reflexivity.
  - unfold kernel_thread. rewrite Hget. cbn [obind].
    unfold prefetch, slab_in_bounds. cbn [new_loader loader_trans].
    unfold zrange. cbn [seq map forallb List.length Z.of_nat].
    match goal with
    | |- context [(0 <=? ?q) && (?q <? 0)] =>
        replace ((0 <=? q) && (q <? 0))%bool with false
          by (symmetry; destruct (Z.leb_spec 0 q), (Z.ltb_spec q 0); try reflexivity; lia)
    end.
    reflexivity.
Qed.

(** X6: the K loop never reads a half of shared storage it has not just
    committed.  Two runs of the loop that start with the same loaders and
    accumulator, whatever the two halves of either shared storage hold,
    leave the same accumulator and loaders. *)
Theorem X6_loop_ignores_stale_storage (A B : list T)
    (size_m size_n size_k : Z) (trans_a trans_b : bool)
    (m n offset_a offset_b lane_idx warp_idx : Z)
    (ks : list Z) (st1 st2 : thread_state) :
  loader_a st1 = loader_a st2 ->
  loader_b st1 = loader_b st2 ->
  accumulator st1 = accumulator st2 ->
  option_map registers
    (k_loop fadd fmul A B size_m size_n size_k trans_a trans_b
       m n offset_a offset_b lane_idx warp_idx st1 ks)
  = option_map registers
      (k_loop fadd fmul A B size_m size_n size_k trans_a trans_b
         m n offset_a offset_b lane_idx warp_idx st2 ks).
Proof.
  revert st1 st2. induction ks as [|k ks IH]; intros st1 st2 Hla Hlb Hacc.
  - cbn. unfold registers. now rewrite Hla, Hlb, Hacc.
  - cbn [k_loop].
    assert (Hread : forall (la lb : loader) (s1 s1' s2 s2' : storage) positions acc,
               accumulate_all fadd fmul (commit la s1 (k / 8 mod 2))
                 (commit lb s1' (k / 8 mod 2)) k lane_idx warp_idx acc positions
               = accumulate_all fadd fmul (commit la s2 (k / 8 mod 2))
                   (commit lb s2' (k / 8 mod 2)) k lane_idx warp_idx acc positions).
    { intros la lb s1 s1' s2 s2' positions.
      induction positions as [|i rest IHp]; intros acc; [reflexivity|].
      cbn [accumulate_all]. unfold accumulate, storage_get, commit.
      rewrite Z.eqb_refl.
      destruct (sequence _) as [local_b|]; [|reflexivity]. cbn [obind].
      destruct (staged la lane_idx i) as [local_a|]; [|reflexivity]. cbn [obind].
      apply IHp. }
    unfold k_body. rewrite Hla, Hlb, Hacc.
    rewrite (Hread (loader_a st2) (loader_b st2)
               (storage_a st1) (storage_b st1) (storage_a st2) (storage_b st2)).
    destruct (if to_uint (k + 8) <? size_k then _ else _) as [[la lb]|];
      [|reflexivity].
    cbn [obind fst snd].
    destruct (accumulate_all _ _ _ _ _ _ _ _ _) as [acc|]; [|reflexivity].
    cbn [obind]. apply IH; reflexivity.
Qed.

End KernelEdges.

(** X7: output offsets are computed in 32-bit arithmetic.  When
    [d * num_blocks] is a multiple of 2^22 (so that [d * num_blocks] tiles
    of 1024 elements make a multiple of 2^32 elements), the work-groups
    with batch index [y] and [y + d] store to the same offsets. *)
Theorem X7_output_offsets_wrap (layout : layout_tensors)
    (num_blocks x y z z' d t : Z) :
  (d * num_blocks) mod 4194304 = 0 ->
  thread_write_offsets layout num_blocks (x, y + d, z) t
  = thread_write_offsets layout num_blocks (x, y, z') t.
Proof.
  intros Hd. unfold thread_write_offsets.
  destruct (layout_get layout x) as [blk|]; [|reflexivity]. cbn [obind].
  f_equal. f_equal. unfold offset_c_of, to_uint, uint_modulus.
  apply Z.mod_divide in Hd; [|lia]. destruct Hd as [q Hq].
  replace (((y + d) * num_blocks + idx blk) * 32 * 32)
    with ((y * num_blocks + idx blk) * 32 * 32 + q * 2 ^ 32) by lia.
  apply Z.mod_add. lia.
Qed.

Lemma X7_output_offsets_wrap_witness :
  thread_write_offsets single_block 4194304 (0, 0 + 1, 0) 5
  = thread_write_offsets single_block 4194304 (0, 0, 0) 5.
Proof. apply (X7_output_offsets_wrap single_block 4194304 0 0 0 0 1 5). reflexivity. Defined.

(** *** Instances *)

Lemma X2_sdd_block_single_step_witness :
  kernel_thread f32_zero f32_add f32_mul (all_ones 256) (all_ones 256)
    single_block 1 32 32 8 false false (0, 0, 0) 37
  = option_map
      (combine (write_offsets (offset_c_of 1 (0, 0, 0) block_0_0) (37 mod 32) (37 / 32)))
      (sequence
         (map (fun j =>
                 reference_element f32_zero f32_add f32_mul (all_ones 256) (all_ones 256)
                   (to_uint (0 * 32 * 8)) (to_uint (0 * 8 * 32)) 8 32
                   (to_uint (row block_0_0 * 32) + 37 mod 32)
                   (to_uint (col block_0_0 * 32) + (37 / 32 * 4 + j)))
              (zrange 4))).
Proof.
  apply (sdd_block_single_step f32_zero f32_add f32_mul (all_ones 256) (all_ones 256)
           single_block 1 32 32 0 0 0 37 block_0_0);
    [reflexivity | lia | vm_compute; reflexivity | vm_compute; reflexivity].
Defined.

Lemma X3_single_step_transposed_witness :
  kernel_thread f32_zero f32_add f32_mul (all_ones 256) (all_ones 256)
    single_block 1 32 32 8 true true (0, 0, 0) 37
  = option_map
      (combine (write_offsets (offset_c_of 1 (0, 0, 0) block_0_0) (37 mod 32) (37 / 32)))
      (sequence
         (map (fun j =>
                 eight_term_sum f32_zero f32_add f32_mul (all_ones 256) (all_ones 256)
                   (fun k => to_uint (0 * 32 * 8)
                             + element_a true 32 8 (to_uint (row block_0_0 * 32) + 37 mod 32) k)
                   (fun k => to_uint (0 * 8 * 32)
                             + element_b true 8 32 k
                                 (to_uint (col block_0_0 * 32) + (37 / 32 * 4 + j))))
              (zrange 4))).
Proof.
  apply (X3_single_step_transposed f32_zero f32_add f32_mul (all_ones 256) (all_ones 256)
           single_block 1 32 32 0 0 0 37 true true block_0_0);
    [reflexivity | lia | vm_compute; reflexivity | vm_compute; reflexivity].
Defined.

Lemma X4_partial_step_not_masked_witness :
  kernel_thread f32_zero f32_add f32_mul (all_ones 256) (all_ones 256)
    single_block 1 32 32 4 false false (0, 0, 0) 37
  = option_map
      (combine (write_offsets (offset_c_of 1 (0, 0, 0) block_0_0) (37 mod 32) (37 / 32)))
      (sequence
         (map (fun j =>
                 eight_term_sum f32_zero f32_add f32_mul (all_ones 256) (all_ones 256)
                   (fun i => to_uint (0 * 32 * 4)
                             + ((to_uint (row block_0_0 * 32) + 37 mod 32) * 4 + i))
                   (fun i => to_uint (0 * 4 * 32)
                             + (i * 32 + (to_uint (col block_0_0 * 32) + (37 / 32 * 4 + j)))))
              (zrange 4))).
Proof.
  apply (X4_partial_step_not_masked f32_zero f32_add f32_mul (all_ones 256) (all_ones 256)
           single_block 1 32 32 4 0 0 0 37 block_0_0);
    [reflexivity | lia | lia | vm_compute; reflexivity | vm_compute; reflexivity].
Defined.

(** With [size_k = 4] and operands of ones, each stored element is 8, not 4. *)
Example partial_step_of_ones :
  kernel_thread_f32 (all_ones 256) (all_ones 256) single_block 1 32 32 4
    false false (0, 0, 0) 0
  = Some [(0, S754_finite false 8388608 (-20)); (1, S754_finite false 8388608 (-20));
          (2, S754_finite false 8388608 (-20)); (3, S754_finite false 8388608 (-20))].
Proof. vm_compute. reflexivity. Qed.

Lemma X5_zero_reduction_length_witness :
  kernel_thread f32_zero f32_add f32_mul (all_ones 8) (all_ones 256)
    single_block 1 32 32 0 false false (0, 0, 0) 37
  = Some (combine (write_offsets (offset_c_of 1 (0, 0, 0) block_0_0) (37 mod 32) (37 / 32))
            [f32_zero; f32_zero; f32_zero; f32_zero])
  /\ kernel_thread f32_zero f32_add f32_mul [] (all_ones 256)
       single_block 1 32 32 0 false false (0, 0, 0) 37 = None.
Proof.
  destruct (X5_zero_reduction_length f32_zero f32_add f32_mul (all_ones 8) (all_ones 256)
              single_block 1 32 32 0 0 0 37 false false block_0_0 eq_refl) as (H1 & _).
  destruct (X5_zero_reduction_length f32_zero f32_add f32_mul (all_ones 8) (all_ones 256)
              single_block 1 32 32 0 0 0 37 false false block_0_0 eq_refl) as (_ & H2).
  split; [apply H1; vm_compute; reflexivity | exact H2].
Defined.

Lemma X6_loop_ignores_stale_storage_witness :
  option_map registers
    (k_loop f32_add f32_mul (all_ones 512) (all_ones 512) 32 32 16 false false
       0 0 0 0 5 1 state_clean [0; 8])
  = option_map registers
      (k_loop f32_add f32_mul (all_ones 512) (all_ones 512) 32 32 16 false false
         0 0 0 0 5 1 state_stale [0; 8]).
Proof.
  apply (X6_loop_ignores_stale_storage f32_add f32_mul (all_ones 512) (all_ones 512)
           32 32 16 false false 0 0 0 0 5 1 [0; 8] state_clean state_stale);
    reflexivity.
Defined.

(** *** The K loop *)

Lemma in_k_steps (size_k k : Z) :
  0 <= size_k ->
  In k (k_steps size_k) <-> (0 <= k < size_k /\ k mod 8 = 0).
Proof.
  intros Hk. unfold k_steps, zrange.
  pose proof (Z.div_mod (size_k + 7) 8 ltac:(lia)) as E.
  pose proof (Z.mod_pos_bound (size_k + 7) 8 ltac:(lia)) as B.
  assert (HN : 0 <= (size_k + 7) / 8) by (apply Z.div_pos; lia).
  rewrite map_map, in_map_iff. split.
  - intros (s & <- & Hs). apply in_seq in Hs.
    split; [lia|]. rewrite Z.mul_comm. apply Z.mod_mul. lia.
  - intros (Hr & Hm).
    pose proof (Z.div_mod k 8 ltac:(lia)) as Ek. rewrite Hm in Ek.
    assert (0 <= k / 8) by (apply Z.div_pos; lia).
    exists (Z.to_nat (k / 8)). split; [lia|]. apply in_seq. lia.
Qed.

Section DoubleBuffer.

Context {T : Type}.
Variables fadd fmul : T -> T -> T.
Variables matrix_a matrix_b : list T.
Variables size_m size_n size_k : Z.
Variables trans_a trans_b : bool.
Variables m n offset_a offset_b lane_idx warp_idx : Z.

Let body := k_body fadd fmul matrix_a matrix_b size_m size_n size_k trans_a trans_b
              m n offset_a offset_b lane_idx warp_idx.

Lemma k_body_storage (st st' : thread_state) (k : Z) :
  body st k = Some st' ->
  storage_a st' = commit (loader_a st) (storage_a st) (k / 8 mod 2)
  /\ storage_b st' = commit (loader_b st) (storage_b st) (k / 8 mod 2).
Proof.
  unfold body, k_body.
  destruct (if to_uint (k + 8) <? size_k then _ else _) as [loaders|]; [|discriminate].
  cbn [obind].
  destruct (accumulate_all _ _ _ _ _ _ _ _ _) as [acc|]; [|discriminate].
  cbn [obind]. intros H. injection H as <-. split; reflexivity.
Qed.

(** X17: two consecutive passes of the K loop commit to different halves
    of shared storage.  After the passes at [k] and [k + 8] the half
    written at [k] still holds the slab committed there, and the other
    half holds the slab committed at [k + 8]. *)
Theorem X17_double_buffer (st st' st'' : thread_state) (k : Z) :
  0 <= k ->
  body st k = Some st' ->
  body st' (k + 8) = Some st'' ->
  (k + 8) / 8 mod 2 <> k / 8 mod 2
  /\ storage_a st'' (k / 8 mod 2) = staged (loader_a st)
  /\ storage_b st'' (k / 8 mod 2) = staged (loader_b st)
  /\ storage_a st'' ((k + 8) / 8 mod 2) = staged (loader_a st')
  /\ storage_b st'' ((k + 8) / 8 mod 2) = staged (loader_b st').
Proof.
  intros Hk H1 H2.
  destruct (k_body_storage _ _ _ H1) as (A1 & B1).
  destruct (k_body_storage _ _ _ H2) as (A2 & B2).
  assert (Hpar : (k + 8) / 8 mod 2 <> k / 8 mod 2).
  { replace (k + 8) with (k + 1 * 8) by lia. rewrite Z.div_add by lia.
    pose proof (Z.div_mod (k / 8) 2 ltac:(lia)).
    pose proof (Z.div_mod (k / 8 + 1) 2 ltac:(lia)).
    pose proof (Z.mod_pos_bound (k / 8) 2 ltac:(lia)).
    pose proof (Z.mod_pos_bound (k / 8 + 1) 2 ltac:(lia)).
    lia. }
  split; [exact Hpar|].
  rewrite A2, B2, A1, B1. unfold commit.
  rewrite !Z.eqb_refl.
  replace (k / 8 mod 2 =? (k + 8) / 8 mod 2) with false
    by (symmetry; apply Z.eqb_neq; congruence).
  repeat split; reflexivity.
Qed.

End DoubleBuffer.

Lemma X17_double_buffer_witness :
  exists st' st'',
    k_body f32_add f32_mul (all_ones 512) (all_ones 512) 32 32 16 false false
      0 0 0 0 5 1 state_clean 0 = Some st'
    /\ k_body f32_add f32_mul (all_ones 512) (all_ones 512) 32 32 16 false false
         0 0 0 0 5 1 st' (0 + 8) = Some st''
    /\ (0 + 8) / 8 mod 2 <> 0 / 8 mod 2
    /\ storage_a st'' (0 / 8 mod 2) = staged (loader_a state_clean)
    /\ storage_b st'' (0 / 8 mod 2) = staged (loader_b state_clean)
    /\ storage_a st'' ((0 + 8) / 8 mod 2) = staged (loader_a st')
    /\ storage_b st'' ((0 + 8) / 8 mod 2) = staged (loader_b st').
Proof.
  destruct (k_body f32_add f32_mul (all_ones 512) (all_ones 512) 32 32 16 false false
              0 0 0 0 5 1 state_clean 0) as [st'|] eqn:E1;
    [|vm_compute in E1; discriminate E1].
  destruct (k_body f32_add f32_mul (all_ones 512) (all_ones 512) 32 32 16 false false
              0 0 0 0 5 1 st' (0 + 8)) as [st''|] eqn:E2.
  - exists st', st''. split; [reflexivity|]. split; [exact E2|].
    apply (X17_double_buffer f32_add f32_mul (all_ones 512) (all_ones 512) 32 32 16
             false false 0 0 0 0 5 1 state_clean st' st'' 0 ltac:(lia) E1 E2).
  - exfalso. vm_compute in E1. injection E1 as <-. vm_compute in E2. discriminate E2.
Defined.

Lemma in_zrange (n : nat) (t : Z) : 0 <= t < Z.of_nat n -> In t (zrange n).
Proof.
  intros H. unfold zrange. apply in_map_iff. exists (Z.to_nat t).
  split; [lia | apply in_seq; lia].
Qed.


(** * Launches that complete *)

Section OneStepCompletes.

Context {T : Type}.
Variable fzero : T.
Variables fadd fmul : T -> T -> T.

Lemma eight_term_sum_some (A B : list T) (xa xb : Z -> Z) :
  (forall i, 0 <= i < 8 -> exists v, load A (xa i) = Some v) ->
  (forall i, 0 <= i < 8 -> exists v, load B (xb i) = Some v) ->
  exists v, eight_term_sum fzero fadd fmul A B xa xb = Some v.
Proof.
  intros HA HB. unfold eight_term_sum, zrange.
  cbn [seq map Z.of_nat Pos.of_succ_nat Pos.succ fold_left].
  repeat match goal with
         | |- context [load A (xa ?i)] =>
             let v := fresh "a" in
             let Hv := fresh "Hv" in
             destruct (HA i ltac:(lia)) as [v Hv]; rewrite !Hv; clear Hv
         | |- context [load B (xb ?i)] =>
             let v := fresh "b" in
             let Hv := fresh "Hv" in
             destruct (HB i ltac:(lia)) as [v Hv]; rewrite !Hv; clear Hv
         end.
  cbn [obind]. eauto.
Qed.

(** With a reduction length of up to 8 the single pass of the K loop
    reads nothing but the two slabs of the priming prefetch: a launch
    completes as soon as the blocks of its grid are in the layout and
    their slabs lie inside the operand buffers. *)
Lemma one_step_launch_completes (A B : list T) (args : kernel_args) (g : Z * Z * Z) :
  0 < arg_size_k args <= 8 ->
  slabs_inside A B args g ->
  launch_completes fzero fadd fmul A B args g 256.
Proof.
  intros Hk Hslabs [[x y] z] t Hg Ht.
  destruct (Hslabs x y z Hg) as (blk & Hget & Ha & Hb).
  unfold kernel_run.
  rewrite (kernel_one_step fzero fadd fmul A B _ _ _ _ _ x y z t _ _ blk Hget Ht Hk Ha Hb).
  assert (Hlane : 0 <= t mod 32 < 32) by (apply Z.mod_pos_bound; lia).
  assert (Hwarp : 0 <= t / 32 < 8)
    by (split; [apply Z.div_pos; lia | apply Z.div_lt_upper_bound; lia]).
  unfold zrange. cbn [seq map Z.of_nat Pos.of_succ_nat Pos.succ sequence].
  repeat match goal with
         | |- context [eight_term_sum fzero fadd fmul A B ?xa ?xb] =>
             let v := fresh "v" in
             let Hv := fresh "Hv" in
             destruct (eight_term_sum_some A B xa xb) as [v Hv];
             [ intros i Hi; apply (slab_in_bounds_load _ _ _ _ _ _ Ha); lia
             | intros i Hi; apply (slab_in_bounds_load _ _ _ _ _ _ Hb); lia
             | rewrite Hv; clear Hv ]
         end.
  cbn. discriminate.
Qed.

End OneStepCompletes.

(** * The stores of the SDD launch *)

Section LaunchStoresFacts.

Context {T : Type}.
Variable fzero : T.
Variables fadd fmul : T -> T -> T.

Lemma sequence_length {A : Type} (l : list (option A)) (xs : list A) :
  sequence l = Some xs -> List.length xs = List.length l.
Proof.
  revert xs. induction l as [|o l IH]; intros xs H; cbn in H.
  - injection H as <-. reflexivity.
  - destruct o as [x|]; [|discriminate]. cbn [obind] in H.
    destruct (sequence l) as [ys|]; [|discriminate]. cbn [obind] in H.
    injection H as <-. cbn. f_equal. now apply IH.
Qed.

Lemma map2_length {A B C : Type} (f : A -> B -> C) (l1 : list A) (l2 : list B) :
  List.length l1 = List.length l2 ->
  List.length (map2 f l1 l2) = List.length l1.
Proof.
  revert l2. induction l1 as [|x l1 IH]; intros [|y l2] H; cbn in *;
    try reflexivity; try discriminate.
  f_equal. apply IH. lia.
Qed.

(** The accumulator keeps its four registers through the K loop. *)
Lemma accumulate_length (sa sb : storage) (k lane warp i : Z) (acc acc' : list T) :
  accumulate fadd fmul sa sb k lane warp acc i = Some acc' ->
  List.length acc = 4%nat -> List.length acc' = 4%nat.
Proof.
  unfold accumulate. intros H Hlen.
  destruct (sequence _) as [local_b|] eqn:Es; [|discriminate]. cbn [obind] in H.
  destruct (storage_get _ _ _ _) as [local_a|]; [|discriminate]. cbn [obind] in H.
  injection H as <-. apply sequence_length in Es. rewrite length_map in Es.
  change (List.length (zrange 4)) with 4%nat in Es.
  rewrite map2_length; lia.
Qed.

Lemma accumulate_all_length (sa sb : storage) (k lane warp : Z)
    (positions : list Z) (acc acc' : list T) :
  accumulate_all fadd fmul sa sb k lane warp acc positions = Some acc' ->
  List.length acc = 4%nat -> List.length acc' = 4%nat.
Proof.
  revert acc. induction positions as [|i rest IH]; intros acc H Hlen; cbn in H.
  - now injection H as <-.
  - destruct (accumulate _ _ _ _ _ _ _ _ _) as [acc1|] eqn:E; [|discriminate].
    cbn [obind] in H. apply (IH acc1 H). eapply accumulate_length; eauto.
Qed.

Section Loop.

Variables matrix_a matrix_b : list T.
Variables size_m size_n size_k : Z.
Variables trans_a trans_b : bool.
Variables m n offset_a offset_b lane_idx warp_idx : Z.

Lemma k_body_length (st st' : thread_state) (k : Z) :
  k_body fadd fmul matrix_a matrix_b size_m size_n size_k trans_a trans_b
    m n offset_a offset_b lane_idx warp_idx st k = Some st' ->
  List.length (accumulator st) = 4%nat -> List.length (accumulator st') = 4%nat.
Proof.
  unfold k_body.
  destruct (if to_uint (k + 8) <? size_k then _ else _) as [loaders|]; [|discriminate].
  cbn [obind].
  destruct (accumulate_all _ _ _ _ _ _ _ _ _) as [acc|] eqn:E; [|discriminate].
  cbn [obind]. intros H Hlen. injection H as <-. cbn [accumulator].
  eapply accumulate_all_length; eauto.
Qed.

Lemma k_loop_length (ks : list Z) (st st' : thread_state) :
  k_loop fadd fmul matrix_a matrix_b size_m size_n size_k trans_a trans_b
    m n offset_a offset_b lane_idx warp_idx st ks = Some st' ->
  List.length (accumulator st) = 4%nat -> List.length (accumulator st') = 4%nat.
Proof.
  revert st. induction ks as [|k ks IH]; intros st H Hlen; cbn in H.
  - now injection H as <-.
  - destruct (k_body _ _ _ _ _ _ _ _ _ _ _ _ _ _ _ _ _) as [st1|] eqn:E; [|discriminate].
    cbn [obind] in H. apply (IH st1 H). eapply k_body_length; eauto.
Qed.

End Loop.

(** A thread that completes performs its four stores at the offsets of
    lines 98-99, whatever the data. *)
Lemma kernel_thread_offsets (A B : list T) (layout : layout_tensors)
    (num_blocks size_m size_n size_k : Z) (trans_a trans_b : bool)
    (blockIdx : Z * Z * Z) (t : Z) (ws : list (Z * T)) :
  kernel_thread fzero fadd fmul A B layout num_blocks size_m size_n size_k
    trans_a trans_b blockIdx t = Some ws ->
  thread_write_offsets layout num_blocks blockIdx t = Some (map fst ws).
Proof.
  unfold kernel_thread, thread_write_offsets. destruct blockIdx as [[x y] z].
  destruct (layout_get layout x) as [blk|]; [|discriminate]. cbn [obind].
  destruct (prefetch _ A _ _) as [la|]; [|discriminate]. cbn [obind].
  destruct (prefetch _ B _ _) as [lb|]; [|discriminate]. cbn [obind].
  destruct (uint_modulus - 8 <? size_k); [discriminate|].
  destruct (k_loop _ _ _ _ _ _ _ _ _ _ _ _ _ _ _ _ _) as [st|] eqn:E; [|discriminate].
  cbn [obind]. intros H. injection H as <-.
  apply k_loop_length in E; [|reflexivity].
  destruct (accumulator st) as [|v0 [|v1 [|v2 [|v3 [|v4 l]]]]]; try discriminate E.
  reflexivity.
Qed.

Lemma kernel_stores_stores (A B : list T) (args : kernel_args)
    (blockIdx : Z * Z * Z) (t : Z) (j : nat) (p : Z) :
  kernel_stores fzero fadd fmul A B args blockIdx t j p ->
  stores (arg_layout args) (arg_num_blocks args) blockIdx t j p.
Proof.
  intros (ws & v & Hrun & Hn). apply kernel_thread_offsets in Hrun.
  exists (map fst ws). split; [exact Hrun|].
  rewrite nth_error_map, Hn. reflexivity.
Qed.

Lemma stores_kernel_stores (A B : list T) (args : kernel_args)
    (blockIdx : Z * Z * Z) (t : Z) (j : nat) (p : Z) :
  kernel_run fzero fadd fmul A B args blockIdx t <> None ->
  stores (arg_layout args) (arg_num_blocks args) blockIdx t j p ->
  kernel_stores fzero fadd fmul A B args blockIdx t j p.
Proof.
  intros Hrun (os & Ho & Hn).
  destruct (kernel_run fzero fadd fmul A B args blockIdx t) as [ws|] eqn:E;
    [|congruence].
  pose proof (kernel_thread_offsets _ _ _ _ _ _ _ _ _ _ _ _ E) as Hw.
  rewrite Ho in Hw. injection Hw as ->.
  rewrite nth_error_map in Hn.
  destruct (nth_error ws j) as [[p' v]|] eqn:En; [|discriminate].
  cbn in Hn. injection Hn as ->.
  exists ws, v. split; [exact E | exact En].
Qed.

(** X1: a valid single-precision SDD call allocates the output buffer and
    launches the kernel on a grid whose threads, whenever all of them
    complete on the operand buffers, partition the buffer by their stores:
    every store of every thread lands inside the buffer and every element
    of the buffer is stored to exactly once.  The threads do all complete
    when the reduction length is at most 8 and the slabs of the grid's
    blocks lie inside the operands.  (Beyond a reduction length of 16 the
    in-loop prefetch leaves the operands.) *)
Theorem X1_sdd_launch_partitions (c : call) (pa pb : Torch.sizes)
    (a2 a1 b2 b1 : Z) (A B : list T) :
  pa <> [] -> pb <> [] -> fits_uint (Torch.numel pa) ->
  mode c = "sdd"%string -> dtype c = Float ->
  a c = pa ++ [a2; a1] -> b c = pb ++ [b2; b1] ->
  Torch.numel pa
    * to_uint (Z.of_nat (List.length (layout_blocks (row_layout c))) / 2)
    * 1024 <= uint_modulus ->
  exists s shape g args,
    run (sparse_matmul c)
      = (Returns s, [Alloc shape; Launch sparse_matmul_sdd_32x32x8_kernel g THREADS args])
    /\ (launch_completes fzero fadd fmul A B args g THREADS ->
        launch_partitions fzero fadd fmul A B args g THREADS (Torch.numel shape))
    /\ (0 < arg_size_k args <= 8 -> slabs_inside A B args g ->
        launch_completes fzero fadd fmul A B args g THREADS).
Proof.
  intros Hpa Hpb Hbatch Hm Hty Ha Hb Hfit.
  destruct (sdd_call_exact_cover c pa pb a2 a1 b2 b1 Hpa Hpb Hbatch Hm Hty Ha Hb Hfit)
    as (s & shape & g & args & Hrun & Hin & Hcover).
  exists s, shape, g, args. split; [exact Hrun|].
  split; [|apply one_step_launch_completes].
  intros Hall. split.
  - intros blockIdx t j p Hg Ht Hs.
    apply (Hin blockIdx t j p Hg Ht). now apply kernel_stores_stores in Hs.
  - intros p Hp. destruct (Hcover p Hp) as (blockIdx & t & j & Hg & Ht & Hs & Huniq).
    exists blockIdx, t, j. split; [exact Hg|]. split; [exact Ht|]. split.
    + apply stores_kernel_stores; [now apply Hall | exact Hs].
    + intros blockIdx' t' j' Hg' Ht' Hs'.
      apply (Huniq blockIdx' t' j' Hg' Ht'). now apply kernel_stores_stores in Hs'.
Qed.

End LaunchStoresFacts.



(** On two batches of a 32 x 8 by 8 x 32 product the launch completes and
    its stores partition the 2 x 1 x 32 x 32 buffer. *)
Lemma X1_sdd_launch_partitions_witness :
  exists s shape g args,
    run (sparse_matmul (call_of_mode "sdd" [2; 32; 8] [2; 8; 32]))
      = (Returns s, [Alloc shape; Launch sparse_matmul_sdd_32x32x8_kernel g THREADS args])
    /\ launch_completes f32_zero f32_add f32_mul (all_ones 512) (all_ones 512)
         args g THREADS
    /\ launch_partitions f32_zero f32_add f32_mul (all_ones 512) (all_ones 512)
         args g THREADS (Torch.numel shape).
Proof.
  destruct (X1_sdd_launch_partitions f32_zero f32_add f32_mul
              (call_of_mode "sdd" [2; 32; 8] [2; 8; 32]) [2] [2] 32 8 8 32
              (all_ones 512) (all_ones 512))
    as (s & shape & g & args & Hrun & Hpart & Hcomp);
    try discriminate; try reflexivity.
  - unfold fits_uint, uint_modulus. cbn. lia.
  - assert (Hall : launch_completes f32_zero f32_add f32_mul (all_ones 512)
                     (all_ones 512) args g THREADS).
    { pose proof Hrun as E. vm_compute in E. injection E as _ _ Hg Hargs.
      apply Hcomp; subst g args.
      - cbn. lia.
      - intros x y z (Hx & Hy & Hz).
        assert (x = 0) by lia. subst x.
        assert (Hy' : y = 0 \/ y = 1) by lia.
        exists block_0_0. split; [reflexivity|].
        destruct Hy' as [-> | ->]; split; vm_compute; reflexivity. }
    exists s, shape, g, args. split; [exact Hrun|]. split; [exact Hall|].
    apply Hpart. exact Hall.
Defined.

Lemma later_step_guard (size_k k : Z) :
  0 <= size_k <= uint_modulus - 8 ->
  In k (k_steps size_k) ->
  (to_uint (k + 8) <? size_k) = true <-> In (k + 8) (k_steps size_k).
Proof.
  intros Hk Hin. apply in_k_steps in Hin; [|lia].
  destruct Hin as (Hr & Hm).
  assert (Hu : to_uint (k + 8) = k + 8)
    by (unfold to_uint; apply Z.mod_small; lia).
  rewrite Hu, Z.ltb_lt, in_k_steps by lia.
  assert (Hm8 : (k + 8) mod 8 = 0).
  { replace (k + 8) with (k + 1 * 8) by lia. rewrite Z.mod_add by lia. exact Hm. }
  split; [intros H; split; [lia | exact Hm8] | intros (H & _); lia].
Qed.

Section PrefetchGuard.

Context {T : Type}.
Variables fadd fmul : T -> T -> T.
Variables size_m size_n size_k : Z.
Variables trans_a trans_b : bool.
Variables m n offset_a offset_b lane_idx warp_idx : Z.

Let body (A B : list T) := k_body fadd fmul A B size_m size_n size_k trans_a trans_b
                             m n offset_a offset_b lane_idx warp_idx.

(** Nothing can be prefetched from an empty buffer. *)
Lemma prefetch_empty (l : @loader T) (offset : Z) (p : prefetch_args) :
  prefetch l [] offset p = None.
Proof.
  unfold prefetch.
  destruct (slab_in_bounds (loader_trans l) [] offset p) eqn:E; [|reflexivity].
  exfalso. unfold slab_in_bounds in E. rewrite forallb_forall in E.
  specialize (E 0 (in_zrange 32 0 ltac:(lia))). rewrite forallb_forall in E.
  specialize (E 0 (in_zrange 8 0 ltac:(lia))). cbn [List.length Z.of_nat] in E.
  apply andb_true_iff in E. destruct E as [E1 E2].
  apply Z.leb_le in E1. apply Z.ltb_lt in E2. lia.
Qed.

(** X16: the guard of the in-loop prefetch.  In a pass of the K loop that
    is followed by another pass, the slabs of the next pass are
    prefetched from the operand buffers: the pass cannot complete on
    empty buffers, and when it completes the loaders hold the slabs
    addressed by the arguments of lines 76-77.  In the last pass nothing
    is prefetched: the pass does not read the operand buffers at all and
    leaves both loaders as they were, so no slab at or beyond [size_k] is
    requested from inside the loop. *)
Theorem X16_prefetch_guard (A B A' B' : list T) (st : thread_state) (k : Z) :
  0 <= size_k <= uint_modulus - 8 ->
  In k (k_steps size_k) ->
  (In (k + 8) (k_steps size_k) ->
   body [] [] st k = None
   /\ forall st', body A B st k = Some st' ->
        prefetch (loader_a st) A offset_a (loop_args_a trans_a m size_m size_k k)
        = Some (loader_a st')
        /\ prefetch (loader_b st) B offset_b (loop_args_b trans_b n size_n size_k k)
           = Some (loader_b st'))
  /\ (~ In (k + 8) (k_steps size_k) ->
      body A B st k = body A' B' st k
      /\ forall st', body A B st k = Some st' ->
           loader_a st' = loader_a st /\ loader_b st' = loader_b st).
Proof.
  intros Hk Hin. pose proof (later_step_guard size_k k Hk Hin) as G.
  unfold body, k_body. split.
  - intros Hnext. apply G in Hnext. rewrite Hnext. split.
    + rewrite prefetch_empty. reflexivity.
    + intros st'.
      destruct (prefetch (loader_a st) A _ _) as [la|]; [|discriminate]. cbn [obind].
      destruct (prefetch (loader_b st) B _ _) as [lb|]; [|discriminate]. cbn [obind fst snd].
      destruct (accumulate_all _ _ _ _ _ _ _ _ _) as [acc|]; [|discriminate].
      cbn [obind]. intros H. injection H as <-. split; reflexivity.
  - intros Hlast.
    destruct (to_uint (k + 8) <? size_k) eqn:E; [exfalso; apply Hlast, G; reflexivity|].
    split; [reflexivity|]. cbn [obind fst snd]. intros st'.
    destruct (accumulate_all _ _ _ _ _ _ _ _ _) as [acc|]; [|discriminate].
    cbn [obind]. intros H. injection H as <-. split; reflexivity.
Qed.

End PrefetchGuard.

Lemma X16_prefetch_guard_witness :
  (k_body f32_add f32_mul [] [] 32 32 16 false false 0 0 0 0 5 1 state_clean 0 = None)
  /\ (k_body f32_add f32_mul (all_ones 512) (all_ones 512) 32 32 16 false false
        0 0 0 0 5 1 state_clean 8
      = k_body f32_add f32_mul [] [] 32 32 16 false false 0 0 0 0 5 1 state_clean 8).
Proof.
  assert (Hk : 0 <= 16 <= uint_modulus - 8) by (unfold uint_modulus; lia).
  split.
  - destruct (X16_prefetch_guard f32_add f32_mul 32 32 16 false false 0 0 0 0 5 1
                (all_ones 512) (all_ones 512) [] [] state_clean 0 Hk
                ltac:(left; reflexivity)) as (H & _).
    apply H. right. left. reflexivity.
  - destruct (X16_prefetch_guard f32_add f32_mul 32 32 16 false false 0 0 0 0 5 1
                (all_ones 512) (all_ones 512) [] [] state_clean 8 Hk
                ltac:(right; left; reflexivity)) as (_ & H).
    apply H. cbn. intros [F | [F | F]]; [discriminate F | discriminate F | exact F].
Defined.

(** * Further properties of the dispatchers *)

(** X9: the element type decides only whether the kernel is launched: the
    same call on tensors of another element type ends in the same way (the
    same returned shape or the same exception) after the same
    allocation. *)
Theorem X9_element_type_only_gates_launch (c : call) (t : scalar_type) :
  fst (run (sparse_matmul (set_dtype c t))) = fst (run (sparse_matmul c))
  /\ firstn 1 (snd (run (sparse_matmul (set_dtype c t))))
     = firstn 1 (snd (run (sparse_matmul c))).
Proof.
  unfold sparse_matmul, set_dtype, select_layout. cbn [a b dtype mode row_layout
    col_layout trans_a trans_b]. unfold_monad.
  destruct_matches; cbn [app fst snd firstn]; split; reflexivity.
Qed.

(** *** The two dispatchers side by side *)

Section HostRuns.

Variable c : call.
Variables pa pb : Torch.sizes.
Variables a2 a1 b2 b1 : Z.
Hypothesis Hpa : pa <> [].
Hypothesis Hpb : pb <> [].
Hypothesis Hty : dtype c = Float.

Lemma batched_op_sdd_run :
  mode c = "sdd"%string ->
  a c = pa ++ [a2; a1] ->
  b c = pb ++ [b2; b1] ->
  let total_blocks := tensor_len (layout_blocks (row_layout c)) / 2 in
  run (batched_sparse_matmul_op c) =
    (Returns (pa ++ [total_blocks; 32; 32]),
     [Alloc [Torch.numel pa; total_blocks; 32; 32];
      CallOp batched_sparse_matmul_op_32x32_sdd
        {| op_blocks := layout_blocks (row_layout c); op_table := None;
           op_total_blocks := total_blocks; op_total_batches := Torch.numel pa;
           op_total_m := if trans_a c then a1 else a2;
           op_total_n := if trans_b c then b2 else b1;
           op_total_k := if trans_b c then b1 else b2;
           op_trans_a := trans_a c; op_trans_b := trans_b c |}]).
Proof.
  intros Hm Ha Hb total_blocks. unfold batched_sparse_matmul_op, run. rewrite Hm, Hty.
  cbn [String.eqb Ascii.eqb Bool.eqb]. rewrite Ha, Hb, pop_back_twice.
  unfold_monad.
  rewrite (TorchFacts.flatten_batch pa [a2; a1] (-3) Hpa eq_refl).
  rewrite (TorchFacts.flatten_batch pb [b2; b1] (-3) Hpb eq_refl).
  rewrite TorchFacts.size_0. fold total_blocks. unfold TILE_32x32_WIDTH.
  destruct (trans_a c), (trans_b c); rewrite ?size3_last, ?size3_before_last;
    cbv beta iota;
    (rewrite TorchFacts.reshape_same_numel;
     [cbn [app]; now rewrite <- !app_assoc
     | rewrite <- !app_assoc; cbn [app];
       rewrite TorchFacts.numel_cons, TorchFacts.numel_app; reflexivity]).
Qed.

Lemma batched_op_dsd_run (a3 : Z) :
  mode c = "dsd"%string ->
  a c = pa ++ [a3; a2; a1] ->
  b c = pb ++ [b2; b1] ->
  Torch.numel pa = Torch.numel pb ->
  let layout := if trans_a c then col_layout c else row_layout c in
  let total_m := (tensor_len (layout_table layout) - 1) * 32 in
  let total_n := if trans_b c then b2 else b1 in
  run (batched_sparse_matmul_op c) =
    (Returns (pb ++ [total_m; total_n]),
     [Alloc [Torch.numel pa; total_m; total_n];
      CallOp batched_sparse_matmul_op_32x32_dsd
        {| op_blocks := layout_blocks layout; op_table := Some (layout_table layout);
           op_total_blocks := tensor_len (layout_blocks layout) / 2;
           op_total_batches := Torch.numel pa;
           op_total_m := total_m;
           op_total_n := total_n;
           op_total_k := if trans_b c then b1 else b2;
           op_trans_a := trans_a c; op_trans_b := trans_b c |}]).
Proof.
  intros Hm Ha Hb Hnum layout total_m total_n.
  unfold batched_sparse_matmul_op, run. rewrite Hm, Hty.
  cbn [String.eqb Ascii.eqb Bool.eqb]. unfold_monad. rewrite Ha, Hb.
  assert (P : forall k log,
             bind (pop_back (pb ++ [b2; b1])) (fun s => bind (pop_back s) k) log
             = k pb log) by (intros; apply pop_back_twice).
  unfold bind, pop_back, undefined, ret in P. unfold TILE_32x32_WIDTH.
  subst layout total_m total_n.
  destruct (trans_a c), (trans_b c); rewrite ?size_last, ?size_before_last;
    cbv beta iota; rewrite P;
    rewrite (TorchFacts.flatten_batch pa [a3; a2; a1] (-4) Hpa eq_refl);
    rewrite (TorchFacts.flatten_batch pb [b2; b1] (-3) Hpb eq_refl);
    rewrite TorchFacts.size_0; cbv beta iota;
    (rewrite TorchFacts.reshape_same_numel;
     [cbn [app]; now rewrite <- !app_assoc
     | rewrite <- !app_assoc; cbn [app];
       rewrite TorchFacts.numel_cons, TorchFacts.numel_app, Hnum; reflexivity]).
Qed.

Lemma batched_op_dds_run (b3 : Z) :
  mode c = "dds"%string ->
  a c = pa ++ [a2; a1] ->
  b c = pb ++ [b3; b2; b1] ->
  let layout := if trans_b c then row_layout c else col_layout c in
  let total_m := if trans_a c then a1 else a2 in
  let total_n := (tensor_len (layout_table layout) - 1) * 32 in
  run (batched_sparse_matmul_op c) =
    (Returns (pa ++ [total_m; total_n]),
     [Alloc [Torch.numel pa; total_m; total_n];
      CallOp batched_sparse_matmul_op_32x32_dds
        {| op_blocks := layout_blocks layout; op_table := Some (layout_table layout);
           op_total_blocks := tensor_len (layout_blocks layout) / 2;
           op_total_batches := Torch.numel pa;
           op_total_m := total_m;
           op_total_n := total_n;
           op_total_k := if trans_a c then a2 else a1;
           op_trans_a := trans_a c; op_trans_b := trans_b c |}]).
Proof.
  intros Hm Ha Hb layout total_m total_n.
  unfold batched_sparse_matmul_op, run. rewrite Hm, Hty.
  cbn [String.eqb Ascii.eqb Bool.eqb]. unfold_monad. rewrite Ha, Hb.
  assert (P : forall k log,
             bind (pop_back (pa ++ [a2; a1])) (fun s => bind (pop_back s) k) log
             = k pa log) by (intros; apply pop_back_twice).
  unfold bind, pop_back, undefined, ret in P. unfold TILE_32x32_WIDTH.
  subst layout total_m total_n.
  destruct (trans_a c), (trans_b c); rewrite ?size_last, ?size_before_last;
    cbv beta iota; rewrite P;
    rewrite (TorchFacts.flatten_batch pa [a2; a1] (-3) Hpa eq_refl);
    rewrite (TorchFacts.flatten_batch pb [b3; b2; b1] (-4) Hpb eq_refl);
    rewrite TorchFacts.size_0; cbv beta iota;
    (rewrite TorchFacts.reshape_same_numel;
     [cbn [app]; now rewrite <- !app_assoc
     | rewrite <- !app_assoc; cbn [app];
       rewrite TorchFacts.numel_cons, TorchFacts.numel_app; reflexivity]).
Qed.

End HostRuns.

(** X10: on a valid single-precision call whose extents fit 32 bits the
    two dispatchers do the same thing up to the operation they start: both
    allocate the same buffer and return the same shape, and the kernel
    launch of [sparse_matmul] carries the same layout, block count,
    extents and transposition flags as the host operation that
    [batched_sparse_matmul_op] calls for the mode. *)
Theorem X10_dispatchers_agree (c : call) (pa pb : Torch.sizes)
    (a3 a2 a1 b3 b2 b1 : Z) :
  pa <> [] -> pb <> [] -> dtype c = Float ->
  fits_uint (Torch.numel pa) ->
  fits_uint a2 -> fits_uint a1 -> fits_uint b2 -> fits_uint b1 ->
  let half_blocks l := Z.of_nat (List.length (layout_blocks l)) / 2 in
  let width l := (Z.of_nat (List.length (layout_table l)) - 1) * 32 in
  let agree :=
    exists s shape g ka op oa,
      run (sparse_matmul c)
        = (Returns s,
           [Alloc shape; Launch sparse_matmul_sdd_32x32x8_kernel g THREADS ka])
      /\ run (batched_sparse_matmul_op c) = (Returns s, [Alloc shape; CallOp op oa])
      /\ host_op_of_mode (mode c) = Some op
      /\ same_problem ka oa in
  (mode c = "sdd"%string ->
   a c = pa ++ [a2; a1] -> b c = pb ++ [b2; b1] ->
   fits_uint (half_blocks (row_layout c)) -> agree)
  /\ (mode c = "dsd"%string ->
      a c = pa ++ [a3; a2; a1] -> b c = pb ++ [b2; b1] ->
      Torch.numel pa = Torch.numel pb ->
      let layout := if trans_a c then col_layout c else row_layout c in
      fits_uint (half_blocks layout) -> fits_uint (width layout) -> agree)
  /\ (mode c = "dds"%string ->
      a c = pa ++ [a2; a1] -> b c = pb ++ [b3; b2; b1] ->
      let layout := if trans_b c then row_layout c else col_layout c in
      fits_uint (half_blocks layout) -> fits_uint (width layout) -> agree).
Proof.
  intros Hpa Hpb Hty Hbatch Fa2 Fa1 Fb2 Fb1 half_blocks width agree.
  assert (Fa : forall t : bool, to_uint (if t then a1 else a2) = if t then a1 else a2)
    by (intros []; now apply to_uint_small).
  assert (Fa' : forall t : bool, to_uint (if t then a2 else a1) = if t then a2 else a1)
    by (intros []; now apply to_uint_small).
  assert (Fb : forall t : bool, to_uint (if t then b2 else b1) = if t then b2 else b1)
    by (intros []; now apply to_uint_small).
  assert (Fb' : forall t : bool, to_uint (if t then b1 else b2) = if t then b1 else b2)
    by (intros []; now apply to_uint_small).
  subst agree. split; [|split].
  - intros Hm Ha Hb Hfit.
    rewrite (sparse_matmul_sdd c pa pb a2 a1 b2 b1 Hpa Hpb Hbatch Hm Ha Hb).
    rewrite (batched_op_sdd_run c pa pb a2 a1 b2 b1 Hpa Hpb Hty Hm Ha Hb).
    rewrite Hty, Hm. unfold tensor_len. fold (half_blocks (row_layout c)).
    rewrite (to_uint_small _ Hfit), Fa, Fb, Fb'.
    eexists _, _, _, _, _, _. split; [reflexivity|]. split; [reflexivity|].
    split; [reflexivity|]. unfold same_problem. cbn. repeat split; congruence.
  - intros Hm Ha Hb Hnum layout Hfit Hw.
    rewrite (sparse_matmul_dsd c pa pb a2 a1 b2 b1 Hpa Hpb Hbatch a3 Hm Ha Hb Hnum).
    rewrite (batched_op_dsd_run c pa pb a2 a1 b2 b1 Hpa Hpb Hty a3 Hm Ha Hb Hnum).
    rewrite Hty, Hm. unfold tensor_len. fold layout.
    fold (half_blocks layout). fold (width layout).
    rewrite (to_uint_small _ Hfit), (to_uint_small _ Hw), Fb, Fb'.
    eexists _, _, _, _, _, _. split; [reflexivity|]. split; [reflexivity|].
    split; [reflexivity|]. unfold same_problem. cbn.
    repeat split; try congruence; try (intros t Ht; congruence).
  - intros Hm Ha Hb layout Hfit Hw.
    rewrite (sparse_matmul_dds c pa pb a2 a1 b2 b1 Hpa Hpb Hbatch b3 Hm Ha Hb).
    rewrite (batched_op_dds_run c pa pb a2 a1 b2 b1 Hpa Hpb Hty b3 Hm Ha Hb).
    rewrite Hty, Hm. unfold tensor_len. fold layout.
    fold (half_blocks layout). fold (width layout).
    rewrite (to_uint_small _ Hfit), (to_uint_small _ Hw), Fa, Fa'.
    eexists _, _, _, _, _, _. split; [reflexivity|]. split; [reflexivity|].
    split; [reflexivity|]. unfold same_problem. cbn.
    repeat split; try congruence; try (intros t Ht; congruence).
Qed.

(** *** The launch grid of the dense-output modes *)

Lemma tile_count_covers (s : Z) :
  0 <= s <= uint_modulus - 32 ->
  32 * (to_uint (s + 32 - 1) / 32 - 1) < s <= 32 * (to_uint (s + 32 - 1) / 32).
Proof.
  unfold to_uint, uint_modulus. intros H.
  rewrite Z.mod_small by lia.
  pose proof (Z.div_mod (s + 32 - 1) 32 ltac:(lia)) as E.
  pose proof (Z.mod_pos_bound (s + 32 - 1) 32 ltac:(lia)) as B.
  lia.
Qed.

Lemma tile_count_wraps (s : Z) :
  uint_modulus - 32 < s < uint_modulus -> to_uint (s + 32 - 1) / 32 = 0.
Proof.
  unfold to_uint, uint_modulus. intros H.
  replace (s + 32 - 1) with ((s + 31 - 2 ^ 32) + 1 * 2 ^ 32) by lia.
  rewrite Z.mod_add by lia. rewrite Z.mod_small by lia.
  apply Z.div_small. lia.
Qed.

(** X11: for a mode other than [sdd] the grid is (num_batches, tiles of
    size_m, tiles of size_n), where the tile count of an extent up to
    2^32 - 32 is that extent divided by 32 and rounded up; for a larger
    extent the rounding addition wraps around and the tile count is 0. *)
Theorem X11_dense_grid (md : string) (num_blocks num_batches size_m size_n : Z) :
  md <> "sdd"%string ->
  exists tm tn,
    launch_blocks md num_blocks num_batches size_m size_n = (num_batches, tm, tn)
    /\ (0 <= size_m <= uint_modulus - 32 -> 32 * (tm - 1) < size_m <= 32 * tm)
    /\ (uint_modulus - 32 < size_m < uint_modulus -> tm = 0)
    /\ (0 <= size_n <= uint_modulus - 32 -> 32 * (tn - 1) < size_n <= 32 * tn)
    /\ (uint_modulus - 32 < size_n < uint_modulus -> tn = 0).
Proof.
  intros Hmd. apply String.eqb_neq in Hmd. unfold launch_blocks. rewrite Hmd.
  eexists _, _. split; [reflexivity|].
  repeat split; first [apply tile_count_covers | apply tile_count_wraps]; assumption.
Qed.

Lemma X11_dense_grid_witness :
  exists tm tn,
    launch_blocks "dsd" 1 3 33 4294967295 = (3, tm, tn)
    /\ (0 <= 33 <= uint_modulus - 32 -> 32 * (tm - 1) < 33 <= 32 * tm)
    /\ (uint_modulus - 32 < 33 < uint_modulus -> tm = 0)
    /\ (0 <= 4294967295 <= uint_modulus - 32
        -> 32 * (tn - 1) < 4294967295 <= 32 * tn)
    /\ (uint_modulus - 32 < 4294967295 < uint_modulus -> tn = 0).
Proof. apply (X11_dense_grid "dsd" 1 3 33 4294967295). discriminate. Defined.

(** X12: an empty table tensor is not rejected.  In DSD and DDS mode the
    extent taken from the sparse operand is (table length - 1) * 32 in
    32-bit arithmetic, so with a table of length 0 the call allocates and
    returns a buffer whose sparse extent is 4294967264. *)
Theorem X12_empty_table (c : call) (pa pb : Torch.sizes) (a3 a2 a1 b3 b2 b1 : Z) :
  pa <> [] -> pb <> [] -> fits_uint (Torch.numel pa) ->
  (mode c = "dsd"%string ->
   a c = pa ++ [a3; a2; a1] -> b c = pb ++ [b2; b1] ->
   Torch.numel pa = Torch.numel pb ->
   layout_table (if trans_a c then col_layout c else row_layout c) = [] ->
   let total_n := to_uint (if trans_b c then b2 else b1) in
   exists rest,
     run (sparse_matmul c)
       = (Returns (pb ++ [4294967264; total_n]),
          Alloc [Torch.numel pa; 4294967264; total_n] :: rest))
  /\ (mode c = "dds"%string ->
      a c = pa ++ [a2; a1] -> b c = pb ++ [b3; b2; b1] ->
      layout_table (if trans_b c then row_layout c else col_layout c) = [] ->
      let total_m := to_uint (if trans_a c then a1 else a2) in
      exists rest,
        run (sparse_matmul c)
          = (Returns (pa ++ [total_m; 4294967264]),
             Alloc [Torch.numel pa; total_m; 4294967264] :: rest)).
Proof.
  intros Hpa Hpb Hbatch. split.
  - intros Hm Ha Hb Hnum Htab total_n.
    rewrite (sparse_matmul_dsd c pa pb a2 a1 b2 b1 Hpa Hpb Hbatch a3 Hm Ha Hb Hnum).
    rewrite Htab. eexists. reflexivity.
  - intros Hm Ha Hb Htab total_m.
    rewrite (sparse_matmul_dds c pa pb a2 a1 b2 b1 Hpa Hpb Hbatch b3 Hm Ha Hb).
    rewrite Htab. eexists. reflexivity.
Qed.

(** *** The host-side dispatcher on malformed operands *)

(** X13: operands without two matrix dimensions.  In SDD mode the
    dispatcher pops the two trailing extents of [a] before it reads any of
    them, so an [a] of rank below two makes it pop from an empty vector
    (undefined behaviour), and an [a] of rank exactly two is rejected by
    the flattening, before any allocation.  DSD and DDS read the trailing
    extents of their dense operand first, and an operand of rank below two
    is rejected there with the tensor library's index error. *)
Theorem X13_host_dispatcher_low_rank (c : call) :
  (mode c = "sdd"%string -> (List.length (a c) < 2)%nat ->
   run (batched_sparse_matmul_op c) = (Undefined, []))
  /\ (mode c = "sdd"%string -> List.length (a c) = 2%nat ->
      run (batched_sparse_matmul_op c) = (Throws IndexError, []))
  /\ (mode c = "dsd"%string -> (List.length (b c) < 2)%nat ->
      run (batched_sparse_matmul_op c) = (Throws IndexError, []))
  /\ (mode c = "dds"%string -> (List.length (a c) < 2)%nat ->
      run (batched_sparse_matmul_op c) = (Throws IndexError, [])).
Proof.
  unfold batched_sparse_matmul_op, run. repeat split; intros Hm Hlen; rewrite Hm;
    cbn [String.eqb Ascii.eqb Bool.eqb].
  - destruct (a c) as [|x [|y s]]; cbn in Hlen; try lia; reflexivity.
  - destruct (a c) as [|x [|y [|z s]]]; cbn in Hlen; try lia. reflexivity.
  - destruct (b c) as [|x [|y s]]; cbn in Hlen; try lia;
      destruct (trans_b c); reflexivity.
  - destruct (a c) as [|x [|y s]]; cbn in Hlen; try lia;
      destruct (trans_a c); reflexivity.
Qed.

Lemma X13_host_dispatcher_low_rank_witness :
  run (batched_sparse_matmul_op (call_of_mode "sdd" [32] [1; 32; 32])) = (Undefined, [])
  /\ run (batched_sparse_matmul_op (call_of_mode "sdd" [32; 32] [1; 32; 32]))
     = (Throws IndexError, [])
  /\ run (batched_sparse_matmul_op (call_of_mode "dsd" [1; 1; 32; 32] [32]))
     = (Throws IndexError, [])
  /\ run (batched_sparse_matmul_op (call_of_mode "dds" [32] [1; 1; 32; 32]))
     = (Throws IndexError, []).
Proof.
  split; [|split; [|split]].
  - destruct (X13_host_dispatcher_low_rank (call_of_mode "sdd" [32] [1; 32; 32]))
      as (H & _). apply H; [reflexivity | cbn; lia].
  - destruct (X13_host_dispatcher_low_rank (call_of_mode "sdd" [32; 32] [1; 32; 32]))
      as (_ & H & _). apply H; reflexivity.
  - destruct (X13_host_dispatcher_low_rank (call_of_mode "dsd" [1; 1; 32; 32] [32]))
      as (_ & _ & H & _). apply H; [reflexivity | cbn; lia].
  - destruct (X13_host_dispatcher_low_rank (call_of_mode "dds" [32] [1; 1; 32; 32]))
      as (_ & _ & _ & H). apply H; [reflexivity | cbn; lia].
Defined.

Lemma trailing_two (s : Torch.sizes) :
  (3 <= List.length s)%nat ->
  exists p r q, p <> [] /\ s = p ++ [r; q].
Proof.
  intros H. rewrite <- (rev_involutive s). rewrite <- length_rev in H.
  destruct (rev s) as [|x1 [|x2 [|x3 r]]]; cbn in H; try lia.
  exists (rev (x3 :: r)), x2, x1. split.
  - intros E. apply (f_equal (@List.length Z)) in E.
    rewrite length_rev in E. cbn in E. lia.
  - cbn [rev]. now rewrite <- !app_assoc.
Qed.

(** X15: in SDD and DDS mode the final reshape of the host-side dispatcher
    cannot fail: the buffer's batch extent and the recorded leading
    dimensions both come from [a], so their element counts agree whatever
    the operands are.  (In DSD mode they come from different operands.) *)
Theorem X15_host_reshape_cannot_fail (c : call) :
  layout_table (row_layout c) <> [] ->
  layout_table (col_layout c) <> [] ->
  mode c = "sdd"%string \/ mode c = "dds"%string ->
  fst (run (batched_sparse_matmul_op c)) <> Throws ReshapeError.
Proof.
  intros _ _ Hmode.
  destruct (le_lt_dec 3 (List.length (a c))) as [Hrank | Hrank].
  - destruct (trailing_two _ Hrank) as (pa & r & q & Hpa & Ha).
    assert (P : forall k log,
               bind (pop_back (pa ++ [r; q])) (fun s => bind (pop_back s) k) log
               = k pa log) by (intros; apply pop_back_twice).
    unfold bind, pop_back, undefined, ret in P.
    assert (R : forall x y z,
               Torch.reshape [Torch.numel pa; x; y; z] (((pa ++ [x]) ++ [y]) ++ [z])
               = Some (((pa ++ [x]) ++ [y]) ++ [z])).
    { intros. apply TorchFacts.reshape_same_numel. rewrite <- !app_assoc. cbn [app].
      rewrite TorchFacts.numel_cons, TorchFacts.numel_app. reflexivity. }
    assert (R' : forall x y,
               Torch.reshape [Torch.numel pa; x; y] ((pa ++ [x]) ++ [y])
               = Some ((pa ++ [x]) ++ [y])).
    { intros. apply TorchFacts.reshape_same_numel. rewrite <- !app_assoc. cbn [app].
      rewrite TorchFacts.numel_cons, TorchFacts.numel_app. reflexivity. }
    unfold batched_sparse_matmul_op.
    destruct Hmode as [Hm | Hm]; rewrite Hm; cbn [String.eqb Ascii.eqb Bool.eqb];
      unfold_monad; rewrite Ha;
      destruct (trans_a c); rewrite ?size_last, ?size_before_last; cbv beta iota;
      rewrite P; rewrite (TorchFacts.flatten_batch pa [r; q] (-3) Hpa eq_refl);
      cbv beta iota;
      repeat first [ rewrite TorchFacts.size_0 | rewrite R | rewrite R'
                   | destruct_step ];
      cbn [fst]; discriminate.
  - assert (F : Torch.flatten (a c) 0 (-3) = None)
      by (apply TorchFacts.flatten_short; unfold Torch.dim; lia).
    unfold batched_sparse_matmul_op.
    destruct Hmode as [Hm | Hm]; rewrite Hm; cbn [String.eqb Ascii.eqb Bool.eqb];
      unfold_monad;
      repeat first [ rewrite F | destruct_step ]; cbn [fst]; discriminate.
Qed.

Lemma X15_host_reshape_cannot_fail_witness :
  fst (run (batched_sparse_matmul_op (call_of_mode "dds" [2; 32; 64] [7; 1; 32; 32])))
    <> Throws ReshapeError.
Proof.
  apply (X15_host_reshape_cannot_fail (call_of_mode "dds" [2; 32; 64] [7; 1; 32; 32]));
    [discriminate | discriminate | right; reflexivity].
Defined.

(** *** Instances *)

Lemma X10_dispatchers_agree_witness :
  exists s shape g ka op oa,
    run (sparse_matmul (call_of_mode "dsd" [6; 1; 32; 32] [2; 3; 32; 64]))
      = (Returns s, [Alloc shape; Launch sparse_matmul_sdd_32x32x8_kernel g THREADS ka])
    /\ run (batched_sparse_matmul_op (call_of_mode "dsd" [6; 1; 32; 32] [2; 3; 32; 64]))
       = (Returns s, [Alloc shape; CallOp op oa])
    /\ host_op_of_mode "dsd" = Some op
    /\ same_problem ka oa.
Proof.
  assert (F : forall z, 0 <= z < 2 ^ 32 -> fits_uint z) by (intros z H; exact H).
  assert (F6 : fits_uint (Torch.numel [6])) by (apply F; cbn; lia).
  assert (F32 : fits_uint 32) by (apply F; lia).
  assert (F64 : fits_uint 64) by (apply F; lia).
  destruct (X10_dispatchers_agree (call_of_mode "dsd" [6; 1; 32; 32] [2; 3; 32; 64])
              [6] [2; 3] 1 32 32 0 32 64
              ltac:(discriminate) ltac:(discriminate) eq_refl
              F6 F32 F32 F32 F64) as (_ & H & _).
  apply H; try reflexivity; apply F; cbn; lia.
Defined.

Lemma X12_empty_table_witness :
  exists rest,
    run (sparse_matmul call_dsd_empty_table)
      = (Returns ([1] ++ [4294967264; to_uint 32]),
         Alloc [Torch.numel [1]; 4294967264; to_uint 32] :: rest).
Proof.
  assert (Hb : fits_uint (Torch.numel [1]))
    by (unfold fits_uint, uint_modulus; cbn; lia).
  destruct (X12_empty_table call_dsd_empty_table [1] [1] 1 32 32 0 32 32
              ltac:(discriminate) ltac:(discriminate) Hb) as (H & _).
  apply H; reflexivity.
Defined.

(** X18: extents pass through 32-bit variables.  Whatever the sizes of the
    layout tensors and of the dense operands' trailing axes, an
    otherwise valid call returns the leading dimensions followed by those
    extents reduced modulo 2^32. *)
Theorem X18_returned_extents_wrap (c : call) (pa pb : Torch.sizes)
    (a3 a2 a1 b3 b2 b1 : Z) :
  pa <> [] -> pb <> [] -> fits_uint (Torch.numel pa) ->
  let half_blocks l := Z.of_nat (List.length (layout_blocks l)) / 2 in
  let width l := (Z.of_nat (List.length (layout_table l)) - 1) * 32 in
  (mode c = "sdd"%string ->
   a c = pa ++ [a2; a1] -> b c = pb ++ [b2; b1] ->
   fst (run (sparse_matmul c))
   = Returns (pa ++ [half_blocks (row_layout c) mod 2 ^ 32; 32; 32]))
  /\ (mode c = "dsd"%string ->
      a c = pa ++ [a3; a2; a1] -> b c = pb ++ [b2; b1] ->
      Torch.numel pa = Torch.numel pb ->
      fst (run (sparse_matmul c))
      = Returns (pb ++ [width (if trans_a c then col_layout c else row_layout c)
                          mod 2 ^ 32;
                        (if trans_b c then b2 else b1) mod 2 ^ 32]))
  /\ (mode c = "dds"%string ->
      a c = pa ++ [a2; a1] -> b c = pb ++ [b3; b2; b1] ->
      fst (run (sparse_matmul c))
      = Returns (pa ++ [(if trans_a c then a1 else a2) mod 2 ^ 32;
                        width (if trans_b c then row_layout c else col_layout c)
                          mod 2 ^ 32])).
Proof.
  intros Hpa Hpb Hbatch half_blocks width. split; [|split].
  - intros Hm Ha Hb.
    now rewrite (sparse_matmul_sdd c pa pb a2 a1 b2 b1 Hpa Hpb Hbatch Hm Ha Hb).
  - intros Hm Ha Hb Hnum.
    now rewrite (sparse_matmul_dsd c pa pb a2 a1 b2 b1 Hpa Hpb Hbatch a3 Hm Ha Hb Hnum).
  - intros Hm Ha Hb.
    now rewrite (sparse_matmul_dds c pa pb a2 a1 b2 b1 Hpa Hpb Hbatch b3 Hm Ha Hb).
Qed.

Lemma X18_returned_extents_wrap_witness :
  fst (run (sparse_matmul (call_of_mode "dds" [2; 4294967301; 8] [2; 1; 32; 32])))
  = Returns ([2] ++ [4294967301 mod 2 ^ 32;
                     (Z.of_nat (List.length (layout_table single_block)) - 1) * 32
                       mod 2 ^ 32]).
Proof.
  assert (Hb : fits_uint (Torch.numel [2]))
    by (unfold fits_uint, uint_modulus; cbn; lia).
  destruct (X18_returned_extents_wrap
              (call_of_mode "dds" [2; 4294967301; 8] [2; 1; 32; 32])
              [2] [2] 0 4294967301 8 1 32 32
              ltac:(discriminate) ltac:(discriminate) Hb) as (_ & _ & H).
  apply H; reflexivity.
Defined.
